(** * Canvas layout, validation and vault paths of the virtual assistant

    A shallow embedding of
    - [src/services/canvas.ts]      (class [CanvasService], the editor plugin),
    - [mcp-server/src/canvas.ts]    (class [CanvasGenerator], the tool server),
    - the vault service that the server imports as [./vault.js]
                                    (class [VaultService], [resolvePath]),
    followed by the properties established about them.

    Conventions.
    - A JavaScript string is the list of its UTF-16 code units, so [length],
      [substring] and the regular expressions count what the engine counts.
    - Identifiers come from a random source: [Math.random] and [Date.now]
      in the plugin, [randomUUID] in the server.  The n-th call of the id
      generator during one construction reads the n-th draw of its source
      and returns [gen n]; the counter of calls is threaded through the code
      as state.  The layout code is embedded over any [gen]; the two
      generators of the source are [Plugin.generateUniqueId] and
      [Server.generateId].
    - Grid layouts compute with integers ([Z]); the mind map uses [cos],
      [sin] and [PI] and is embedded over the real numbers.
    - [toLowerCase] is a parameter of the functions that call it; the
      scenarios, whose inputs are ASCII, instantiate it with the lower-casing
      of the ASCII range.
    - An object literal that the code uses as a map is the finite map of
      the keys it lists, on top of what a plain object inherits: see
      [Member].
    - [path.resolve], [path.normalize] and [path.join] are those of Node on
      POSIX.
    - The structured inputs of the pre-built generators have the types that
      their signatures declare; the validator, which receives parsed JSON
      under a cast, is embedded over untyped values. *)

From Stdlib Require Import ZArith NArith List String Ascii Bool Lia Reals Lra.
From stdpp Require Import prelude gmap.

Set Default Proof Using "Type".

(* ===================================================================== *)
(** * JavaScript strings                                                  *)
(* ===================================================================== *)

Abbreviation jsstring := (list N).

(** An ASCII literal as a JavaScript string. *)
Definition js (s : string) : jsstring :=
  map N_of_ascii (list_ascii_of_string s).

Module Char.
Definition lf : N := 10.
Definition tab : N := 9.
Definition space : N := 32.
Definition bang : N := 33.
Definition hash : N := 35.
Definition star : N := 42.
Definition dash : N := 45.
Definition bullet : N := 8226.   (* U+2022 *)
End Char.

(** [\s] of a regular expression and the characters removed by [trim()]:
    WhiteSpace and LineTerminator of ECMAScript. *)
Definition is_space (c : N) : bool :=
  ((9 <=? c) && (c <=? 13) || (c =? 32) || (c =? 160) || (c =? 5760)
   || (8192 <=? c) && (c <=? 8202) || (c =? 8232) || (c =? 8233)
   || (c =? 8239) || (c =? 8287) || (c =? 12288) || (c =? 65279))%N.

(** The class of the first replacement: backslash, slash, colon, star,
    question mark, double quote, less, greater, bar. *)
Definition is_reserved (c : N) : bool :=
  ((c =? 92) || (c =? 47) || (c =? 58) || (c =? 42) || (c =? 63)
   || (c =? 34) || (c =? 60) || (c =? 62) || (c =? 124))%N.

(** First [replace] of [sanitizeFilename]: every reserved character
    becomes a dash (flag g). *)
Definition replace_reserved (s : jsstring) : jsstring :=
  map (λ c, if is_reserved c then Char.dash else c) s.

(** [s.replace(/\s+/g, '-')]: every maximal run of white space becomes one
    dash.  [in_run] tells that the previous code unit was white space. *)
Fixpoint replace_space_runs_from (in_run : bool) (s : jsstring) : jsstring :=
  match s with
  | [] => []
  | c :: r =>
      if is_space c
      then (if in_run then replace_space_runs_from true r
            else Char.dash :: replace_space_runs_from true r)
      else c :: replace_space_runs_from false r
  end.

Definition replace_space_runs (s : jsstring) : jsstring :=
  replace_space_runs_from false s.

(** [s.substring(0, n)] *)
Definition substring0 (n : nat) (s : jsstring) : jsstring := take n s.

(** [s.substring(a, b)] for [a <= b] *)
Definition substring (a b : nat) (s : jsstring) : jsstring :=
  take (b - a) (drop a s).

(** The digit [d] of a number printed in base 36: 0 to 9, then a to z. *)
Definition digit36 (d : N) : N := (if d <? 10 then 48 + d else 87 + d)%N.

Fixpoint toString36_digits (fuel : nat) (n : N) (tail : jsstring) : jsstring :=
  match fuel with
  | O => tail
  | S fuel =>
      let tail := digit36 (n mod 36) :: tail in
      if (n / 36 =? 0)%N then tail
      else toString36_digits fuel (n / 36) tail
  end.

(** [n.toString(36)] for an integer [n >= 0]; the number of bits of [n]
    bounds the number of its digits. *)
Definition toString36 (n : N) : jsstring :=
  toString36_digits (S (N.size_nat n)) n [].

(** A code unit that [sanitizeFilename] leaves in place. *)
Definition clean_char (c : N) : Prop := is_reserved c = false ∧ is_space c = false.

(** [sanitizeFilename], the same text in both [canvas.ts] files. *)
Definition sanitizeFilename (name : jsstring) : jsstring :=
  substring0 100 (replace_space_runs (replace_reserved name)).

(** [s.split('\n')] *)
Fixpoint split_lines (s : jsstring) : list jsstring :=
  match s with
  | [] => [[]]
  | c :: r =>
      if (c =? Char.lf)%N then [] :: split_lines r
      else match split_lines r with
           | l :: ls => (c :: l) :: ls
           | [] => [[c]]
           end
  end.

Fixpoint trimStart (s : jsstring) : jsstring :=
  match s with
  | c :: r => if is_space c then trimStart r else s
  | [] => []
  end.

Definition trimEnd (s : jsstring) : jsstring := reverse (trimStart (reverse s)).

(** [s.trim()] *)
Definition trim (s : jsstring) : jsstring := trimEnd (trimStart s).

(** [s.startsWith(p)] *)
Fixpoint startsWith (s p : jsstring) : bool :=
  match p, s with
  | [], _ => true
  | a :: p', b :: s' => (a =? b)%N && startsWith s' p'
  | _ :: _, [] => false
  end.

(** [s.includes(needle)] *)
Fixpoint includes (s needle : jsstring) : bool :=
  startsWith s needle
  || match s with
     | [] => false
     | _ :: r => includes r needle
     end.

(** The class [[-*•]] of bullet markers. *)
Definition is_bullet (c : N) : bool :=
  ((c =? Char.dash) || (c =? Char.star) || (c =? Char.bullet))%N.

(** [s.replace(/^[-*•]\s*/, '')] *)
Definition strip_bullet (s : jsstring) : jsstring :=
  match s with
  | c :: r => if is_bullet c then trimStart r else s
  | [] => []
  end.

(** [s.replace(/^#\s*/, '')] *)
Definition strip_hash (s : jsstring) : jsstring :=
  match s with
  | c :: r => if (c =? Char.hash)%N then trimStart r else s
  | [] => []
  end.

(** [s.replace(/^##?\s*/, '')] *)
Definition strip_hashes (s : jsstring) : jsstring :=
  match s with
  | c :: r =>
      if (c =? Char.hash)%N
      then match r with
           | d :: r' => if (d =? Char.hash)%N then trimStart r' else trimStart r
           | [] => []
           end
      else s
  | [] => []
  end.

(** [toLowerCase] on the ASCII range.  The generators below take the
    lower-casing function as a parameter; this is the instance used on
    ASCII inputs, where it agrees with the engine's. *)
Definition ascii_toLowerCase (s : jsstring) : jsstring :=
  map (λ c, if ((65 <=? c) && (c <=? 90))%N then (c + 32)%N else c) s.

(** Lines of a description: [description.split('\n').filter(l => l.trim())]. *)
Definition nonblank_lines (description : jsstring) : list jsstring :=
  filter (λ l, trim l ≠ []) (split_lines description).

(** [Array.prototype.forEach], with the index passed to the callback. *)
Fixpoint forEach_from {A St : Type} (i : nat) (f : St → A → nat → St)
    (l : list A) (s : St) : St :=
  match l with
  | [] => s
  | a :: r => forEach_from (S i) f r (f s a i)
  end.

Definition forEach {A St : Type} (f : St → A → nat → St) (l : list A) (s : St)
  : St :=
  forEach_from 0 f l s.

(* ===================================================================== *)
(** * The JSON Canvas types                                               *)
(* ===================================================================== *)

Inductive NodeType := Text | File | Link | Group.
Inductive Side := Top | Right | Bottom | Left.

(** [CanvasNode] and [CanvasEdge], over the type [I] of identifiers, the
    type [Num] of coordinates and the type [Col] of the values that the
    member [color] holds.  Of the optional members only those the code
    below writes are kept.  [CanvasNode I Num] is the node whose colour is a
    string, as the interface declares it; the board of the plugin, which
    reads its colours and columns from object literals, can hold other
    values there (see [Member]). *)
Record CanvasNodeOf (I Num Col : Type) := mkNode {
  node_id : I;
  node_type : NodeType;
  node_x : Num;
  node_y : Num;
  node_width : Num;
  node_height : Num;
  node_text : option jsstring;
  node_label : option jsstring;
  node_color : option Col
}.
Arguments mkNode {I Num Col}.
Arguments node_id {I Num Col}.
Arguments node_type {I Num Col}.
Arguments node_x {I Num Col}.
Arguments node_y {I Num Col}.
Arguments node_width {I Num Col}.
Arguments node_height {I Num Col}.
Arguments node_text {I Num Col}.
Arguments node_label {I Num Col}.
Arguments node_color {I Num Col}.

Abbreviation CanvasNode I Num := (CanvasNodeOf I Num jsstring).

Record CanvasEdge (I : Type) := mkEdge {
  edge_id : I;
  edge_fromNode : I;
  edge_toNode : I;
  edge_fromSide : option Side;
  edge_toSide : option Side
}.
Arguments mkEdge {I}.
Arguments edge_id {I}.
Arguments edge_fromNode {I}.
Arguments edge_toNode {I}.
Arguments edge_fromSide {I}.
Arguments edge_toSide {I}.

Record CanvasDataOf (I Num Col : Type) := mkCanvas {
  nodes : list (CanvasNodeOf I Num Col);
  edges : list (CanvasEdge I)
}.
Arguments mkCanvas {I Num Col}.
Arguments nodes {I Num Col}.
Arguments edges {I Num Col}.

Abbreviation CanvasData I Num := (CanvasDataOf I Num jsstring).

(** The graph under construction: [nodes] and [edges] as pushed so far, and
    the number of identifiers drawn so far. *)
Record BuilderOf (I Num Col : Type) := mkBuilder {
  drawn : nat;
  b_nodes : list (CanvasNodeOf I Num Col);
  b_edges : list (CanvasEdge I)
}.
Arguments mkBuilder {I Num Col}.
Arguments drawn {I Num Col}.
Arguments b_nodes {I Num Col}.
Arguments b_edges {I Num Col}.

Abbreviation Builder I Num := (BuilderOf I Num jsstring).

Section Building.
Context {I Num Col : Type} (generateId : nat → I).

Definition empty_builder : BuilderOf I Num Col := mkBuilder 0 [] [].

(** [this.generateId()] *)
Definition fresh (b : BuilderOf I Num Col) : I * BuilderOf I Num Col :=
  (generateId (drawn b), mkBuilder (S (drawn b)) (b_nodes b) (b_edges b)).

(** [nodes.push(n)] *)
Definition push_node (n : CanvasNodeOf I Num Col) (b : BuilderOf I Num Col)
  : BuilderOf I Num Col :=
  mkBuilder (drawn b) (b_nodes b ++ [n]) (b_edges b).

(** [edges.push(e)] *)
Definition push_edge (e : CanvasEdge I) (b : BuilderOf I Num Col)
  : BuilderOf I Num Col :=
  mkBuilder (drawn b) (b_nodes b) (b_edges b ++ [e]).

(** [return { nodes, edges }] *)
Definition finish (b : BuilderOf I Num Col) : CanvasDataOf I Num Col :=
  mkCanvas (b_nodes b) (b_edges b).

End Building.

(* ===================================================================== *)
(** * Helpers present in both files                                       *)
(* ===================================================================== *)

Local Open Scope Z_scope.

Definition columns : list jsstring :=
  [js "To Do"; js "In Progress"; js "Review"; js "Done"].

(** [getColumnColor]: [colors[column] || '1'].  Both files share it and call
    it with the names of [columns] only, which the literal lists. *)
Definition getColumnColor (column : jsstring) : jsstring :=
  let colors : gmap jsstring jsstring :=
    list_to_map [(js "To Do", js "2"); (js "In Progress", js "3");
                 (js "Review", js "5"); (js "Done", js "4")] in
  default (js "1") (colors !! column).

Inductive Level := low | medium | high.

Definition levels : list Level := [low; medium; high].

Definition level_name (l : Level) : jsstring :=
  match l with low => js "low" | medium => js "medium" | high => js "high" end.

(** [levels.indexOf(l)] *)
Definition level_index (l : Level) : Z :=
  match l with low => 0 | medium => 1 | high => 2 end.

(** [getRiskColor(impact, likelihood)] *)
Definition getRiskColor (impact likelihood : Level) : jsstring :=
  let score := (level_index impact + 1) * (level_index likelihood + 1) in
  if 6 <=? score then js "1"
  else if 3 <=? score then js "2"
  else js "4".

(** [toUpperCase] on the ASCII range; applied to the level names only. *)
Definition ascii_toUpperCase (s : jsstring) : jsstring :=
  map (λ c, if ((97 <=? c) && (c <=? 122))%N then (c - 32)%N else c) s.

(** [s.charAt(0)] *)
Definition charAt0 (s : jsstring) : jsstring := take 1 s.

(** [String(n)] for a digit [n]. *)
Definition digit_string (n : nat) : jsstring := [(48 + N.of_nat n)%N].

(** [getClosestSide(fromX, fromY, toX, toY)] *)
Definition getClosestSide (fromX fromY toX toY : R) : Side :=
  let dx := (toX - fromX)%R in
  let dy := (toY - fromY)%R in
  if Rgt_dec (Rabs dx) (Rabs dy)
  then (if Rgt_dec dx 0 then Right else Left)
  else (if Rgt_dec dy 0 then Bottom else Top).

(** A branch of a mind map: [{ topic: string; subtopics: string[] }]. *)
Record Branch := mkBranch {
  topic : jsstring;
  subtopics : list jsstring
}.

(* ===================================================================== *)
(** * [mcp-server/src/canvas.ts]: class [CanvasGenerator]                 *)
(* ===================================================================== *)

Module Server.

(** [randomUUID().replace(/-/g, '').substring(0, 16)], where [randomUUID n]
    is the UUID that the n-th call draws. *)
Definition generateId (randomUUID : nat → jsstring) (call : nat) : jsstring :=
  substring0 16 (filter (λ c, c ≠ Char.dash) (randomUUID call)).

Section Generator.
Context {I : Type} (generateId : nat → I) (toLowerCase : jsstring → jsstring).

Definition columnWidth : Z := 250.
Definition columnHeight : Z := 600.
Definition padding : Z := 20.

(** State of the loop over the lines of a taskboard description. *)
Record TaskLoop := mkTaskLoop {
  currentColumn : nat;
  taskCounts : list nat;
  board : Builder I Z
}.

(** The column groups: [columns.forEach((col, i) => ...)]. *)
Definition push_column (b : Builder I Z) (col : jsstring) (i : nat) : Builder I Z :=
  let '(colId, b) := fresh generateId b in
  push_node (mkNode colId Group
               (Z.of_nat i * (columnWidth + padding)) 0 columnWidth columnHeight
               None (Some col) (Some (getColumnColor col))) b.

(** Body of [lines.forEach((line) => ...)] of the taskboard. *)
Definition task_line (st : TaskLoop) (line : jsstring) (_ : nat) : TaskLoop :=
  let lineLower := toLowerCase line in
  let currentColumn :=
    if includes lineLower (js "todo") || includes lineLower (js "to do")
       || includes lineLower (js "pending") then 0%nat
    else if includes lineLower (js "in progress")
            || includes lineLower (js "working") then 1%nat
    else if includes lineLower (js "review")
            || includes lineLower (js "testing") then 2%nat
    else if includes lineLower (js "done")
            || includes lineLower (js "complete") then 3%nat
    else currentColumn st in
  let taskText := trim (strip_bullet line) in
  if bool_decide (taskText = []) || (length taskText <? 3)%nat
  then mkTaskLoop currentColumn (taskCounts st) (board st)
  else
    let '(priority, color) :=
      if includes lineLower (js "high") || includes lineLower (js "urgent")
         || includes lineLower [Char.bang]
      then (js "high", Some (js "1"))
      else if includes lineLower (js "low") then (js "low", Some (js "4"))
      else (js "medium", None) in
    let '(taskId, b) := fresh generateId (board st) in
    let nodeHeight := 80 in
    let count := default 0%nat (taskCounts st !! currentColumn) in
    let b :=
      push_node (mkNode taskId Text
                   (Z.of_nat currentColumn * (columnWidth + padding) + padding)
                   (60 + Z.of_nat count * (nodeHeight + 10))
                   (columnWidth - 2 * padding) nodeHeight
                   (Some (js "**" ++ taskText ++ js "**" ++ [Char.lf; Char.lf]
                          ++ js "Priority: " ++ priority))
                   None color) b in
    mkTaskLoop currentColumn (<[currentColumn := S count]> (taskCounts st)) b.

Definition generateTaskboardFromDescription (description : jsstring)
  : CanvasData I Z :=
  let b := forEach push_column columns empty_builder in
  let lines := nonblank_lines description in
  let st := forEach task_line lines (mkTaskLoop 0 [0; 0; 0; 0]%nat b) in
  let b := board st in
  let b :=
    if (length (b_nodes b) =? 4)%nat
    then
      let '(phId, b) := fresh generateId b in
      push_node (mkNode phId Text padding 60 (columnWidth - 2 * padding) 80
                   (Some (js "Add tasks from:" ++ [Char.lf; Char.lf]
                          ++ substring0 100 description ++ js "..."))
                   None None) b
    else b in
  finish b.

Definition cellWidth : Z := 250.
Definition cellHeight : Z := 200.

(** The grid: [levels.forEach((impact, i) => levels.forEach((likelihood, j)
    => ...))]. *)
Definition push_cell (impact : Level) (i : nat)
    (b : Builder I Z) (likelihood : Level) (j : nat) : Builder I Z :=
  let '(cellId, b) := fresh generateId b in
  push_node (mkNode cellId Group
               (Z.of_nat j * (cellWidth + padding))
               ((2 - Z.of_nat i) * (cellHeight + padding))
               cellWidth cellHeight
               None
               (Some (ascii_toUpperCase (charAt0 (level_name impact)) ++ js "I / "
                      ++ ascii_toUpperCase (charAt0 (level_name likelihood))
                      ++ js "L"))
               (Some (getRiskColor impact likelihood))) b.

Definition push_row (b : Builder I Z) (impact : Level) (i : nat) : Builder I Z :=
  forEach (push_cell impact i) levels b.

(** State of the loop over the lines of a risk description. *)
Record RiskLoop := mkRiskLoop {
  riskCounts : gmap jsstring nat;
  matrix : Builder I Z
}.

(** Body of [lines.forEach((line) => ...)] of the risk matrix. *)
Definition risk_line (st : RiskLoop) (line : jsstring) (_ : nat) : RiskLoop :=
  let lineLower := toLowerCase line in
  let riskText := trim (strip_bullet line) in
  if bool_decide (riskText = []) || (length riskText <? 3)%nat then st
  else
    let likelihood :=
      if includes lineLower (js "high likelihood") || includes lineLower (js "likely")
      then high
      else if includes lineLower (js "low likelihood")
              || includes lineLower (js "unlikely")
      then low
      else medium in
    let impact :=
      if includes lineLower (js "high impact") || includes lineLower (js "critical")
      then high
      else if includes lineLower (js "low impact") || includes lineLower (js "minor")
      then low
      else medium in
    let key := level_name impact ++ js "-" ++ level_name likelihood in
    let count := default 0%nat (riskCounts st !! key) in
    let impactIndex := level_index impact in
    let likelihoodIndex := level_index likelihood in
    let '(riskId, b) := fresh generateId (matrix st) in
    let b :=
      push_node (mkNode riskId Text
                   (likelihoodIndex * (cellWidth + padding) + padding
                    + (Z.of_nat count mod 2) * 100)
                   ((2 - impactIndex) * (cellHeight + padding) + padding
                    + (Z.of_nat count / 2) * 50)
                   100 40
                   (Some (substring0 50 riskText))
                   None
                   (Some (getRiskColor impact likelihood))) b in
    mkRiskLoop (<[key := S count]> (riskCounts st)) b.

Definition generateRiskMatrixFromDescription (description : jsstring)
  : CanvasData I Z :=
  let b := empty_builder in
  let '(impactId, b) := fresh generateId b in
  let b := push_node (mkNode impactId Text (-100) (cellHeight + padding) 80 40
                        (Some (js "**Impact**")) None None) b in
  let '(likelihoodId, b) := fresh generateId b in
  let b := push_node (mkNode likelihoodId Text (cellWidth + padding)
                        (3 * (cellHeight + padding) + 20) 100 40
                        (Some (js "**Likelihood**")) None None) b in
  let b := forEach push_row levels b in
  let lines := nonblank_lines description in
  let st := forEach risk_line lines (mkRiskLoop ∅ b) in
  finish (matrix st).

(** ** The mind map *)

Local Open Scope R_scope.

Definition centerX : R := 500.
Definition centerY : R := 400.
Definition branchRadius : R := 300.
Definition subBranchRadius : R := 150.

(** State of the loop that reads the central theme and the branches. *)
Record Outline := mkOutline {
  centralTheme : jsstring;
  branches : list Branch;
  currentBranch : option Branch
}.

(** Body of [lines.forEach((line, index) => ...)] of the mind map. *)
Definition outline_line (st : Outline) (line : jsstring) (index : nat) : Outline :=
  let trimmed := trim line in
  let isSubItem :=
    startsWith line (js "  ") || startsWith line [Char.tab]
    || startsWith trimmed (js "-") in
  if (index =? 0)%nat then
    mkOutline (strip_bullet (strip_hash trimmed)) (branches st) (currentBranch st)
  else if negb isSubItem && (2 <? length trimmed)%nat then
    mkOutline (centralTheme st)
      (match currentBranch st with
       | Some cur => branches st ++ [cur]
       | None => branches st
       end)
      (Some (mkBranch (strip_hashes (strip_bullet trimmed)) []))
  else
    match currentBranch st with
    | Some cur =>
        if isSubItem && (2 <? length trimmed)%nat
        then mkOutline (centralTheme st) (branches st)
               (Some (mkBranch (topic cur) (subtopics cur ++ [strip_bullet trimmed])))
        else st
    | None => st
    end.

Definition parse_outline (description : jsstring) : jsstring * list Branch :=
  let lines := nonblank_lines description in
  let st := forEach outline_line lines (mkOutline (js "Central Topic") [] None) in
  (centralTheme st,
   match currentBranch st with
   | Some cur => branches st ++ [cur]
   | None => branches st
   end).

(** Body of [branch.subtopics.slice(0, 5).forEach((subtopic, j) => ...)]. *)
Definition push_subtopic (branchId : I) (branchX branchY : R)
    (subStartAngle subAngleStep : R)
    (b : Builder I R) (subtopic : jsstring) (j : nat) : Builder I R :=
  let subAngle := subStartAngle + subAngleStep * INR j in
  let subX := branchX + cos subAngle * subBranchRadius in
  let subY := branchY + sin subAngle * subBranchRadius in
  let '(subId, b) := fresh generateId b in
  let b := push_node (mkNode subId Text (subX - 50) (subY - 20) 100 40
                        (Some (substring0 30 subtopic)) None None) b in
  let '(edgeId, b) := fresh generateId b in
  push_edge (mkEdge edgeId branchId subId
               (Some (getClosestSide branchX branchY subX subY))
               (Some (getClosestSide subX subY branchX branchY))) b.

(** Body of [branches.forEach((branch, i) => ...)]. *)
Definition push_branch (centralId : I) (angleStep : R)
    (b : Builder I R) (branch : Branch) (i : nat) : Builder I R :=
  let angle := angleStep * INR i - PI / 2 in
  let branchX := centerX + cos angle * branchRadius in
  let branchY := centerY + sin angle * branchRadius in
  let '(branchId, b) := fresh generateId b in
  let b := push_node (mkNode branchId Text (branchX - 60) (branchY - 30) 120 60
                        (Some (js "## " ++ topic branch)) None
                        (Some (digit_string (i mod 6 + 1)))) b in
  let '(edgeId, b) := fresh generateId b in
  let b := push_edge (mkEdge edgeId centralId branchId
                        (Some (getClosestSide centerX centerY branchX branchY))
                        (Some (getClosestSide branchX branchY centerX centerY))) b in
  if (0 <? length (subtopics branch))%nat then
    let subAngleStep :=
      (PI / 3) / INR (Nat.max (length (subtopics branch) - 1) 1) in
    let subStartAngle := angle - PI / 6 in
    forEach (push_subtopic branchId branchX branchY subStartAngle subAngleStep)
      (take 5 (subtopics branch)) b
  else b.

(** The layout part of [generateMindMapFromDescription]. *)
Definition layout_mindmap (centralTheme : jsstring) (branches : list Branch)
  : CanvasData I R :=
  let '(centralId, b) := fresh generateId empty_builder in
  let b := push_node (mkNode centralId Text (centerX - 75) (centerY - 40) 150 80
                        (Some (js "# " ++ centralTheme)) None (Some (js "5"))) b in
  let angleStep :=
    if (0 <? length branches)%nat then 2 * PI / INR (length branches) else 0 in
  finish (forEach (push_branch centralId angleStep) branches b).

Definition generateMindMapFromDescription (description : jsstring)
  : CanvasData I R :=
  let '(centralTheme, branches) := parse_outline description in
  layout_mindmap centralTheme branches.

Local Close Scope R_scope.

Definition generateCustomCanvas (description : jsstring) : CanvasData I Z :=
  let '(nodeId, _) := fresh generateId (empty_builder (Num := Z) (Col := jsstring)) in
  mkCanvas [mkNode nodeId Text 0 0 400 300 (Some description) None None] [].

End Generator.
End Server.

(* ===================================================================== *)
(** * [src/services/canvas.ts]: class [CanvasService]                     *)
(* ===================================================================== *)

(** ** Values read from parsed JSON

    [validateAndFixCanvasData] receives the result of [JSON.parse] under a
    type cast, so every member it reads may hold any value.  A number is
    modelled by an integer; an object or array held in a member is known by
    its reference only.  The equality of [Set.prototype.has] (SameValueZero)
    is then the equality of [jsval]. *)
Inductive jsval :=
| VUndefined
| VNull
| VBool (b : bool)
| VNum (n : Z)
| VStr (s : jsstring)
| VObject (ref : nat).

#[export] Instance jsval_eq_dec : EqDecision jsval.
Proof. solve_decision. Defined.

#[export] Instance jsval_countable : Countable jsval.
Proof.
  refine (inj_countable'
    (λ v, match v with
          | VUndefined => inl (inl true)
          | VNull => inl (inl false)
          | VBool b => inl (inr b)
          | VNum n => inr (inl n)
          | VStr s => inr (inr (inl s))
          | VObject r => inr (inr (inr r))
          end)
    (λ c, match c with
          | inl (inl true) => VUndefined
          | inl (inl false) => VNull
          | inl (inr b) => VBool b
          | inr (inl n) => VNum n
          | inr (inr (inl s)) => VStr s
          | inr (inr (inr r)) => VObject r
          end) _).
  by intros [].
Defined.

(** ToBoolean *)
Definition truthy (v : jsval) : bool :=
  match v with
  | VUndefined | VNull => false
  | VBool b => b
  | VNum n => negb (n =? 0)
  | VStr s => negb (bool_decide (s = []))
  | VObject _ => true
  end.

(** The members of a node and of an edge that the validator reads; a member
    that is absent reads as [VUndefined]. *)
Record RawNode := mkRawNode {
  raw_id : jsval;
  raw_type : jsval;
  raw_x : jsval;
  raw_y : jsval;
  raw_width : jsval;
  raw_height : jsval;
  raw_text : jsval;
  raw_file : jsval;
  raw_label : jsval;
  raw_color : jsval
}.

Record RawEdge := mkRawEdge {
  raw_edge_id : jsval;
  raw_fromNode : jsval;
  raw_toNode : jsval;
  raw_fromSide : jsval;
  raw_toSide : jsval;
  raw_edge_label : jsval;
  raw_edge_color : jsval
}.

(** An element of a parsed array: [null], whose members cannot be read, or
    a value whose members read as in [a]. *)
Inductive Element (A : Type) :=
| null_element
| element (a : A).
Arguments null_element {A}.
Arguments element {A}.

(** The member [nodes] or [edges] of the parsed document: falsy (absent,
    [null], [false], [0], the empty string), an array, or another truthy
    value, which has no method [map]. *)
Inductive ArrayMember (A : Type) :=
| falsy_member
| array_member (l : list (Element A))
| other_member.
Arguments falsy_member {A}.
Arguments array_member {A}.
Arguments other_member {A}.

Record RawCanvas := mkRawCanvas {
  raw_nodes : ArrayMember RawNode;
  raw_edges : ArrayMember RawEdge
}.

(** The objects built by the validator. *)
Record FixedNode := mkFixedNode {
  fixed_id : jsval;
  fixed_type : jsval;
  fixed_x : Z;
  fixed_y : Z;
  fixed_width : Z;
  fixed_height : Z;
  fixed_text : option jsval;
  fixed_file : option jsval;
  fixed_label : option jsval;
  fixed_color : option jsval
}.

Record FixedEdge := mkFixedEdge {
  fixed_edge_id : jsval;
  fixed_fromNode : jsval;
  fixed_toNode : jsval;
  fixed_fromSide : option jsval;
  fixed_toSide : option jsval;
  fixed_edge_label : option jsval;
  fixed_edge_color : option jsval
}.

Record FixedCanvas := mkFixedCanvas {
  fixed_nodes : list FixedNode;
  fixed_edges : list FixedEdge
}.

(** A call returns or raises a [TypeError]. *)
Inductive Outcome (A : Type) :=
| Returns (a : A)
| TypeError.
Arguments Returns {A}.
Arguments TypeError {A}.

(** A task, a risk: the structured inputs of the pre-built generators. *)
Record Task := mkTask {
  title : jsstring;
  status : jsstring;
  priority : option jsstring
}.

Record Risk := mkRisk {
  risk_title : jsstring;
  likelihood : Level;
  impact : Level
}.

(** ** Object literals used as maps

    [statusMap[key]] and [colors[key]] read a plain object: a key that the
    literal lists reads the string listed, and any other key reads what a
    plain object inherits from [Object.prototype], which is [undefined]
    unless the key is one of the names below.  The inherited members are
    functions, and for [__proto__] the prototype itself: they are truthy and
    they are not strings. *)
Inductive Member :=
| Str (s : jsstring)
| Inherited (key : jsstring).   (* Object.prototype[key] *)

#[global] Instance Member_eq_dec : EqDecision Member.
Proof. solve_decision. Defined.

(** The names of the properties of [Object.prototype]. *)
Definition Object_prototype_keys : list jsstring :=
  [js "constructor"; js "__defineGetter__"; js "__defineSetter__";
   js "hasOwnProperty"; js "__lookupGetter__"; js "__lookupSetter__";
   js "isPrototypeOf"; js "propertyIsEnumerable"; js "toString"; js "valueOf";
   js "__proto__"; js "toLocaleString"].

(** [literal[key] || fallback], for a literal whose values are strings. *)
Definition member_or (literal : gmap jsstring jsstring) (key fallback : jsstring)
  : Member :=
  match literal !! key with
  | Some v => if bool_decide (v = []) then Str fallback else Str v
  | None =>
      if bool_decide (key ∈ Object_prototype_keys) then Inherited key
      else Str fallback
  end.

(** A number that is an integer or [NaN]. *)
Inductive jsnumber :=
| Finite (z : Z)
| NaN.

Definition number_add (a b : jsnumber) : jsnumber :=
  match a, b with
  | Finite x, Finite y => Finite (x + y)
  | _, _ => NaN
  end.

Definition number_mul (a b : jsnumber) : jsnumber :=
  match a, b with
  | Finite x, Finite y => Finite (x * y)
  | _, _ => NaN
  end.

(** [xs.indexOf(x)] *)
Fixpoint indexOf (xs : list jsstring) (x : jsstring) : Z :=
  match xs with
  | [] => -1
  | y :: r =>
      if bool_decide (y = x) then 0
      else let k := indexOf r x in if k <? 0 then -1 else k + 1
  end.

Module Plugin.

(** [Math.random().toString(36).substring(2, 9) + Date.now().toString(36)],
    where [randomText n] is the text [Math.random().toString(36)] of the
    n-th call and [dateNow n] the time that the n-th call reads. *)
Definition generateUniqueId (randomText : nat → jsstring) (dateNow : nat → N)
    (call : nat) : jsstring :=
  substring 2 9 (randomText call) ++ toString36 (dateNow call).

Section Validator.
Context (generateId : nat → jsstring).

(** [v || this.generateId()], with the number of identifiers drawn so far. *)
Definition id_or_fresh (v : jsval) (drawn : nat) : jsval * nat :=
  if truthy v then (v, drawn) else (VStr (generateId drawn), S drawn).

(** [typeof v === 'number' ? v : d] *)
Definition number_or (v : jsval) (d : Z) : Z :=
  match v with VNum n => n | _ => d end.

(** [...(v && { member: v })] *)
Definition carry (v : jsval) : option jsval :=
  if truthy v then Some v else None.

Definition fix_node (node : RawNode) (drawn : nat) : FixedNode * nat :=
  let '(id, drawn) := id_or_fresh (raw_id node) drawn in
  (mkFixedNode id
     (if truthy (raw_type node) then raw_type node else VStr (js "text"))
     (number_or (raw_x node) 0) (number_or (raw_y node) 0)
     (number_or (raw_width node) 200) (number_or (raw_height node) 100)
     (carry (raw_text node)) (carry (raw_file node))
     (carry (raw_label node)) (carry (raw_color node)),
   drawn).

Definition fix_edge (edge : RawEdge) (drawn : nat) : FixedEdge * nat :=
  let '(id, drawn) := id_or_fresh (raw_edge_id edge) drawn in
  (mkFixedEdge id (raw_fromNode edge) (raw_toNode edge)
     (carry (raw_fromSide edge)) (carry (raw_toSide edge))
     (carry (raw_edge_label edge)) (carry (raw_edge_color edge)),
   drawn).

(** [arr.map(f)] where the callback reads members of its argument and draws
    identifiers. *)
Fixpoint map_elements {A B : Type} (f : A → nat → B * nat)
    (l : list (Element A)) (drawn : nat) : Outcome (list B * nat) :=
  match l with
  | [] => Returns ([], drawn)
  | null_element :: _ => TypeError
  | element a :: r =>
      let '(b, drawn) := f a drawn in
      match map_elements f r drawn with
      | Returns (bs, drawn) => Returns (b :: bs, drawn)
      | TypeError => TypeError
      end
  end.

(** [arr.filter(p)] where the callback reads members of its argument. *)
Fixpoint filter_elements {A : Type} (p : A → bool) (l : list (Element A))
  : Outcome (list (Element A)) :=
  match l with
  | [] => Returns []
  | null_element :: _ => TypeError
  | element a :: r =>
      match filter_elements p r with
      | Returns l' => Returns (if p a then element a :: l' else l')
      | TypeError => TypeError
      end
  end.

(** [(member || [])], then a method of arrays is called on it. *)
Definition or_empty {A : Type} (m : ArrayMember A) : Outcome (list (Element A)) :=
  match m with
  | falsy_member => Returns []
  | array_member l => Returns l
  | other_member => TypeError
  end.

Definition validateAndFixCanvasData (data : RawCanvas) : Outcome FixedCanvas :=
  match or_empty (raw_nodes data) with
  | TypeError => TypeError
  | Returns rawNodes =>
      match map_elements fix_node rawNodes 0 with
      | TypeError => TypeError
      | Returns (nodes, drawn) =>
          let nodeIds : gset jsval := list_to_set (map fixed_id nodes) in
          match or_empty (raw_edges data) with
          | TypeError => TypeError
          | Returns rawEdges =>
              match filter_elements
                      (λ edge, bool_decide (raw_fromNode edge ∈ nodeIds)
                               && bool_decide (raw_toNode edge ∈ nodeIds))
                      rawEdges with
              | TypeError => TypeError
              | Returns kept =>
                  match map_elements fix_edge kept drawn with
                  | TypeError => TypeError
                  | Returns (edges, _) => Returns (mkFixedCanvas nodes edges)
                  end
              end
          end
      end
  end.

End Validator.

(** ** Pre-built layout generators *)

Section Generators.
Context {I : Type} (generateId : nat → I) (toLowerCase : jsstring → jsstring).

Definition columnWidth : Z := 250.
Definition nodeHeight : Z := 80.
Definition padding : Z := 20.
Definition headerHeight : Z := 50.

(** [mapStatusToColumn]: [statusMap[status.toLowerCase()] || 'To Do']. *)
Definition mapStatusToColumn (status : jsstring) : Member :=
  let statusMap : gmap jsstring jsstring :=
    list_to_map [(js "pending", js "To Do"); (js "todo", js "To Do");
                 (js "in-progress", js "In Progress");
                 (js "inprogress", js "In Progress");
                 (js "review", js "Review");
                 (js "completed", js "Done"); (js "done", js "Done")] in
  member_or statusMap (toLowerCase status) (js "To Do").

(** [getPriorityColor]: [colors[priority?.toLowerCase() || 'medium'] || '3']. *)
Definition getPriorityColor (priority : option jsstring) : Member :=
  let colors : gmap jsstring jsstring :=
    list_to_map [(js "high", js "1"); (js "medium", js "3"); (js "low", js "4")] in
  let key :=
    match priority with
    | Some p => if bool_decide (toLowerCase p = []) then js "medium" else toLowerCase p
    | None => js "medium"
    end in
  member_or colors key (js "3").

(** Body of [columns.forEach((col, i) => ...)].  The filter compares with
    [===]: a column that is not a string equals no column name. *)
Definition push_column (tasks : list Task)
    (b : BuilderOf I jsnumber Member) (col : jsstring) (i : nat)
  : BuilderOf I jsnumber Member :=
  let '(colId, b) := fresh generateId b in
  let inColumn :=
    length (filter (λ t, mapStatusToColumn (status t) = Str col) tasks) in
  push_node (mkNode colId Group
               (Finite (Z.of_nat i * (columnWidth + padding))) (Finite 0)
               (Finite columnWidth)
               (Finite (headerHeight + (Z.of_nat inColumn + 1) * (nodeHeight + padding)))
               None (Some col) (Some (Str (getColumnColor col)))) b.

(** State of [tasks.forEach(task => ...)].  [columnCounts] holds the
    counters that are numbers; a counter that is missing or [NaN] is left
    out, since both read back as [NaN]. *)
Record TaskLoop := mkTaskLoop {
  columnCounts : gmap jsstring nat;
  board : BuilderOf I jsnumber Member
}.

(** [columns.indexOf(column)]: a member that is not a string is at no index. *)
Definition column_indexOf (column : Member) : Z :=
  match column with
  | Str c => indexOf columns c
  | Inherited _ => -1
  end.

(** [columnCounts[column]++]: the value read, and the counters after it.  A
    member that is not a string names, as a property key, a text that is
    none of the four counters. *)
Definition post_increment (counts : gmap jsstring nat) (column : Member)
  : jsnumber * gmap jsstring nat :=
  match column with
  | Str c =>
      match counts !! c with
      | Some n => (Finite (Z.of_nat n), <[c := S n]> counts)
      | None => (NaN, counts)
      end
  | Inherited _ => (NaN, counts)
  end.

Definition push_task (st : TaskLoop) (task : Task) (_ : nat) : TaskLoop :=
  let column := mapStatusToColumn (status task) in
  let colIndex := column_indexOf column in
  let '(rowIndex, counts) := post_increment (columnCounts st) column in
  let '(taskId, b) := fresh generateId (board st) in
  let shown :=
    match priority task with
    | Some p => if bool_decide (p = []) then js "Medium" else p
    | None => js "Medium"
    end in
  mkTaskLoop counts
    (push_node (mkNode taskId Text
                  (Finite (colIndex * (columnWidth + padding) + padding))
                  (number_add (Finite (headerHeight + padding))
                     (number_mul rowIndex (Finite (nodeHeight + padding))))
                  (Finite (columnWidth - 2 * padding)) (Finite nodeHeight)
                  (Some (js "**" ++ title task ++ js "**" ++ [Char.lf; Char.lf]
                         ++ js "Priority: " ++ shown))
                  None (Some (getPriorityColor (priority task)))) b).

Definition createTaskboardCanvas (tasks : list Task)
  : CanvasDataOf I jsnumber Member :=
  let b := forEach (push_column tasks) columns empty_builder in
  let columnCounts : gmap jsstring nat :=
    list_to_map [(js "To Do", 0%nat); (js "In Progress", 0%nat);
                 (js "Review", 0%nat); (js "Done", 0%nat)] in
  finish (board (forEach push_task tasks (mkTaskLoop columnCounts b))).

Definition cellWidth : Z := 250.
Definition cellHeight : Z := 200.

(** [s.charAt(0).toUpperCase() + s.slice(1)] *)
Definition capitalize (s : jsstring) : jsstring :=
  ascii_toUpperCase (charAt0 s) ++ drop 1 s.

(** State of the loops of [createRiskMatrixCanvas]. *)
Record RiskLoop := mkRiskLoop {
  cellCounts : gmap jsstring nat;
  matrix : Builder I Z
}.

Definition push_cell (impact : Level) (i : nat)
    (st : RiskLoop) (likelihood : Level) (j : nat) : RiskLoop :=
  let key := level_name impact ++ js "-" ++ level_name likelihood in
  let counts := <[key := 0%nat]> (cellCounts st) in
  let '(cellId, b) := fresh generateId (matrix st) in
  mkRiskLoop counts
    (push_node (mkNode cellId Group
                  (Z.of_nat j * (cellWidth + padding))
                  ((2 - Z.of_nat i) * (cellHeight + padding))
                  cellWidth cellHeight
                  None
                  (Some (capitalize (level_name impact) ++ js " Impact / "
                         ++ capitalize (level_name likelihood) ++ js " Likelihood"))
                  (Some (getRiskColor impact likelihood))) b).

Definition push_row (st : RiskLoop) (impact : Level) (i : nat) : RiskLoop :=
  forEach (push_cell impact i) levels st.

Definition push_risk (st : RiskLoop) (risk : Risk) (_ : nat) : RiskLoop :=
  let key := level_name (impact risk) ++ js "-" ++ level_name (likelihood risk) in
  let impactIndex := level_index (impact risk) in
  let likelihoodIndex := level_index (likelihood risk) in
  let count := default 0%nat (cellCounts st !! key) in
  let counts := <[key := S count]> (cellCounts st) in
  let '(riskId, b) := fresh generateId (matrix st) in
  mkRiskLoop counts
    (push_node (mkNode riskId Text
                  (likelihoodIndex * (cellWidth + padding) + padding
                   + (Z.of_nat count mod 2) * 100)
                  ((2 - impactIndex) * (cellHeight + padding) + padding
                   + (Z.of_nat count / 2) * 60)
                  100 50
                  (Some (risk_title risk)) None
                  (Some (getRiskColor (impact risk) (likelihood risk)))) b).

Definition createRiskMatrixCanvas (risks : list Risk) : CanvasData I Z :=
  let st := forEach push_row levels (mkRiskLoop ∅ empty_builder) in
  finish (matrix (forEach push_risk risks st)).

(** ** The mind map *)

Local Open Scope R_scope.

Definition centerX : R := 500.
Definition centerY : R := 400.
Definition branchRadius : R := 300.
Definition subBranchRadius : R := 150.

(** Body of [branch.subtopics.forEach((subtopic, j) => ...)]. *)
Definition push_subtopic (branchId : I) (branchX branchY : R)
    (subStartAngle subAngleStep : R)
    (b : Builder I R) (subtopic : jsstring) (j : nat) : Builder I R :=
  let subAngle := subStartAngle + subAngleStep * INR j in
  let subX := branchX + cos subAngle * subBranchRadius in
  let subY := branchY + sin subAngle * subBranchRadius in
  let '(subId, b) := fresh generateId b in
  let b := push_node (mkNode subId Text (subX - 50) (subY - 20) 100 40
                        (Some subtopic) None None) b in
  let '(edgeId, b) := fresh generateId b in
  push_edge (mkEdge edgeId branchId subId
               (Some (getClosestSide branchX branchY subX subY))
               (Some (getClosestSide subX subY branchX branchY))) b.

(** Body of [branches.forEach((branch, i) => ...)]. *)
Definition push_branch (centralId : I) (angleStep : R)
    (b : Builder I R) (branch : Branch) (i : nat) : Builder I R :=
  let angle := angleStep * INR i - PI / 2 in
  let branchX := centerX + cos angle * branchRadius in
  let branchY := centerY + sin angle * branchRadius in
  let '(branchId, b) := fresh generateId b in
  let b := push_node (mkNode branchId Text (branchX - 60) (branchY - 30) 120 60
                        (Some (js "## " ++ topic branch)) None
                        (Some (digit_string (i mod 6 + 1)))) b in
  let '(edgeId, b) := fresh generateId b in
  let b := push_edge (mkEdge edgeId centralId branchId
                        (Some (getClosestSide centerX centerY branchX branchY))
                        (Some (getClosestSide branchX branchY centerX centerY))) b in
  let subAngleStep :=
    (PI / 3) / INR (Nat.max (length (subtopics branch) - 1) 1) in
  let subStartAngle := angle - PI / 6 in
  forEach (push_subtopic branchId branchX branchY subStartAngle subAngleStep)
    (subtopics branch) b.

Definition createMindMapCanvas (central : jsstring) (branches : list Branch)
  : CanvasData I R :=
  let '(centralId, b) := fresh generateId empty_builder in
  let b := push_node (mkNode centralId Text (centerX - 75) (centerY - 40) 150 80
                        (Some (js "# " ++ central)) None (Some (js "5"))) b in
  let angleStep := 2 * PI / INR (length branches) in
  finish (forEach (push_branch centralId angleStep) branches b).

Local Close Scope R_scope.

End Generators.
End Plugin.

(* ===================================================================== *)
(** * The vault service: [resolvePath]                                    *)
(* ===================================================================== *)

Module Vault.

Definition slash : N := 47.

(** [s.split('/')] *)
Fixpoint split_slash (s : jsstring) : list jsstring :=
  match s with
  | [] => [[]]
  | c :: r =>
      if (c =? slash)%N then [] :: split_slash r
      else match split_slash r with
           | l :: ls => (c :: l) :: ls
           | [] => [[c]]
           end
  end.

(** The segments of an absolute path after normalisation, innermost first:
    empty segments and [.] are skipped, [..] removes the last segment and
    stays at the root. *)
Definition normalize_step (stack : list jsstring) (segment : jsstring)
  : list jsstring :=
  if bool_decide (segment = []) || bool_decide (segment = js ".") then stack
  else if bool_decide (segment = js "..") then tail stack
  else segment :: stack.

Definition join_slash (segments : list jsstring) : jsstring :=
  concat (map (λ seg, slash :: seg) segments).

(** [path.resolve(...paths)] of Node on POSIX, for a working directory
    [cwd] that is absolute: the arguments are taken from the right until an
    absolute one is met, empty ones are skipped, and the result is
    normalised. *)
Fixpoint resolve_prefix (cwd : jsstring) (rev_paths : list jsstring) : jsstring :=
  match rev_paths with
  | [] => cwd ++ [slash]
  | p :: r =>
      if bool_decide (p = []) then resolve_prefix cwd r
      else if startsWith p [slash] then p ++ [slash]
      else resolve_prefix cwd r ++ p ++ [slash]
  end.

Definition resolve (cwd : jsstring) (paths : list jsstring) : jsstring :=
  let segments :=
    reverse (fold_left normalize_step
               (split_slash (resolve_prefix cwd (reverse paths))) []) in
  match segments with
  | [] => [slash]
  | _ => join_slash segments
  end.

Inductive Resolved :=
| Path (resolved : jsstring)
| PathTraversalError.   (* Error('Path traversal not allowed') *)

Section Service.
Context (cwd : jsstring) (vaultPath : jsstring).

Definition resolvePath (relativePath : jsstring) : Resolved :=
  let resolved := resolve cwd [vaultPath; relativePath] in
  if negb (startsWith resolved vaultPath) then PathTraversalError
  else Path resolved.

(** [p] names the directory [dir] or something below it. *)
Definition inside_directory (dir p : jsstring) : bool :=
  bool_decide (p = dir) || startsWith p (dir ++ [slash]).

(** [s.endsWith(suffix)] *)
Definition endsWith (s suffix : jsstring) : bool :=
  startsWith (reverse s) (reverse suffix).

(** The operations that resolve a path, up to their first call into [fs]:
    each resolves its argument first, and the error of [resolvePath]
    rejects the promise before anything else happens. *)
Inductive FsCall :=
| fs_readFile (path : jsstring)
| fs_access (path : jsstring)
| fs_writeFile (path : jsstring)
| fs_unlink (path : jsstring)
| fs_mkdir (path : jsstring)
| fs_mkdir_dirname (path : jsstring).   (* fs.mkdir(path.dirname(path), ...) *)

Inductive Started :=
| Rejects                  (* with the path traversal error, no call made *)
| Calls (first : FsCall).

Definition with_resolved (relativePath : jsstring) (first : jsstring → FsCall)
  : Started :=
  match resolvePath relativePath with
  | Path fullPath => Calls (first fullPath)
  | PathTraversalError => Rejects
  end.

Definition readNote (notePath : jsstring) : Started :=
  with_resolved notePath fs_readFile.

Definition createNote (notePath : jsstring) : Started :=
  with_resolved notePath
    (λ fullPath,
       fs_access (if endsWith fullPath (js ".md") then fullPath
                  else fullPath ++ js ".md")).

Definition updateNote (notePath : jsstring) (append : bool) : Started :=
  with_resolved notePath
    (λ fullPath, if append then fs_readFile fullPath else fs_writeFile fullPath).

Definition deleteNote (notePath : jsstring) : Started :=
  with_resolved notePath fs_unlink.

Definition createFolder (folderPath : jsstring) : Started :=
  with_resolved folderPath fs_mkdir.

Definition readCanvas (canvasPath : jsstring) : Started :=
  with_resolved canvasPath fs_readFile.

Definition writeCanvas (canvasPath : jsstring) : Started :=
  with_resolved canvasPath
    (λ fullPath,
       fs_mkdir_dirname (if endsWith fullPath (js ".canvas") then fullPath
                         else fullPath ++ js ".canvas")).

End Service.
End Vault.

Local Close Scope Z_scope.

(* ===================================================================== *)
(** * The reply of the model and the file of a canvas                     *)
(* ===================================================================== *)

(** The text that [parseCanvasData] of the plugin hands to [JSON.parse]:
    the reply without the fence of a Markdown code block. *)
Definition strip_code_fence (jsonString : jsstring) : jsstring :=
  let cleaned := trim jsonString in
  let cleaned :=
    if startsWith cleaned (js "```json") then drop 7 cleaned
    else if startsWith cleaned (js "```") then drop 3 cleaned
    else cleaned in
  let cleaned :=
    if Vault.endsWith cleaned (js "```") then take (length cleaned - 3) cleaned
    else cleaned in
  trim cleaned.

(** [segments.join('/')] *)
Definition join_segments (segments : list jsstring) : jsstring :=
  drop 1 (Vault.join_slash segments).

(** [normalizeString(path, true, ...)] of Node, one segment at a time on the
    segments kept so far, innermost first: a [..] that cannot remove a
    segment is kept. *)
Definition normalize_relative_step (stack : list jsstring) (segment : jsstring)
  : list jsstring :=
  if bool_decide (segment = []) || bool_decide (segment = js ".") then stack
  else if bool_decide (segment = js "..") then
    match stack with
    | top :: rest => if bool_decide (top = js "..") then segment :: stack else rest
    | [] => [segment]
    end
  else segment :: stack.

(** [path.normalize(p)] of Node on POSIX. *)
Definition posix_normalize (p : jsstring) : jsstring :=
  if bool_decide (p = []) then js "."
  else
    let isAbsolute := startsWith p [Vault.slash] in
    let trailingSeparator := bool_decide (last p = Some Vault.slash) in
    let segments :=
      reverse (fold_left (if isAbsolute then Vault.normalize_step
                          else normalize_relative_step)
                 (Vault.split_slash p) []) in
    let body := join_segments segments in
    if bool_decide (body = []) then
      (if isAbsolute then [Vault.slash]
       else if trailingSeparator then js "./" else js ".")
    else
      let body := if trailingSeparator then body ++ [Vault.slash] else body in
      if isAbsolute then Vault.slash :: body else body.

(** [path.join(...args)] of Node on POSIX. *)
Definition posix_join (args : list jsstring) : jsstring :=
  match filter (λ a, a ≠ []) args with
  | [] => js "."
  | parts => posix_normalize (join_segments parts)
  end.

(** [CanvasGenerator.createCanvas] of the server, up to its first call into
    [fs]: the layout chosen fills the file, the path comes from the folder
    and the name only. *)
Definition createCanvas (cwd vaultPath : jsstring) (name folder : jsstring)
  : Vault.Started :=
  let canvasPath := posix_join [folder; sanitizeFilename name ++ js ".canvas"] in
  Vault.writeCanvas cwd vaultPath canvasPath.

(** The path that [saveCanvas] of the plugin gives to the vault. *)
Definition saveCanvas_path (canvasOutputFolder name : jsstring) : jsstring :=
  canvasOutputFolder ++ js "/" ++ sanitizeFilename name ++ js ".canvas".

(* ===================================================================== *)
(** * Scenario inputs and observations                                    *)
(* ===================================================================== *)

(** The three-line taskboard description. *)
Definition taskboard_description : jsstring :=
  js "- Fix login bug (high)" ++ [Char.lf] ++ js "- Write docs" ++ [Char.lf]
  ++ js "- done: deploy to prod".

(** The two-line risk description. *)
Definition risk_description : jsstring :=
  js "Server outage - high impact, likely" ++ [Char.lf]
  ++ js "Minor UI glitch - low impact".

(** The rectangle of [n] lies in the rectangle of [g]. *)
Definition within {I Col : Type} (n g : CanvasNodeOf I Z Col) : bool :=
  ((node_x g <=? node_x n) && (node_x n + node_width n <=? node_x g + node_width g)
   && (node_y g <=? node_y n)
   && (node_y n + node_height n <=? node_y g + node_height g))%Z.

Definition is_group {I Num Col : Type} (n : CanvasNodeOf I Num Col) : bool :=
  match node_type n with Group => true | _ => false end.

Definition is_text {I Num Col : Type} (n : CanvasNodeOf I Num Col) : bool :=
  match node_type n with Text => true | _ => false end.

(** The four column groups of the server's taskboard. *)
Definition column_groups {I : Type} (gen : nat → I) : list (CanvasNode I Z) :=
  [ mkNode (gen 0%nat) Group 0 0 250 600 None (Some (js "To Do")) (Some (js "2"));
    mkNode (gen 1%nat) Group 270 0 250 600 None (Some (js "In Progress")) (Some (js "3"));
    mkNode (gen 2%nat) Group 540 0 250 600 None (Some (js "Review")) (Some (js "5"));
    mkNode (gen 3%nat) Group 810 0 250 600 None (Some (js "Done")) (Some (js "4")) ]%Z.

(** A group cell of the server's risk matrix. *)
Definition risk_cell {I : Type} (gen : nat → I) (k : nat) (x y : Z)
    (label color : string) : CanvasNode I Z :=
  mkNode (gen k) Group x y 250%Z 200%Z None (Some (js label)) (Some (js color)).

(** The text of a task node of the server's taskboard. *)
Definition task_text (taskText priority : string) : jsstring :=
  js "**" ++ js taskText ++ js "**" ++ [Char.lf; Char.lf] ++ js "Priority: "
  ++ js priority.

(** The parsed document has the shape of a [CanvasData]: [nodes] and
    [edges] are absent (falsy) or arrays without [null] entries.  Nothing
    is asked of the members of the entries. *)
Definition no_null {A : Type} (l : list (Element A)) : Prop :=
  Forall (λ e, e ≠ null_element) l.

Definition array_or_absent {A : Type} (m : ArrayMember A) : Prop :=
  match m with
  | falsy_member => True
  | array_member l => no_null l
  | other_member => False
  end.

Definition canvas_shaped (data : RawCanvas) : Prop :=
  array_or_absent (raw_nodes data) ∧ array_or_absent (raw_edges data).

(** The entries of a list of elements, and of a member. *)
Definition entries {A : Type} (l : list (Element A)) : list A :=
  omap (λ e, match e with element a => Some a | null_element => None end) l.

Definition member_entries {A : Type} (m : ArrayMember A) : list A :=
  match m with
  | array_member l => entries l
  | _ => []
  end.

(** The two ends of an edge, before and after validation. *)
Definition raw_ends (e : RawEdge) : jsval * jsval := (raw_fromNode e, raw_toNode e).
Definition fixed_ends (e : FixedEdge) : jsval * jsval :=
  (fixed_fromNode e, fixed_toNode e).

(** ** Identifiers of a graph *)

(** The ids of the nodes followed by the ids of the edges. *)
Definition builder_ids {I Num Col : Type} (b : BuilderOf I Num Col) : list I :=
  map node_id (b_nodes b) ++ map edge_id (b_edges b).

(** Every identifier drawn so far names exactly one node or edge. *)
Definition tight {I Num Col : Type} (gen : nat → I) (b : BuilderOf I Num Col)
  : Prop :=
  builder_ids b ≡ₚ map gen (seq 0 (drawn b)).

(** As [tight], but the identifier [i] drawn last is not yet in use. *)
Definition pending {I Num Col : Type} (gen : nat → I) (b : BuilderOf I Num Col)
    (i : I) : Prop :=
  i :: builder_ids b ≡ₚ map gen (seq 0 (drawn b)).

(** No two nodes share an id and no two edges share an id. *)
Definition unique_ids {I Num Col : Type} (g : CanvasDataOf I Num Col) : Prop :=
  NoDup (map node_id (nodes g)) ∧ NoDup (map edge_id (edges g)).

(** The first [calls] calls of the id generator returned pairwise distinct
    identifiers. *)
Definition draws_distinct {I : Type} (gen : nat → I) (calls : nat) : Prop :=
  NoDup (map gen (seq 0 calls)).

(** The calls of the id generator behind a graph of a layout generator: one
    for each node and one for each edge. *)
Definition calls_of {I Num Col : Type} (g : CanvasDataOf I Num Col) : nat :=
  length (nodes g) + length (edges g).

(** The ids of the nodes and of the edges of a graph are, up to their
    order, the identifiers that the calls of the id generator returned; so
    no two nodes and no two edges share an id when these are distinct. *)
Definition ids_follow_draws {I Num Col : Type} (gen : nat → I)
    (g : CanvasDataOf I Num Col) : Prop :=
  map node_id (nodes g) ++ map edge_id (edges g) ≡ₚ map gen (seq 0 (calls_of g))
  ∧ (draws_distinct gen (calls_of g) → unique_ids g).

(** ** Graphs up to the choice of identifiers *)

Definition rename_node {I J Num Col : Type} (f : I → J)
    (n : CanvasNodeOf I Num Col) : CanvasNodeOf J Num Col :=
  mkNode (f (node_id n)) (node_type n) (node_x n) (node_y n) (node_width n)
    (node_height n) (node_text n) (node_label n) (node_color n).

Definition rename_edge {I J : Type} (f : I → J) (e : CanvasEdge I) : CanvasEdge J :=
  mkEdge (f (edge_id e)) (f (edge_fromNode e)) (f (edge_toNode e))
    (edge_fromSide e) (edge_toSide e).

Definition rename {I J Num Col : Type} (f : I → J) (g : CanvasDataOf I Num Col)
  : CanvasDataOf J Num Col :=
  mkCanvas (map (rename_node f) (nodes g)) (map (rename_edge f) (edges g)).

Definition rename_builder {I J Num Col : Type} (f : I → J)
    (b : BuilderOf I Num Col) : BuilderOf J Num Col :=
  mkBuilder (drawn b) (map (rename_node f) (b_nodes b))
    (map (rename_edge f) (b_edges b)).

Definition erase_ids {I Num Col : Type} (g : CanvasDataOf I Num Col)
  : CanvasDataOf unit Num Col :=
  rename (λ _, ()) g.

(** The builder [b'] of a run that draws from [gen] is the builder [b] of the
    run that numbers its identifiers by the order of the calls, renamed. *)
Definition renamed {I Num Col : Type} (gen : nat → I)
    (b : BuilderOf nat Num Col) (b' : BuilderOf I Num Col) : Prop :=
  b' = rename_builder gen b.

(** [out1] and [out2] are the graph [skeleton], whose identifiers are call
    numbers, under the renamings [g1] and [g2]; without their identifiers
    they are the same graph. *)
Definition same_up_to_ids {I Num Col : Type} (g1 g2 : nat → I)
    (skeleton : CanvasDataOf nat Num Col) (out1 out2 : CanvasDataOf I Num Col)
  : Prop :=
  out1 = rename g1 skeleton
  ∧ out2 = rename g2 skeleton
  ∧ erase_ids out1 = erase_ids out2.

(** ** Sides of the edges of a mind map *)

Definition opposite (s : Side) : Side :=
  match s with Top => Bottom | Bottom => Top | Left => Right | Right => Left end.

Definition anchor {I : Type} (n : CanvasNode I R) : R * R :=
  ((node_x n + node_width n / 2)%R, (node_y n + node_height n / 2)%R).

Definition closest_side_routed {I : Type} (ns : list (CanvasNode I R))
    (e : CanvasEdge I) : Prop :=
  ∃ nf nt,
    nf ∈ ns ∧ nt ∈ ns
    ∧ node_id nf = edge_fromNode e ∧ node_id nt = edge_toNode e
    ∧ edge_fromSide e
      = Some (getClosestSide (anchor nf).1 (anchor nf).2 (anchor nt).1 (anchor nt).2)
    ∧ edge_toSide e
      = Some (getClosestSide (anchor nt).1 (anchor nt).2 (anchor nf).1 (anchor nf).2)
    ∧ (anchor nf ≠ anchor nt → edge_toSide e = opposite <$> edge_fromSide e).

Definition routed {I : Type} (b : Builder I R) : Prop :=
  Forall (closest_side_routed (b_nodes b)) (b_edges b).

Definition has_anchor {I : Type} (b : Builder I R) (i : I) (p : R * R) : Prop :=
  ∃ n, n ∈ b_nodes b ∧ node_id n = i ∧ anchor n = p.

(** ** Further inputs *)

(** The ids that the input supplies: the truthy ones. *)
Definition supplied (vs : list jsval) : list jsval :=
  filter (λ v, truthy v = true) vs.

Definition duplicate_id_document : RawCanvas :=
  let node := mkRawNode (VStr (js "a")) VUndefined VUndefined VUndefined VUndefined
                VUndefined VUndefined VUndefined VUndefined VUndefined in
  mkRawCanvas (array_member [element node; element node]) falsy_member.

(** A node that comes with an id and a node that comes without one. *)
Definition partly_named_document : RawCanvas :=
  let node id := mkRawNode id VUndefined VUndefined VUndefined VUndefined
                   VUndefined VUndefined VUndefined VUndefined VUndefined in
  mkRawCanvas (array_member [element (node (VStr (js "a"))); element (node VUndefined)])
    falsy_member.

(** Ten distinct version 4 UUIDs that differ in their last digit only. *)
Definition uuids_alike (call : nat) : jsstring :=
  js "123e4567-e89b-42d3-a456-42661417400" ++ [digit36 (N.of_nat (call mod 10))].

(** Ten version 4 UUIDs that differ in their eighth digit. *)
Definition uuids_apart (call : nat) : jsstring :=
  js "123e456" ++ [digit36 (N.of_nat (call mod 10))]
  ++ js "-e89b-42d3-a456-426614174000".

(** [Math.random()] returning 0.5, which prints as 0.i in base 36. *)
Definition random_half (call : nat) : jsstring := js "0.i".

(** Calls within one millisecond, and one millisecond apart. *)
Definition same_millisecond (call : nat) : N := 1700000000000%N.
Definition next_millisecond (call : nat) : N := (1700000000000 + N.of_nat call)%N.

Definition six_subtopics : Branch :=
  mkBranch (js "topic") [js "one"; js "two"; js "three"; js "four"; js "five"; js "six"].

(** ** The validator on its own result *)

(** An optional member as it reads: absent members read [undefined]. *)
Definition read_member (m : option jsval) : jsval := default VUndefined m.

(** The objects built by the validator, as the validator reads them. *)
Definition node_as_raw (n : FixedNode) : RawNode :=
  mkRawNode (fixed_id n) (fixed_type n) (VNum (fixed_x n)) (VNum (fixed_y n))
    (VNum (fixed_width n)) (VNum (fixed_height n))
    (read_member (fixed_text n)) (read_member (fixed_file n))
    (read_member (fixed_label n)) (read_member (fixed_color n)).

Definition edge_as_raw (e : FixedEdge) : RawEdge :=
  mkRawEdge (fixed_edge_id e) (fixed_fromNode e) (fixed_toNode e)
    (read_member (fixed_fromSide e)) (read_member (fixed_toSide e))
    (read_member (fixed_edge_label e)) (read_member (fixed_edge_color e)).

Definition canvas_as_raw (c : FixedCanvas) : RawCanvas :=
  mkRawCanvas (array_member (map (λ n, element (node_as_raw n)) (fixed_nodes c)))
    (array_member (map (λ e, element (edge_as_raw e)) (fixed_edges c))).

(** An optional member, when present, is truthy. *)
Definition present_truthy (m : option jsval) : Prop :=
  ∀ v, m = Some v → truthy v = true.

(** What the validator establishes of a node and of an edge: the id and
    the type are truthy, the optional members are truthy when present, and
    the ends of an edge are among the given ids. *)
Definition node_complete (n : FixedNode) : Prop :=
  truthy (fixed_id n) = true ∧ truthy (fixed_type n) = true
  ∧ present_truthy (fixed_text n) ∧ present_truthy (fixed_file n)
  ∧ present_truthy (fixed_label n) ∧ present_truthy (fixed_color n).

Definition edge_complete (ids : list jsval) (e : FixedEdge) : Prop :=
  truthy (fixed_edge_id e) = true
  ∧ fixed_fromNode e ∈ ids ∧ fixed_toNode e ∈ ids
  ∧ present_truthy (fixed_fromSide e) ∧ present_truthy (fixed_toSide e)
  ∧ present_truthy (fixed_edge_label e) ∧ present_truthy (fixed_edge_color e).

Definition canvas_complete (c : FixedCanvas) : Prop :=
  Forall node_complete (fixed_nodes c)
  ∧ Forall (edge_complete (map fixed_id (fixed_nodes c))) (fixed_edges c).

(** ** Text around a code fence *)

(** A string of white space only. *)
Definition blank (s : jsstring) : Prop := Forall (λ c, is_space c = true) s.

(** ** Path segments *)

(** A path segment that normalisation keeps as it is. *)
Definition plain_segment (seg : jsstring) : Prop :=
  seg ≠ [] ∧ seg ≠ js "." ∧ seg ≠ js ".." ∧ Vault.slash ∉ seg.

(** ** Shape of a mind map *)

(** Both sides of the edge are set, and they are opposite. *)
Definition opposite_sides {I : Type} (e : CanvasEdge I) : Prop :=
  ∃ s, edge_fromSide e = Some s ∧ edge_toSide e = Some (opposite s).

Definition all_opposite {I : Type} (b : Builder I R) : Prop :=
  Forall opposite_sides (b_edges b).

(** The graph is a tree rooted at its first node, listed parents first: edge
    [k] ends at node [k + 1] and starts at a node listed no later than [k]. *)
Definition rooted_tree {I Num : Type} (ns : list (CanvasNode I Num))
    (es : list (CanvasEdge I)) : Prop :=
  length es + 1 = length ns
  ∧ ∀ k e, es !! k = Some e →
      node_id <$> ns !! S k = Some (edge_toNode e)
      ∧ ∃ j, j ≤ k ∧ node_id <$> ns !! j = Some (edge_fromNode e).

Definition listed {I Num : Type} (ns : list (CanvasNode I Num)) (i : I) : Prop :=
  ∃ j, j < length ns ∧ node_id <$> ns !! j = Some i.

Definition tree_with {I : Type} (b : Builder I R) (i : I) : Prop :=
  rooted_tree (b_nodes b) (b_edges b) ∧ listed (b_nodes b) i.

(** The first branch of [g]: its node lies straight above the centre and
    its edge leaves the central node at the top and enters at the bottom. *)
Definition first_branch_up {I : Type} (g : CanvasData I R) : Prop :=
  ∃ central first rest e es,
    nodes g = central :: first :: rest
    ∧ edges g = e :: es
    ∧ (node_x first + node_width first / 2 = 500)%R
    ∧ (node_y first + node_height first / 2 = 100)%R
    ∧ edge_fromNode e = node_id central
    ∧ edge_toNode e = node_id first
    ∧ edge_fromSide e = Some Top
    ∧ edge_toSide e = Some Bottom.

(** ** Outlines *)

(** [lines.join('\n')] *)
Definition join_lines (lines : list jsstring) : jsstring :=
  drop 1 (concat (map (λ l, Char.lf :: l) lines)).

(** An outline written with one topic per line and its subtopics below it,
    indented by two spaces. *)
Definition branch_lines (b : Branch) : list jsstring :=
  topic b :: map (λ s, js "  " ++ s) (subtopics b).

Definition outline_lines (theme : jsstring) (branches : list Branch)
  : list jsstring :=
  theme :: concat (map branch_lines branches).

(** A heading of an outline: trimmed, longer than two code units, on one
    line, and not starting with a bullet or a hash. *)
Definition heading (t : jsstring) : Prop :=
  trim t = t ∧ 2 < length t ∧ (Char.lf ∉ t)
  ∧ (∀ c r, t = c :: r → is_bullet c = false ∧ c ≠ Char.hash).

Definition branch_headings (b : Branch) : Prop :=
  heading (topic b) ∧ Forall heading (subtopics b).

(** Sealing the open branch: [if (currentBranch) branches.push(currentBranch)]. *)
Definition sealed (branches : list Branch) (current : option Branch) : list Branch :=
  match current with
  | Some cur => branches ++ [cur]
  | None => branches
  end.

(** ** Cards on the grids *)

(** Order of the levels: low, medium, high. *)
Definition level_le (a b : Level) : Prop := (level_index a ≤ level_index b)%Z.

#[global] Instance Level_eq_dec : EqDecision Level.
Proof. solve_decision. Defined.

(** The number of risks of impact [i] and likelihood [l]. *)
Definition cell_count (i l : Level) (risks : list Risk) : nat :=
  length (filter (λ r, impact r = i ∧ likelihood r = l) risks).

(** The rank of the [k]-th risk in its cell: the number of earlier risks of
    the same impact and likelihood. *)
Definition cell_rank (risks : list Risk) (k : nat) (r : Risk) : nat :=
  cell_count (impact r) (likelihood r) (take k risks).

(** The place of a cell in the order the grid is pushed. *)
Definition cell_index (i l : Level) : nat :=
  Z.to_nat (3 * level_index i + level_index l).

(** The key of a cell in the counters of both risk matrices. *)
Definition risk_key (i l : Level) : jsstring :=
  level_name i ++ js "-" ++ level_name l.

(** The rectangles of two nodes share no inner point. *)
Definition apart {I Col : Type} (n m : CanvasNodeOf I Z Col) : Prop :=
  (node_x n + node_width n ≤ node_x m ∨ node_x m + node_width m ≤ node_x n
   ∨ node_y n + node_height n ≤ node_y m ∨ node_y m + node_height m ≤ node_y n)%Z.

(** The column of a task, the number of tasks of the column named [col],
    and the rank in that column of a task at index [k]: the number of
    earlier tasks there. *)
Definition task_column (toLowerCase : jsstring → jsstring) (t : Task) : Member :=
  Plugin.mapStatusToColumn toLowerCase (status t).

Definition column_count (toLowerCase : jsstring → jsstring) (col : jsstring)
    (tasks : list Task) : nat :=
  length (filter (λ t, task_column toLowerCase t = Str col) tasks).

Definition column_rank (toLowerCase : jsstring → jsstring) (tasks : list Task)
    (k : nat) (col : jsstring) : nat :=
  column_count toLowerCase col (take k tasks).

(** The node with its four numbers as integers, when none of them is
    [NaN]. *)
Definition finite_node {I Col : Type} (n : CanvasNodeOf I jsnumber Col)
  : option (CanvasNodeOf I Z Col) :=
  match node_x n, node_y n, node_width n, node_height n with
  | Finite x, Finite y, Finite w, Finite h =>
      Some (mkNode (node_id n) (node_type n) x y w h
              (node_text n) (node_label n) (node_color n))
  | _, _, _, _ => None
  end.

Local Open Scope Z_scope.

(** The grid of the plugin's risk matrix, before the risks. *)
Definition plugin_grid {I : Type} (gen : nat → I) : Plugin.RiskLoop (I := I) :=
  forEach (Plugin.push_row gen) levels (Plugin.mkRiskLoop ∅ empty_builder).

(** What the loop over the risks of the plugin has done after the risks
    [done]: the counters hold the numbers of risks per cell, the grid is in
    place, and the card of each risk stands at its rank in its cell. *)
Definition risks_placed {I : Type} (gen : nat → I) (done : list Risk)
    (st : Plugin.RiskLoop (I := I)) : Prop :=
  (∀ i l, Plugin.cellCounts st !! risk_key i l = Some (cell_count i l done))
  ∧ length (b_nodes (Plugin.matrix st)) = (9 + length done)%nat
  ∧ (∀ c, (c < 9)%nat →
       b_nodes (Plugin.matrix st) !! c = b_nodes (Plugin.matrix (plugin_grid gen)) !! c)
  ∧ ∀ k r, done !! k = Some r →
      ∃ card, b_nodes (Plugin.matrix st) !! (9 + k)%nat = Some card
        ∧ node_x card = level_index (likelihood r) * 270 + 20
                        + (Z.of_nat (cell_rank done k r) mod 2) * 100
        ∧ node_y card = (2 - level_index (impact r)) * 220 + 20
                        + (Z.of_nat (cell_rank done k r) / 2) * 60
        ∧ node_width card = 100 ∧ node_height card = 50
        ∧ is_text card = true
        ∧ node_color card = Some (getRiskColor (impact r) (likelihood r)).

(** The column groups of the plugin's board, before the tasks. *)
Definition plugin_headers {I : Type} (gen : nat → I)
    (toLowerCase : jsstring → jsstring) (tasks : list Task)
  : BuilderOf I jsnumber Member :=
  forEach (Plugin.push_column gen toLowerCase tasks) columns empty_builder.

(** The counters of the plugin's board, before the tasks. *)
Definition zero_counts : gmap jsstring nat :=
  list_to_map [(js "To Do", 0%nat); (js "In Progress", 0%nat);
               (js "Review", 0%nat); (js "Done", 0%nat)].

(** Where the card of a task stands: in the column that its status names,
    at its rank there; or, when its status reads an inherited member, left
    of the board with [NaN] as its [y]. *)
Definition card_placed {I : Type} (toLowerCase : jsstring → jsstring)
    (done : list Task) (k : nat) (t : Task)
    (card : CanvasNodeOf I jsnumber Member) : Prop :=
  is_text card = true
  ∧ node_width card = Finite 210 ∧ node_height card = Finite 80
  ∧ node_color card = Some (Plugin.getPriorityColor toLowerCase (priority t))
  ∧ match task_column toLowerCase t with
    | Str col =>
        node_x card = Finite (indexOf columns col * 270 + 20)
        ∧ node_y card
          = Finite (70 + Z.of_nat (column_rank toLowerCase done k col) * 100)
    | Inherited _ => node_x card = Finite (-250) ∧ node_y card = NaN
    end.

(** What the loop over the tasks of the plugin has done after the tasks
    [done]. *)
Definition tasks_placed {I : Type} (gen : nat → I)
    (toLowerCase : jsstring → jsstring) (tasks done : list Task)
    (st : Plugin.TaskLoop (I := I)) : Prop :=
  (∀ col, col ∈ columns →
     Plugin.columnCounts st !! col = Some (column_count toLowerCase col done))
  ∧ length (b_nodes (Plugin.board st)) = (4 + length done)%nat
  ∧ (∀ c, (c < 4)%nat →
       b_nodes (Plugin.board st) !! c
       = b_nodes (plugin_headers gen toLowerCase tasks) !! c)
  ∧ ∀ k t, done !! k = Some t →
      ∃ card, b_nodes (Plugin.board st) !! (4 + k)%nat = Some card
        ∧ card_placed toLowerCase done k t card.

(** The task card of row [p.2] of column [p.1] on the server's board. *)
Definition card_at {I : Type} (card : CanvasNode I Z) (p : nat * nat) : Prop :=
  node_x card = Z.of_nat p.1 * 270 + 20 ∧ node_y card = 60 + Z.of_nat p.2 * 90
  ∧ node_width card = 210 ∧ node_height card = 80.

(** The cards pushed so far stand at distinct places, each below the count of
    its column. *)
Definition cards_stacked {I : Type} (counts : list nat) (cards : list (CanvasNode I Z))
  : Prop :=
  ∃ places : list (nat * nat),
    Forall2 card_at cards places ∧ NoDup places
    ∧ Forall (λ p, (p.1 < 4)%nat ∧ (p.2 < default 0%nat (counts !! p.1))%nat) places.

(** The state of the loop over the lines of the server's board: the cursor
    names a column, the four groups are in place, no counter exceeds the
    number of cards, and the cards are stacked. *)
Definition board_stacked {I : Type} (gen : nat → I) (st : Server.TaskLoop (I := I))
  : Prop :=
  (Server.currentColumn st < 4)%nat
  ∧ length (Server.taskCounts st) = 4%nat
  ∧ take 4 (b_nodes (Server.board st)) = column_groups gen
  ∧ Forall (λ n, (n ≤ length (drop 4 (b_nodes (Server.board st))))%nat)
      (Server.taskCounts st)
  ∧ cards_stacked (Server.taskCounts st) (drop 4 (b_nodes (Server.board st))).

(** A risk card of the server, the [rank]-th of the cell of impact [i] and
    likelihood [l]. *)
Definition risk_card_at {I : Type} (card : CanvasNode I Z) (p : Level * Level * nat)
  : Prop :=
  let '(i, l, rank) := p in
  node_x card = level_index l * 270 + 20 + (Z.of_nat rank mod 2) * 100
  ∧ node_y card = (2 - level_index i) * 220 + 20 + (Z.of_nat rank / 2) * 50
  ∧ node_width card = 100 ∧ node_height card = 40
  ∧ node_color card = Some (getRiskColor i l).

(** The axis labels and the grid of the server's risk matrix. *)
Definition server_grid {I : Type} (gen : nat → I) : Builder I Z :=
  let b := empty_builder in
  let '(impactId, b) := fresh gen b in
  let b := push_node (mkNode impactId Text (-100) (Server.cellHeight + Server.padding)
                        80 40 (Some (js "**Impact**")) None None) b in
  let '(likelihoodId, b) := fresh gen b in
  let b := push_node (mkNode likelihoodId Text (Server.cellWidth + Server.padding)
                        (3 * (Server.cellHeight + Server.padding) + 20) 100 40
                        (Some (js "**Likelihood**")) None None) b in
  forEach (Server.push_row gen) levels b.

(** The grid is in place, no counter exceeds the number of cards, and each
    card stands at a rank below the number of cards. *)
Definition risks_stacked {I : Type} (gen : nat → I) (st : Server.RiskLoop (I := I))
  : Prop :=
  take 11 (b_nodes (Server.matrix st)) = b_nodes (server_grid gen)
  ∧ (∀ key, (default 0%nat (Server.riskCounts st !! key)
             ≤ length (drop 11 (b_nodes (Server.matrix st))))%nat)
  ∧ ∃ places,
      Forall2 risk_card_at (drop 11 (b_nodes (Server.matrix st))) places
      ∧ Forall (λ p, (p.2 < length (drop 11 (b_nodes (Server.matrix st))))%nat) places.

Local Close Scope Z_scope.

(* ===================================================================== *)
(** * Properties                                                          *)
(* ===================================================================== *)

Lemma dash_clean : clean_char Char.dash.
Proof. split; reflexivity. Qed.

Lemma replace_reserved_clean s :
  Forall clean_char s → replace_reserved s = s.
Proof.
  induction 1 as [|c r [Hc _] _ IH]; [done|].
  unfold replace_reserved in *. cbn. by rewrite Hc, IH.
Qed.

Lemma replace_space_runs_from_clean b s :
  Forall clean_char s → replace_space_runs_from b s = s.
Proof.
  intros H. revert b. induction H as [|c r [_ Hc] _ IH]; intros b; [done|].
  cbn. by rewrite Hc, IH.
Qed.

Lemma replace_reserved_Forall s :
  Forall (λ c, is_reserved c = false) (replace_reserved s).
Proof.
  unfold replace_reserved. apply Forall_forall. intros c Hc.
  apply list_elem_of_In, in_map_iff in Hc. destruct Hc as (d & <- & _).
  destruct (is_reserved d) eqn:E; [reflexivity | exact E].
Qed.

Lemma replace_space_runs_from_Forall b s :
  Forall (λ c, is_reserved c = false) s →
  Forall clean_char (replace_space_runs_from b s).
Proof.
  intros H. revert b. induction H as [|c r Hc _ IH]; intros b; cbn; [constructor|].
  destruct (is_space c) eqn:E.
  - destruct b; [apply IH | constructor; [apply dash_clean | apply IH]].
  - constructor; [by split | apply IH].
Qed.

Lemma sanitizeFilename_clean s : Forall clean_char (sanitizeFilename s).
Proof.
  unfold sanitizeFilename, substring0, replace_space_runs.
  apply Forall_take, replace_space_runs_from_Forall, replace_reserved_Forall.
Qed.

(** C9. [sanitizeFilename] is idempotent; its result contains none of the
    reserved characters (backslash, slash, colon, star, question mark,
    double quote, less, greater, bar), no white space, and has at most 100
    code units. *)
Theorem sanitizeFilename_idempotent_and_clean (s : jsstring) :
  sanitizeFilename (sanitizeFilename s) = sanitizeFilename s
  ∧ Forall (λ c, is_reserved c = false ∧ is_space c = false) (sanitizeFilename s)
  ∧ length (sanitizeFilename s) ≤ 100.
Proof.
  pose proof (sanitizeFilename_clean s) as Hclean.
  split; [|split].
  - unfold sanitizeFilename at 1.
    rewrite (replace_reserved_clean _ Hclean).
    unfold replace_space_runs.
    rewrite (replace_space_runs_from_clean _ _ Hclean).
    unfold sanitizeFilename, substring0. by rewrite take_take, Nat.min_id.
  - exact Hclean.
  - unfold sanitizeFilename, substring0. rewrite length_take. lia.
Qed.

(** ** The validator *)

Section ValidatorFacts.
Context (gen : nat → jsstring).

Lemma entries_element {A : Type} (a : A) (l : list (Element A)) :
  entries (element a :: l) = a :: entries l.
Proof. reflexivity. Qed.

Lemma map_elements_returns {A B : Type} (f : A → nat → B * nat)
    (R : A → B → Prop) (l : list (Element A)) :
  (∀ a k, R a (f a k).1) →
  no_null l →
  ∀ drawn, ∃ bs drawn',
    Plugin.map_elements f l drawn = Returns (bs, drawn')
    ∧ Forall2 R (entries l) bs.
Proof.
  intros HR. induction 1 as [|e l He _ IH]; intros drawn.
  - exists [], drawn. split; [done | constructor].
  - destruct e as [|a]; [done|].
    rewrite entries_element. cbn [Plugin.map_elements].
    pose proof (HR a drawn) as Ha. destruct (f a drawn) as [b k].
    destruct (IH k) as (bs & k' & -> & Hbs).
    exists (b :: bs), k'. split; [done | by constructor].
Qed.

Lemma filter_elements_returns {A : Type} (p : A → bool) (l : list (Element A)) :
  no_null l →
  ∃ kept, Plugin.filter_elements p l = Returns kept
          ∧ no_null kept
          ∧ entries kept = filter (λ a, p a = true) (entries l).
Proof.
  induction 1 as [|e l He _ IH].
  - exists []. repeat split. constructor.
  - destruct e as [|a]; [done|].
    rewrite entries_element, filter_cons. cbn [Plugin.filter_elements].
    destruct IH as (kept & -> & Hnn & Hkept). destruct (p a) eqn:Hp.
    + exists (element a :: kept). repeat split.
      * by constructor.
      * rewrite decide_True by done. by rewrite entries_element, Hkept.
    + exists kept. repeat split; [done|].
      rewrite decide_False by (by intros ?). done.
Qed.

Lemma or_empty_returns {A : Type} (m : ArrayMember A) :
  array_or_absent m →
  ∃ l, Plugin.or_empty m = Returns l ∧ no_null l ∧ entries l = member_entries m.
Proof.
  destruct m as [|l|]; cbn; intros H; [| |done].
  - exists []. repeat split. constructor.
  - by exists l.
Qed.

Lemma fix_edge_ends (e : RawEdge) (k : nat) :
  fixed_ends (Plugin.fix_edge gen e k).1 = raw_ends e.
Proof.
  unfold Plugin.fix_edge. by destruct (Plugin.id_or_fresh gen (raw_edge_id e) k).
Qed.

(** Outside that shape the call raises: reading a member of a [null] entry,
    or calling [map] on a truthy value that is not an array. *)
Lemma validate_null_entry_raises (rest : list (Element RawNode)) edges :
  Plugin.validateAndFixCanvasData gen
    (mkRawCanvas (array_member (null_element :: rest)) edges) = TypeError.
Proof. reflexivity. Qed.

Lemma validate_non_array_raises edges :
  Plugin.validateAndFixCanvasData gen (mkRawCanvas other_member edges) = TypeError.
Proof. reflexivity. Qed.

End ValidatorFacts.

(** C1. On every parsed document of the shape of a [CanvasData], whatever
    the members of its nodes and edges hold, [validateAndFixCanvasData]
    returns; the result has as many nodes as the input; both ends of every
    edge of the result are ids of nodes of the result; and the edges of the
    result are, in order, the input edges of which both ends are such ids,
    so that every other input edge is dropped. *)
Theorem validate_referential_integrity (gen : nat → jsstring) (data : RawCanvas) :
  canvas_shaped data →
  ∃ out,
    Plugin.validateAndFixCanvasData gen data = Returns out
    ∧ length (fixed_nodes out) = length (member_entries (raw_nodes data))
    ∧ (∀ e, e ∈ fixed_edges out →
         fixed_fromNode e ∈ map fixed_id (fixed_nodes out)
         ∧ fixed_toNode e ∈ map fixed_id (fixed_nodes out))
    ∧ map fixed_ends (fixed_edges out)
      = map raw_ends
          (filter (λ r, raw_fromNode r ∈ map fixed_id (fixed_nodes out)
                        ∧ raw_toNode r ∈ map fixed_id (fixed_nodes out))
             (member_entries (raw_edges data))).
Proof.
  intros [Hnodes Hedges]. unfold Plugin.validateAndFixCanvasData.
  destruct (or_empty_returns _ Hnodes) as (rawNodes & -> & HnnN & HentN).
  destruct (map_elements_returns (Plugin.fix_node gen) (λ _ _, True) rawNodes
              (λ _ _, I) HnnN 0) as (nodes & drawn & -> & Hlen).
  destruct (or_empty_returns _ Hedges) as (rawEdges & -> & HnnE & HentE).
  set (ids := map fixed_id nodes).
  set (keep := λ edge : RawEdge,
         bool_decide (raw_fromNode edge ∈ (list_to_set ids : gset jsval))
         && bool_decide (raw_toNode edge ∈ (list_to_set ids : gset jsval))).
  destruct (filter_elements_returns keep rawEdges HnnE)
    as (kept & -> & HnnK & Hkept).
  destruct (map_elements_returns (Plugin.fix_edge gen)
              (λ r e, fixed_ends e = raw_ends r) kept (fix_edge_ends gen) HnnK drawn)
    as (edges & drawn' & -> & Hends).
  assert (∀ r, keep r = true ↔ raw_fromNode r ∈ ids ∧ raw_toNode r ∈ ids) as Hkeep.
  { intros r. unfold keep.
    rewrite andb_true_iff, !bool_decide_eq_true, !elem_of_list_to_set. done. }
  assert (map fixed_ends edges = map raw_ends (entries kept)) as Hmap.
  { clear -Hends. induction Hends as [|r e rs es He _ IH]; [done|].
    cbn. by rewrite He, IH. }
  exists (mkFixedCanvas nodes edges). cbn [fixed_nodes fixed_edges].
  split; [done|]. split; [|split].
  - apply Forall2_length in Hlen. by rewrite <- HentN.
  - intros e He.
    assert (fixed_ends e ∈ map raw_ends (entries kept)) as Hin.
    { rewrite <- Hmap. apply list_elem_of_fmap. by exists e. }
    apply list_elem_of_fmap in Hin as (r & Hr & Hrin).
    rewrite Hkept in Hrin. apply list_elem_of_filter in Hrin as [Hk _].
    apply Hkeep in Hk. unfold fixed_ends, raw_ends in Hr.
    injection Hr as -> ->. exact Hk.
  - rewrite Hmap, Hkept, <- HentE. f_equal.
    apply list_filter_iff. intros r. apply Hkeep.
Qed.

(** A document with a node that has an id, a node without one, an edge
    between existing nodes and an edge to a node that does not exist. *)
Lemma validate_referential_integrity_witness :
  let a := VStr (js "a") in
  let node id := mkRawNode id VUndefined (VNum 10) (VStr (js "x")) VUndefined
                   VNull (VStr (js "hello")) VUndefined VUndefined VUndefined in
  let edge from to := mkRawEdge VUndefined from to VUndefined VUndefined
                        VUndefined VUndefined in
  let data :=
    mkRawCanvas (array_member [element (node a); element (node VUndefined)])
      (array_member [element (edge a a); element (edge a (VStr (js "zzz")))]) in
  canvas_shaped data
  ∧ ∃ out, Plugin.validateAndFixCanvasData (λ n, js "generated") data = Returns out
           ∧ length (fixed_nodes out) = 2.
Proof.
  intros a node edge data.
  assert (canvas_shaped data) as H.
  { split; cbn; repeat constructor; discriminate. }
  split; [exact H|].
  destruct (validate_referential_integrity (λ n, js "generated") data H)
    as (out & Hout & Hlen & _).
  exists out. split; [exact Hout | exact Hlen].
Defined.

(** ** Identifiers kept and drawn by the validator *)

Lemma supplied_sublist (vs ws : list jsval) :
  vs `sublist_of` ws → supplied vs `sublist_of` supplied ws.
Proof.
  unfold supplied. induction 1 as [|v vs ws _ IH|v vs ws _ IH]; [done| |].
  - rewrite !filter_cons. destruct (decide _); [by apply sublist_skip | done].
  - rewrite filter_cons. destruct (decide _); [by apply sublist_cons | done].
Qed.

Section ValidatorIds.
Context (gen : nat → jsstring).

Lemma filter_elements_entries {A : Type} (p : A → bool) (l kept : list (Element A)) :
  Plugin.filter_elements p l = Returns kept →
  entries kept = filter (λ a, p a = true) (entries l).
Proof.
  revert kept. induction l as [|[|a] l IH]; intros kept; cbn [Plugin.filter_elements].
  - by intros [= <-].
  - done.
  - destruct (Plugin.filter_elements p l) as [kept'|]; [|done].
    intros [= <-]. rewrite entries_element, filter_cons.
    destruct (p a) eqn:Hp.
    + rewrite decide_True by done. rewrite entries_element. f_equal. by apply IH.
    + rewrite decide_False by (by intros ?). by apply IH.
Qed.

Lemma or_empty_entries {A : Type} (m : ArrayMember A) l :
  Plugin.or_empty m = Returns l → entries l = member_entries m.
Proof. destruct m; cbn; by intros [= <-]. Qed.

Lemma draws_distinct_neq {I : Type} (draw : nat → I) (calls j k : nat) :
  draws_distinct draw calls → (j < k)%nat → (k < calls)%nat → draw j ≠ draw k.
Proof.
  intros Hnd Hjk Hk E.
  assert (∀ i, (i < calls)%nat → map draw (seq 0 calls) !! i = Some (draw i)) as Hl.
  { intros i Hi. change (map draw (seq 0 calls)) with (draw <$> seq 0 calls).
    by rewrite list_lookup_fmap, lookup_seq_lt by lia. }
  pose proof (Hl j ltac:(lia)) as Hj. pose proof (Hl k Hk) as Hk'.
  rewrite E in Hj. pose proof (NoDup_lookup _ _ _ _ Hnd Hj Hk'). lia.
Qed.

(** The ids given by [id_or_fresh] along an array: each is supplied by the
    input or drawn, at most one is drawn for each element, and they are
    distinct when the supplied ones are, the drawn ones are, and no supplied
    one is also drawn. *)
Lemma map_elements_ids {A B : Type} (f : A → nat → B * nat)
    (idA : A → jsval) (idB : B → jsval) (calls : nat) :
  (∀ a k, (idB (f a k).1, (f a k).2) = Plugin.id_or_fresh gen (idA a) k) →
  draws_distinct gen calls →
  ∀ l drawn bs drawn',
    Plugin.map_elements f l drawn = Returns (bs, drawn') →
    (drawn ≤ drawn' ∧ drawn' ≤ drawn + length bs)%nat
    ∧ ((drawn' ≤ calls)%nat →
       (∀ a k, a ∈ entries l → (k < calls)%nat → idA a ≠ VStr (gen k)) →
       (∀ v, v ∈ map idB bs →
             v ∈ supplied (map idA (entries l))
             ∨ ∃ k, (drawn ≤ k)%nat ∧ (k < drawn')%nat ∧ v = VStr (gen k))
       ∧ (NoDup (supplied (map idA (entries l))) → NoDup (map idB bs))).
Proof.
  intros Hf Hdistinct. induction l as [|[|a] l IH]; intros drawn bs drawn';
    cbn [Plugin.map_elements].
  - intros [= <- <-]. split; [cbn; lia|]. intros _ _.
    split; [by intros v Hv%elem_of_nil | constructor].
  - done.
  - pose proof (Hf a drawn) as Ha. destruct (f a drawn) as [b k]. cbn in Ha.
    destruct (Plugin.map_elements f l k) as [[bs' k']|] eqn:Hl; [|done].
    intros [= <- <-]. rewrite entries_element in *.
    destruct (IH k bs' k' Hl) as [[Hkk' Hk'] IH'].
    assert (drawn ≤ k ∧ k ≤ S drawn)%nat as Hle.
    { unfold Plugin.id_or_fresh in Ha. destruct (truthy (idA a)); injection Ha; lia. }
    split; [cbn [length]; lia|]. intros Hcalls Hfresh.
    destruct IH' as [Hin Hnd]; [lia | |].
    { intros a' j Ha'. apply Hfresh. by right. }
    unfold supplied in *. cbn [map]. rewrite filter_cons.
    unfold Plugin.id_or_fresh in Ha. destruct (truthy (idA a)) eqn:Ht.
    + injection Ha as Hb ->. rewrite decide_True by done. split.
      * intros v [->|Hv]%elem_of_cons; [left; rewrite Hb; by left|].
        destruct (Hin v Hv) as [?|(j & ? & ? & ?)]; [left; by right | right; eauto].
      * intros [Hnotin Hnd']%NoDup_cons. apply NoDup_cons. split; [|by apply Hnd].
        intros Hv. destruct (Hin _ Hv) as [Hs|(j & _ & Hlt & Hj)].
        -- rewrite Hb in Hs. done.
        -- rewrite Hb in Hj. eapply (Hfresh a j); [by left | lia | exact Hj].
    + injection Ha as Hb Hk. rewrite decide_False by congruence. split.
      * intros v [->|Hv]%elem_of_cons;
          [right; exists drawn; rewrite Hb; repeat split; [lia|lia]|].
        destruct (Hin v Hv) as [?|(j & ? & ? & ?)];
          [by left | right; exists j; repeat split; [lia|lia|done]].
      * intros Hnd'. apply NoDup_cons. split; [|by apply Hnd].
        intros Hv. destruct (Hin _ Hv) as [Hs|(j & Hj & Hlt & Heq)].
        -- apply list_elem_of_filter in Hs as [_ Hs].
           apply list_elem_of_fmap in Hs as (a' & Ha' & Hin').
           eapply (Hfresh a' drawn); [right; exact Hin' | lia |].
           rewrite <- Ha', Hb. reflexivity.
        -- rewrite Hb in Heq. injection Heq as Heq.
           eapply (draws_distinct_neq gen calls drawn j); [done|lia|lia|done].
Qed.

End ValidatorIds.

Section ValidatorUnique.
Context (gen : nat → jsstring).

Lemma validate_inv data out :
  Plugin.validateAndFixCanvasData gen data = Returns out →
  ∃ rawNodes rawEdges kept drawn drawn',
    entries rawNodes = member_entries (raw_nodes data)
    ∧ Plugin.map_elements (Plugin.fix_node gen) rawNodes 0
      = Returns (fixed_nodes out, drawn)
    ∧ entries rawEdges = member_entries (raw_edges data)
    ∧ entries kept `sublist_of` entries rawEdges
    ∧ Plugin.map_elements (Plugin.fix_edge gen) kept drawn
      = Returns (fixed_edges out, drawn').
Proof.
  unfold Plugin.validateAndFixCanvasData.
  destruct (Plugin.or_empty (raw_nodes data)) as [rawNodes|] eqn:HN; [|done].
  destruct (Plugin.map_elements _ rawNodes 0) as [[nodes drawn]|] eqn:Hnodes; [|done].
  destruct (Plugin.or_empty (raw_edges data)) as [rawEdges|] eqn:HE; [|done].
  destruct (Plugin.filter_elements _ rawEdges) as [kept|] eqn:Hkept; [|done].
  destruct (Plugin.map_elements _ kept drawn) as [[edges drawn']|] eqn:Hedges; [|done].
  intros [= <-]. exists rawNodes, rawEdges, kept, drawn, drawn'. cbn.
  repeat split; try done; try by apply or_empty_entries.
  rewrite (filter_elements_entries _ _ _ Hkept). apply sublist_filter.
Qed.

Lemma fix_node_id (node : RawNode) (k : nat) :
  (fixed_id (Plugin.fix_node gen node k).1, (Plugin.fix_node gen node k).2)
  = Plugin.id_or_fresh gen (raw_id node) k.
Proof.
  unfold Plugin.fix_node. by destruct (Plugin.id_or_fresh gen (raw_id node) k).
Qed.

Lemma fix_edge_id (edge : RawEdge) (k : nat) :
  (fixed_edge_id (Plugin.fix_edge gen edge k).1, (Plugin.fix_edge gen edge k).2)
  = Plugin.id_or_fresh gen (raw_edge_id edge) k.
Proof.
  unfold Plugin.fix_edge. by destruct (Plugin.id_or_fresh gen (raw_edge_id edge) k).
Qed.

Lemma validator_ids_unique data out :
  Plugin.validateAndFixCanvasData gen data = Returns out →
  let calls := (length (fixed_nodes out) + length (fixed_edges out))%nat in
  draws_distinct gen calls →
  NoDup (supplied (map raw_id (member_entries (raw_nodes data)))) →
  NoDup (supplied (map raw_edge_id (member_entries (raw_edges data)))) →
  (∀ n k, n ∈ member_entries (raw_nodes data) → (k < calls)%nat →
          raw_id n ≠ VStr (gen k)) →
  (∀ e k, e ∈ member_entries (raw_edges data) → (k < calls)%nat →
          raw_edge_id e ≠ VStr (gen k)) →
  NoDup (map fixed_id (fixed_nodes out))
  ∧ NoDup (map fixed_edge_id (fixed_edges out)).
Proof.
  intros Hout calls Hdistinct HndN HndE HfreshN HfreshE.
  destruct (validate_inv data out Hout)
    as (rawNodes & rawEdges & kept & drawn & drawn' & HN & Hnodes & HE & Hsub & Hedges).
  destruct (map_elements_ids gen _ raw_id fixed_id calls fix_node_id Hdistinct
              _ _ _ _ Hnodes) as [[_ Hdrawn] HidsN].
  destruct (map_elements_ids gen _ raw_edge_id fixed_edge_id calls fix_edge_id Hdistinct
              _ _ _ _ Hedges) as [[_ Hdrawn'] HidsE].
  split.
  - apply HidsN; [subst calls; lia | | by rewrite HN].
    rewrite HN. exact HfreshN.
  - apply HidsE; [subst calls; lia | |].
    + intros e k He. apply HfreshE. rewrite <- HE.
      eapply elem_of_sublist; [exact He | exact Hsub].
    + eapply sublist_NoDup; [exact HndE|]. rewrite <- HE.
      apply supplied_sublist. by apply fmap_sublist.
Qed.

End ValidatorUnique.

(** ** Identifiers drawn during a construction *)

Section IdAccounting.
Context {I Num Col : Type} (gen : nat → I).
Implicit Types b : BuilderOf I Num Col.

Lemma tight_empty :
  tight gen (empty_builder (I := I) (Num := Num) (Col := Col)).
Proof. unfold tight. reflexivity. Qed.

Lemma fresh_pending b i b' :
  tight gen b → fresh gen b = (i, b') → pending gen b' i.
Proof.
  unfold tight, pending, fresh. intros Hb [= <- <-].
  cbn [drawn b_nodes b_edges]. 
  rewrite seq_S, map_app. cbn [map Nat.add]. rewrite <- Hb.
  unfold builder_ids. cbn [drawn b_nodes b_edges]. by rewrite Permutation_cons_append.
Qed.

Lemma push_node_tight b i n :
  pending gen b i → node_id n = i → tight gen (push_node n b).
Proof.
  unfold tight, pending, push_node, builder_ids. cbn [drawn b_nodes b_edges]. intros <- <-.
  rewrite map_app. cbn [map]. rewrite <- app_assoc. cbn [app].
  by rewrite <- Permutation_middle.
Qed.

Lemma push_edge_tight b i e :
  pending gen b i → edge_id e = i → tight gen (push_edge e b).
Proof.
  unfold tight, pending, push_edge, builder_ids. cbn [drawn b_nodes b_edges]. intros <- <-.
  rewrite map_app. cbn [map]. rewrite app_assoc.
  by rewrite <- Permutation_cons_append.
Qed.

(** One call for each node and for each edge. *)
Lemma tight_calls b : tight gen b → drawn b = calls_of (finish b).
Proof.
  unfold tight, builder_ids, calls_of, finish. cbn [nodes edges].
  intros Hb%Permutation_length.
  rewrite length_app, !length_map, length_seq in Hb. lia.
Qed.

Lemma tight_follows b : tight gen b → ids_follow_draws gen (finish b).
Proof.
  intros Hb. pose proof (tight_calls b Hb) as Hcalls.
  unfold tight, builder_ids in Hb. rewrite Hcalls in Hb.
  split; [exact Hb|].
  unfold draws_distinct, unique_ids. intros Hnd. rewrite <- Hb in Hnd.
  apply NoDup_app in Hnd as (H1 & _ & H2). by split.
Qed.

End IdAccounting.

Lemma forEach_from_invariant {A St : Type} (P : St → Prop)
    (f : St → A → nat → St) (l : list A) :
  (∀ s a i, P s → P (f s a i)) →
  ∀ i s, P s → P (forEach_from i f l s).
Proof.
  intros Hf. induction l as [|a l IH]; intros i s Hs; [done|].
  cbn. apply IH, Hf, Hs.
Qed.

Lemma forEach_invariant {A St : Type} (P : St → Prop)
    (f : St → A → nat → St) (l : list A) (s : St) :
  (∀ s a i, P s → P (f s a i)) → P s → P (forEach f l s).
Proof. intros Hf. by apply forEach_from_invariant. Qed.

(** Draw an identifier and give it to the node or edge pushed next. *)
Ltac draw H :=
  lazymatch goal with
  | |- context [@fresh _ _ _ ?g ?b0] =>
      let i := fresh "i" in
      let b := fresh "b" in
      let E := fresh "E" in
      destruct (@fresh _ _ _ g b0) as [i b] eqn:E;
      apply (fresh_pending g _ _ _ H) in E;
      clear H;
      lazymatch goal with
      | |- context [push_node ?n b] =>
          pose proof (push_node_tight g b i n E eq_refl) as H
      | |- context [push_edge ?e b] =>
          pose proof (push_edge_tight g b i e E eq_refl) as H
      end;
      clear E
  end.

Section ServerIds.
Context {I : Type} (gen : nat → I) (lower : jsstring → jsstring).

Lemma server_push_column_tight b col i :
  tight gen b → tight gen (Server.push_column gen b col i).
Proof. intros H. unfold Server.push_column. draw H. exact H. Qed.

Lemma server_task_line_tight st line i :
  tight gen (Server.board st) →
  tight gen (Server.board (Server.task_line gen lower st line i)).
Proof.
  intros H. unfold Server.task_line.
  destruct (_ || _); [exact H|].
  match goal with |- context [let '(_, _) := ?t in _] => destruct t as [priority color] end.
  draw H. exact H.
Qed.

Lemma server_taskboard_tight description :
  ∃ b, Server.generateTaskboardFromDescription gen lower description = finish b
       ∧ tight gen b.
Proof.
  unfold Server.generateTaskboardFromDescription.
  set (st := forEach _ (nonblank_lines description) _).
  assert (tight gen (Server.board st)) as H.
  { apply (forEach_invariant (λ st, tight gen (Server.board st)));
      [intros; by apply server_task_line_tight|].
    apply forEach_invariant; [intros; by apply server_push_column_tight|].
    apply tight_empty. }
  destruct (_ =? _)%nat; [|by eexists].
  draw H. by eexists.
Qed.

Lemma server_push_row_tight b impact i :
  tight gen b → tight gen (Server.push_row gen b impact i).
Proof.
  intros H. unfold Server.push_row.
  apply forEach_invariant; [|exact H].
  clear. intros b likelihood j H. unfold Server.push_cell. draw H. exact H.
Qed.

Lemma server_risk_line_tight st line i :
  tight gen (Server.matrix st) →
  tight gen (Server.matrix (Server.risk_line gen lower st line i)).
Proof.
  intros H. unfold Server.risk_line.
  destruct (_ || _); [exact H|].
  draw H. exact H.
Qed.

Lemma server_riskmatrix_tight description :
  ∃ b, Server.generateRiskMatrixFromDescription gen lower description = finish b
       ∧ tight gen b.
Proof.
  unfold Server.generateRiskMatrixFromDescription.
  pose proof (tight_empty (Num := Z) (Col := jsstring) gen) as H.
  draw H. draw H.
  eexists. split; [reflexivity|].
  apply (forEach_invariant (λ st, tight gen (Server.matrix st)));
    [intros; by apply server_risk_line_tight|].
  apply forEach_invariant; [intros; by apply server_push_row_tight|].
  exact H.
Qed.

Lemma server_push_subtopic_tight branchId bx by' a0 da b subtopic j :
  tight gen b →
  tight gen (Server.push_subtopic gen branchId bx by' a0 da b subtopic j).
Proof. intros H. unfold Server.push_subtopic. draw H. draw H. exact H. Qed.

Lemma server_push_branch_tight centralId angleStep b branch i :
  tight gen b → tight gen (Server.push_branch gen centralId angleStep b branch i).
Proof.
  intros H. unfold Server.push_branch. draw H. draw H.
  destruct (_ <? _)%nat; [|exact H].
  apply forEach_invariant; [|exact H].
  intros. by apply server_push_subtopic_tight.
Qed.

Lemma server_layout_mindmap_tight central branches :
  ∃ b, Server.layout_mindmap gen central branches = finish b ∧ tight gen b.
Proof.
  unfold Server.layout_mindmap.
  pose proof (tight_empty (Num := R) (Col := jsstring) gen) as H.
  draw H. eexists. split; [reflexivity|].
  apply forEach_invariant; [|exact H].
  intros. by apply server_push_branch_tight.
Qed.

Lemma server_custom_unique description :
  unique_ids (Server.generateCustomCanvas gen description).
Proof. split; cbn; [apply NoDup_singleton | apply NoDup_nil_2]. Qed.

End ServerIds.

Section PluginIds.
Context {I : Type} (gen : nat → I) (lower : jsstring → jsstring).

Lemma plugin_taskboard_tight tasks :
  ∃ b, Plugin.createTaskboardCanvas gen lower tasks = finish b ∧ tight gen b.
Proof.
  unfold Plugin.createTaskboardCanvas. eexists. split; [reflexivity|].
  apply (forEach_invariant (λ st, tight gen (Plugin.board st))).
  { intros st task i H. unfold Plugin.push_task.
    destruct (Plugin.post_increment _ _) as [rowIndex counts]. draw H. exact H. }
  cbn [Plugin.board].
  apply forEach_invariant; [|apply tight_empty].
  intros b col i H. unfold Plugin.push_column. draw H. exact H.
Qed.

Lemma plugin_riskmatrix_tight risks :
  ∃ b, Plugin.createRiskMatrixCanvas gen risks = finish b ∧ tight gen b.
Proof.
  unfold Plugin.createRiskMatrixCanvas. eexists. split; [reflexivity|].
  apply (forEach_invariant (λ st, tight gen (Plugin.matrix st))).
  { intros st risk i H. unfold Plugin.push_risk. draw H. exact H. }
  apply (forEach_invariant (λ st, tight gen (Plugin.matrix st)));
    [|apply tight_empty].
  intros st impact i H. unfold Plugin.push_row.
  apply (forEach_invariant (λ st, tight gen (Plugin.matrix st))); [|exact H].
  clear. intros st likelihood j H. unfold Plugin.push_cell. draw H. exact H.
Qed.

Lemma plugin_push_branch_tight centralId angleStep b branch i :
  tight gen b → tight gen (Plugin.push_branch gen centralId angleStep b branch i).
Proof.
  intros H. unfold Plugin.push_branch. draw H. draw H.
  apply forEach_invariant; [|exact H].
  clear. intros b subtopic j H. unfold Plugin.push_subtopic.
  draw H. draw H. exact H.
Qed.

Lemma plugin_mindmap_tight central branches :
  ∃ b, Plugin.createMindMapCanvas gen central branches = finish b ∧ tight gen b.
Proof.
  unfold Plugin.createMindMapCanvas.
  pose proof (tight_empty (Num := R) (Col := jsstring) gen) as H.
  draw H. eexists. split; [reflexivity|].
  apply forEach_invariant; [|exact H].
  intros. by apply plugin_push_branch_tight.
Qed.

End PluginIds.

(** The identifiers of a graph are not always distinct.  The validator
    keeps the ids of its input: two nodes that come with the same id leave
    with the same id.  The generator of the server keeps the first sixteen
    digits of a UUID: distinct UUIDs that agree on them give one identifier,
    which the column groups of a board then share.  The generator of the
    plugin returns one identifier for two calls within one millisecond
    whose random numbers print alike. *)
Lemma ids_are_not_always_unique :
  (∃ out,
     Plugin.validateAndFixCanvasData
       (Plugin.generateUniqueId random_half next_millisecond) duplicate_id_document
     = Returns out
     ∧ map fixed_id (fixed_nodes out) = [VStr (js "a"); VStr (js "a")]
     ∧ ¬ NoDup (map fixed_id (fixed_nodes out)))
  ∧ (uuids_alike 0 ≠ uuids_alike 1
     ∧ Server.generateId uuids_alike 0 = js "123e4567e89b42d3"
     ∧ Server.generateId uuids_alike 1 = js "123e4567e89b42d3"
     ∧ ¬ unique_ids (Server.generateTaskboardFromDescription
                       (Server.generateId uuids_alike) ascii_toLowerCase
                       taskboard_description))
  ∧ (Plugin.generateUniqueId random_half same_millisecond 0 = js "iloyw3v28"
     ∧ Plugin.generateUniqueId random_half same_millisecond 1 = js "iloyw3v28"
     ∧ ¬ unique_ids (Plugin.createTaskboardCanvas
                       (Plugin.generateUniqueId random_half same_millisecond)
                       ascii_toLowerCase [])).
Proof.
  repeat apply conj.
  - eexists. split; [reflexivity|]. split; [reflexivity|].
    cbn. intros [Hnotin _]%NoDup_cons. apply Hnotin. by left.
  - by intros ?%(f_equal (λ s, s !! 35%nat)).
  - reflexivity.
  - reflexivity.
  - unfold unique_ids. apply (bool_decide_unpack _). vm_compute. constructor.
  - reflexivity.
  - reflexivity.
  - unfold unique_ids. apply (bool_decide_unpack _). vm_compute. constructor.
Qed.

(** C2, amended.  The ids of the nodes and edges of a graph built by a
    layout generator of either file are, up to their order, the identifiers
    that the calls of the id generator returned, one call for each node and
    each edge; so no two nodes and no two edges share an id whenever these
    calls returned pairwise distinct identifiers.  The result of the
    validator has no two nodes and no two edges with the same id whenever
    the identifiers that as many calls as it has nodes and edges return are
    pairwise distinct, the ids that the input supplies are distinct among
    the nodes and among the edges, and none of them is such an identifier. *)
Theorem ids_unique_when_draws_distinct (randomText : nat → jsstring)
    (dateNow : nat → N) (randomUUID : nat → jsstring)
    (lower : jsstring → jsstring) :
  let pluginId := Plugin.generateUniqueId randomText dateNow in
  let serverId := Server.generateId randomUUID in
  (∀ tasks,
     ids_follow_draws pluginId (Plugin.createTaskboardCanvas pluginId lower tasks))
  ∧ (∀ risks,
       ids_follow_draws pluginId (Plugin.createRiskMatrixCanvas pluginId risks))
  ∧ (∀ central branches,
       ids_follow_draws pluginId
         (Plugin.createMindMapCanvas pluginId central branches))
  ∧ (∀ description,
       ids_follow_draws serverId
         (Server.generateTaskboardFromDescription serverId lower description))
  ∧ (∀ description,
       ids_follow_draws serverId
         (Server.generateRiskMatrixFromDescription serverId lower description))
  ∧ (∀ description,
       ids_follow_draws serverId
         (Server.generateMindMapFromDescription serverId description))
  ∧ (∀ description,
       ids_follow_draws serverId (Server.generateCustomCanvas serverId description))
  ∧ (∀ data out,
       Plugin.validateAndFixCanvasData pluginId data = Returns out →
       let calls := (length (fixed_nodes out) + length (fixed_edges out))%nat in
       draws_distinct pluginId calls →
       NoDup (supplied (map raw_id (member_entries (raw_nodes data)))) →
       NoDup (supplied (map raw_edge_id (member_entries (raw_edges data)))) →
       (∀ n k, n ∈ member_entries (raw_nodes data) → (k < calls)%nat →
               raw_id n ≠ VStr (pluginId k)) →
       (∀ e k, e ∈ member_entries (raw_edges data) → (k < calls)%nat →
               raw_edge_id e ≠ VStr (pluginId k)) →
       NoDup (map fixed_id (fixed_nodes out))
       ∧ NoDup (map fixed_edge_id (fixed_edges out))).
Proof.
  intros pluginId serverId. repeat apply conj.
  - intros tasks.
    destruct (plugin_taskboard_tight pluginId lower tasks) as (b & -> & Hb).
    by apply tight_follows.
  - intros risks. destruct (plugin_riskmatrix_tight pluginId risks) as (b & -> & Hb).
    by apply tight_follows.
  - intros central branches.
    destruct (plugin_mindmap_tight pluginId central branches) as (b & -> & Hb).
    by apply tight_follows.
  - intros d. destruct (server_taskboard_tight serverId lower d) as (b & -> & Hb).
    by apply tight_follows.
  - intros d. destruct (server_riskmatrix_tight serverId lower d) as (b & -> & Hb).
    by apply tight_follows.
  - intros d. unfold Server.generateMindMapFromDescription.
    destruct (Server.parse_outline d) as [central branches].
    destruct (server_layout_mindmap_tight serverId central branches) as (b & -> & Hb).
    by apply tight_follows.
  - intros d. split; [reflexivity|]. intros _. apply server_custom_unique.
  - intros data out. by apply validator_ids_unique.
Qed.

(** Calls of the plugin one millisecond apart, and UUIDs of the server that
    differ in their first digits, give distinct identifiers. *)
Lemma ids_unique_when_draws_distinct_witness :
  unique_ids (Plugin.createTaskboardCanvas
                (Plugin.generateUniqueId random_half next_millisecond)
                ascii_toLowerCase
                [mkTask (js "Fix login") (js "done") None;
                 mkTask (js "Write docs") (js "Done") (Some (js "high"))])
  ∧ unique_ids (Server.generateTaskboardFromDescription
                  (Server.generateId uuids_apart) ascii_toLowerCase
                  taskboard_description)
  ∧ ∃ out,
      Plugin.validateAndFixCanvasData
        (Plugin.generateUniqueId random_half next_millisecond) partly_named_document
      = Returns out
      ∧ map fixed_id (fixed_nodes out) = [VStr (js "a"); VStr (js "iloyw3v28")]
      ∧ NoDup (map fixed_id (fixed_nodes out)).
Proof.
  pose proof (ids_unique_when_draws_distinct random_half next_millisecond
                uuids_apart ascii_toLowerCase) as H.
  cbv zeta in H. destruct H as (Hplugin & _ & _ & Hserver & _ & _ & _ & Hvalidator).
  split; [|split].
  - apply (proj2 (Hplugin _)). unfold draws_distinct.
    apply (bool_decide_unpack _). vm_compute. constructor.
  - apply (proj2 (Hserver _)). unfold draws_distinct.
    apply (bool_decide_unpack _). vm_compute. constructor.
  - eexists. split; [reflexivity|]. split; [reflexivity|].
    eapply proj1, (Hvalidator partly_named_document _ eq_refl).
    + unfold draws_distinct. apply (bool_decide_unpack _). vm_compute. constructor.
    + apply (bool_decide_unpack _). vm_compute. constructor.
    + constructor.
    + intros n k Hn Hk. cbn in Hn, Hk.
      assert (k = 0 ∨ k = 1)%nat as [-> | ->] by lia;
        repeat (apply elem_of_cons in Hn as [-> | Hn]; [by vm_compute|]);
        by apply elem_of_nil in Hn.
    + intros e k He. by apply elem_of_nil in He.
Defined.

(** ** Determinism up to the identifiers *)

Lemma forEach_from_related {A S1 S2 : Type} (R : S1 → S2 → Prop)
    (f1 : S1 → A → nat → S1) (f2 : S2 → A → nat → S2) (l : list A) :
  (∀ s1 s2 a i, R s1 s2 → R (f1 s1 a i) (f2 s2 a i)) →
  ∀ i s1 s2, R s1 s2 → R (forEach_from i f1 l s1) (forEach_from i f2 l s2).
Proof.
  intros Hf. induction l as [|a l IH]; intros i s1 s2 Hs; [done|].
  cbn. by apply IH, Hf.
Qed.

Lemma forEach_related {A S1 S2 : Type} (R : S1 → S2 → Prop)
    (f1 : S1 → A → nat → S1) (f2 : S2 → A → nat → S2) (l : list A) s1 s2 :
  (∀ s1 s2 a i, R s1 s2 → R (f1 s1 a i) (f2 s2 a i)) →
  R s1 s2 → R (forEach f1 l s1) (forEach f2 l s2).
Proof. intros Hf. by apply forEach_from_related. Qed.

Section Renaming.
Context {I : Type} (gen : nat → I) (lower : jsstring → jsstring).

Lemma renamed_empty {Num Col : Type} :
  renamed gen (empty_builder (Num := Num) (Col := Col)) empty_builder.
Proof. reflexivity. Qed.

Lemma rename_finish {Num Col : Type} (b : BuilderOf nat Num Col) b' :
  renamed gen b b' → finish b' = rename gen (finish b).
Proof. by intros ->. Qed.

Ltac renamed_step :=
  unfold renamed in *; subst; unfold rename_builder, fresh, push_node, push_edge;
  cbn [drawn b_nodes b_edges Plugin.board Plugin.matrix Server.board
       Server.matrix];
  rewrite ?map_app; reflexivity.

Lemma plugin_push_column_renamed tasks b b' col i :
  renamed gen b b' →
  renamed gen (Plugin.push_column (λ n, n) lower tasks b col i)
          (Plugin.push_column gen lower tasks b' col i).
Proof. intros H. unfold Plugin.push_column. renamed_step. Qed.

Lemma plugin_taskboard_renamed tasks :
  Plugin.createTaskboardCanvas gen lower tasks
  = rename gen (Plugin.createTaskboardCanvas (λ n, n) lower tasks).
Proof.
  unfold Plugin.createTaskboardCanvas. apply rename_finish.
  apply (forEach_related
           (λ st st', Plugin.columnCounts st' = Plugin.columnCounts st
                      ∧ renamed gen (Plugin.board st) (Plugin.board st'))).
  - intros [counts b] [counts' b'] task i [Hc Hb]. cbn in Hc, Hb. subst counts'.
    unfold Plugin.push_task, fresh. cbn [Plugin.columnCounts Plugin.board].
    destruct (Plugin.post_increment _ _) as [rowIndex counts'].
    split; [reflexivity | renamed_step].
  - split; [reflexivity|]. cbn [Plugin.board].
    apply (forEach_related (renamed gen)); [|apply renamed_empty].
    intros. by apply plugin_push_column_renamed.
Qed.

Lemma plugin_riskmatrix_renamed risks :
  Plugin.createRiskMatrixCanvas gen risks
  = rename gen (Plugin.createRiskMatrixCanvas (λ n, n) risks).
Proof.
  unfold Plugin.createRiskMatrixCanvas. apply rename_finish.
  set (R := λ (st : Plugin.RiskLoop) (st' : Plugin.RiskLoop),
         Plugin.cellCounts st' = Plugin.cellCounts st
         ∧ renamed gen (Plugin.matrix st) (Plugin.matrix st')).
  apply (forEach_related R).
  - intros [counts b] [counts' b'] risk i [Hc Hb]. cbn in Hc, Hb. subst counts'.
    unfold Plugin.push_risk, fresh. cbn [Plugin.cellCounts Plugin.matrix].
    split; [reflexivity | renamed_step].
  - apply (forEach_related R); [|by split].
    intros st st' impact i HR. unfold Plugin.push_row.
    apply (forEach_related R); [|exact HR].
    clear. intros [counts b] [counts' b'] likelihood j [Hc Hb].
    cbn in Hc, Hb. subst counts'.
    unfold Plugin.push_cell, fresh. cbn [Plugin.cellCounts Plugin.matrix].
    split; [reflexivity | renamed_step].
Qed.

Lemma plugin_push_branch_renamed c angleStep b b' branch i :
  renamed gen b b' →
  renamed gen (Plugin.push_branch (λ n, n) c angleStep b branch i)
          (Plugin.push_branch gen (gen c) angleStep b' branch i).
Proof.
  intros ->. unfold Plugin.push_branch.
  unfold fresh, push_node, push_edge, rename_builder. cbn [drawn b_nodes b_edges].
  apply (forEach_related (renamed gen)).
  - intros s s' subtopic j H. unfold Plugin.push_subtopic. renamed_step.
  - renamed_step.
Qed.

Lemma plugin_mindmap_renamed central branches :
  Plugin.createMindMapCanvas gen central branches
  = rename gen (Plugin.createMindMapCanvas (λ n, n) central branches).
Proof.
  unfold Plugin.createMindMapCanvas. apply rename_finish.
  unfold fresh, empty_builder. cbn [drawn b_nodes b_edges].
  apply (forEach_related (renamed gen)).
  - intros. by apply plugin_push_branch_renamed.
  - renamed_step.
Qed.

Lemma server_taskboard_renamed description :
  Server.generateTaskboardFromDescription gen lower description
  = rename gen (Server.generateTaskboardFromDescription (λ n, n) lower description).
Proof.
  unfold Server.generateTaskboardFromDescription.
  set (R := λ (st : Server.TaskLoop) (st' : Server.TaskLoop),
         Server.currentColumn st' = Server.currentColumn st
         ∧ Server.taskCounts st' = Server.taskCounts st
         ∧ renamed gen (Server.board st) (Server.board st')).
  match goal with
  | |- context [forEach (Server.task_line gen lower) ?l ?s'] =>
      match goal with
      | |- context [forEach (Server.task_line (λ n, n) lower) l ?s] =>
          assert (R (forEach (Server.task_line (λ n, n) lower) l s)
                    (forEach (Server.task_line gen lower) l s')) as (_ & _ & HR)
      end
  end.
  { apply (forEach_related R).
    - intros [c counts b] [c' counts' b'] line i (Hc & Hn & Hb).
      cbn in Hc, Hn, Hb. subst c' counts'.
      unfold Server.task_line. cbn [Server.currentColumn Server.taskCounts Server.board].
      destruct (_ || _); [by repeat split|].
      match goal with
      | |- context [let '(_, _) := ?t in _] => destruct t as [priority color]
      end.
      unfold fresh.
      cbn [Server.currentColumn Server.taskCounts Server.board].
      split; [reflexivity|]. split; [reflexivity|]. renamed_step.
    - repeat split. }
  unfold renamed in HR. rewrite HR. unfold rename_builder at 1. cbn [b_nodes].
  rewrite length_map.
  destruct (_ =? _)%nat; [|apply rename_finish; reflexivity].
  apply rename_finish. renamed_step.
Qed.

Lemma server_riskmatrix_renamed description :
  Server.generateRiskMatrixFromDescription gen lower description
  = rename gen (Server.generateRiskMatrixFromDescription (λ n, n) lower description).
Proof.
  unfold Server.generateRiskMatrixFromDescription. apply rename_finish.
  set (R := λ (st : Server.RiskLoop) (st' : Server.RiskLoop),
         Server.riskCounts st' = Server.riskCounts st
         ∧ renamed gen (Server.matrix st) (Server.matrix st')).
  apply (forEach_related R).
  - intros [counts b] [counts' b'] line i [Hc Hb]. cbn in Hc, Hb. subst counts'.
    unfold Server.risk_line. cbn [Server.riskCounts Server.matrix].
    destruct (_ || _); [by split|].
    unfold fresh. cbn [Server.riskCounts Server.matrix].
    split; [reflexivity | renamed_step].
  - by split.
Qed.

Lemma server_push_branch_renamed c angleStep b b' branch i :
  renamed gen b b' →
  renamed gen (Server.push_branch (λ n, n) c angleStep b branch i)
          (Server.push_branch gen (gen c) angleStep b' branch i).
Proof.
  intros ->. unfold Server.push_branch.
  unfold fresh, push_node, push_edge, rename_builder. cbn [drawn b_nodes b_edges].
  destruct (_ <? _)%nat; [|renamed_step].
  apply (forEach_related (renamed gen)).
  - intros s s' subtopic j H. unfold Server.push_subtopic. renamed_step.
  - renamed_step.
Qed.

Lemma server_mindmap_renamed description :
  Server.generateMindMapFromDescription gen description
  = rename gen (Server.generateMindMapFromDescription (λ n, n) description).
Proof.
  unfold Server.generateMindMapFromDescription.
  destruct (Server.parse_outline description) as [central branches].
  unfold Server.layout_mindmap. apply rename_finish.
  unfold fresh, empty_builder. cbn [drawn b_nodes b_edges].
  apply (forEach_related (renamed gen)).
  - intros. by apply server_push_branch_renamed.
  - renamed_step.
Qed.

Lemma server_custom_renamed description :
  Server.generateCustomCanvas gen description
  = rename gen (Server.generateCustomCanvas (λ n, n) description).
Proof. reflexivity. Qed.

Lemma erase_rename {Num Col : Type} (g : CanvasDataOf nat Num Col) :
  erase_ids (rename gen g) = erase_ids g.
Proof.
  unfold erase_ids, rename. cbn. f_equal; rewrite map_map; reflexivity.
Qed.

End Renaming.

Lemma same_up_to_ids_intro {I Num Col : Type} (g1 g2 : nat → I)
    (skeleton : CanvasDataOf nat Num Col) out1 out2 :
  out1 = rename g1 skeleton → out2 = rename g2 skeleton →
  same_up_to_ids g1 g2 skeleton out1 out2.
Proof.
  intros -> ->. repeat split. by rewrite !erase_rename.
Qed.

(** C3. The layout generators are deterministic in everything but the
    identifiers.  On the same task list, risk list, central theme and
    branches, or description, the graphs of two runs are renamings of one
    graph, the one whose identifiers are the numbers of the calls that drew
    them; hence without their identifiers they are equal: the same nodes in
    the same order with the same type, position, size, text, label and
    color, and the same edges with the same sides. *)
Theorem layout_deterministic_up_to_ids {I : Type} (g1 g2 : nat → I)
    (lower : jsstring → jsstring) :
  (∀ tasks,
     same_up_to_ids g1 g2
       (Plugin.createTaskboardCanvas (λ n, n) lower tasks)
       (Plugin.createTaskboardCanvas g1 lower tasks)
       (Plugin.createTaskboardCanvas g2 lower tasks))
  ∧ (∀ risks,
       same_up_to_ids g1 g2
         (Plugin.createRiskMatrixCanvas (λ n, n) risks)
         (Plugin.createRiskMatrixCanvas g1 risks)
         (Plugin.createRiskMatrixCanvas g2 risks))
  ∧ (∀ central branches,
       same_up_to_ids g1 g2
         (Plugin.createMindMapCanvas (λ n, n) central branches)
         (Plugin.createMindMapCanvas g1 central branches)
         (Plugin.createMindMapCanvas g2 central branches))
  ∧ (∀ description,
       same_up_to_ids g1 g2
         (Server.generateTaskboardFromDescription (λ n, n) lower description)
         (Server.generateTaskboardFromDescription g1 lower description)
         (Server.generateTaskboardFromDescription g2 lower description))
  ∧ (∀ description,
       same_up_to_ids g1 g2
         (Server.generateRiskMatrixFromDescription (λ n, n) lower description)
         (Server.generateRiskMatrixFromDescription g1 lower description)
         (Server.generateRiskMatrixFromDescription g2 lower description))
  ∧ (∀ description,
       same_up_to_ids g1 g2
         (Server.generateMindMapFromDescription (λ n, n) description)
         (Server.generateMindMapFromDescription g1 description)
         (Server.generateMindMapFromDescription g2 description)).
Proof.
  repeat apply conj; intros; apply same_up_to_ids_intro;
    auto using plugin_taskboard_renamed, plugin_riskmatrix_renamed,
      plugin_mindmap_renamed, server_taskboard_renamed,
      server_riskmatrix_renamed, server_mindmap_renamed.
Qed.

(** ** Sides of the edges *)

Lemma getClosestSide_opposite (ax ay bx by' : R) :
  (ax, ay) ≠ (bx, by') →
  getClosestSide bx by' ax ay = opposite (getClosestSide ax ay bx by').
Proof.
  intros Hne. unfold getClosestSide.
  replace (ax - bx)%R with (- (bx - ax))%R by lra.
  replace (ay - by')%R with (- (by' - ay))%R by lra.
  rewrite !Rabs_Ropp.
  assert (bx - ax ≠ 0 ∨ by' - ay ≠ 0)%R as Hd.
  { destruct (Req_dec ax bx) as [->|]; [|left; lra].
    destruct (Req_dec ay by') as [->|]; [done | right; lra]. }
  destruct (Rgt_dec (Rabs (bx - ax)) (Rabs (by' - ay))) as [Hx|Hy].
  - assert (bx - ax ≠ 0)%R.
    { intros H0. rewrite H0, Rabs_R0 in Hx. pose proof (Rabs_pos (by' - ay)). lra. }
    destruct (Rgt_dec (- (bx - ax)) 0), (Rgt_dec (bx - ax) 0); cbn; try done; lra.
  - assert (by' - ay ≠ 0)%R.
    { intros H0. rewrite H0, Rabs_R0 in Hy.
      destruct Hd as [Hd|Hd]; [|done].
      apply Rabs_pos_lt in Hd. lra. }
    destruct (Rgt_dec (- (by' - ay)) 0), (Rgt_dec (by' - ay) 0); cbn; try done; lra.
Qed.

Section Routing.
Context {I : Type} (gen : nat → I).
Implicit Types b : Builder I R.

Lemma closest_side_routed_weaken (ns ns' : list (CanvasNode I R)) e :
  closest_side_routed ns e → closest_side_routed (ns ++ ns') e.
Proof.
  intros (nf & nt & Hf & Ht & H). exists nf, nt.
  split; [apply elem_of_app; by left|]. split; [apply elem_of_app; by left|]. exact H.
Qed.

Lemma has_anchor_push b d n es i p :
  has_anchor b i p → has_anchor (mkBuilder d (b_nodes b ++ [n]) es) i p.
Proof.
  intros (m & Hm & H). exists m. split; [|exact H].
  cbn. apply elem_of_app. by left.
Qed.

Lemma has_anchor_new b d n es i p :
  node_id n = i → anchor n = p →
  has_anchor (mkBuilder d (b_nodes b ++ [n]) es) i p.
Proof.
  intros Hi Hp. exists n. split; [|done]. cbn.
  apply elem_of_app. right. by apply list_elem_of_singleton.
Qed.

Lemma has_anchor_edges b d es i p :
  has_anchor b i p → has_anchor (mkBuilder d (b_nodes b) es) i p.
Proof. intros (m & Hm & H). by exists m. Qed.

(** A node is pushed, then an edge to it from a node that is there. *)
Lemma routed_step b d n e (px py qx qy : R) :
  routed b → has_anchor b (edge_fromNode e) (px, py) →
  edge_toNode e = node_id n →
  edge_fromSide e = Some (getClosestSide px py qx qy) →
  edge_toSide e = Some (getClosestSide qx qy px py) →
  anchor n = (qx, qy) →
  routed (mkBuilder d (b_nodes b ++ [n]) (b_edges b ++ [e])).
Proof.
  intros Hb (nf & Hnf & Hid & Hp) Hto Hfs Hts Hq. unfold routed. cbn.
  apply Forall_app. split.
  - eapply Forall_impl; [exact Hb|]. intros e'. apply closest_side_routed_weaken.
  - apply Forall_singleton. exists nf, n.
    split; [apply elem_of_app; by left|].
    split; [apply elem_of_app; right; by apply list_elem_of_singleton|].
    rewrite Hp, Hq. cbn. repeat split; try done.
    intros Hne. rewrite Hfs, Hts. cbn. f_equal.
    apply getClosestSide_opposite. congruence.
Qed.

Lemma plugin_push_subtopic_routed branchId bx by' a0 da b subtopic j :
  routed b → has_anchor b branchId (bx, by') →
  routed (Plugin.push_subtopic gen branchId bx by' a0 da b subtopic j).
Proof.
  intros Hb Ha. unfold Plugin.push_subtopic, fresh, push_node, push_edge.
  cbn [drawn b_nodes b_edges].
  eapply routed_step;
    [exact Hb | exact Ha | reflexivity | reflexivity | reflexivity |].
  unfold anchor. cbn. f_equal; lra.
Qed.

Lemma plugin_push_subtopic_anchor branchId bx by' a0 da b subtopic j i p :
  has_anchor b i p →
  has_anchor (Plugin.push_subtopic gen branchId bx by' a0 da b subtopic j) i p.
Proof.
  unfold Plugin.push_subtopic, fresh, push_node, push_edge.
  cbn [drawn b_nodes b_edges]. apply has_anchor_push.
Qed.

Lemma plugin_push_branch_routed centralId angleStep b branch i :
  routed b ∧ has_anchor b centralId (Plugin.centerX, Plugin.centerY) →
  let b' := Plugin.push_branch gen centralId angleStep b branch i in
  routed b' ∧ has_anchor b' centralId (Plugin.centerX, Plugin.centerY).
Proof.
  intros [Hb Ha]. unfold Plugin.push_branch.
  unfold fresh, push_node, push_edge. cbn [drawn b_nodes b_edges].
  match goal with
  | |- context [forEach (Plugin.push_subtopic _ ?id ?x ?y _ _) _ ?b0] =>
      set (bx := x); set (by' := y); set (branchId := id);
      assert (routed b0 ∧ has_anchor b0 branchId (bx, by')
              ∧ has_anchor b0 centralId (Plugin.centerX, Plugin.centerY)) as H0
  end.
  { split; [|split].
    - eapply routed_step;
        [exact Hb | exact Ha | reflexivity | reflexivity | reflexivity |].
      unfold anchor. cbn. f_equal; lra.
    - apply has_anchor_new; [done|].
      unfold anchor. cbn. subst bx by'. f_equal; lra.
    - by apply has_anchor_push. }
  match goal with
  | |- context [forEach ?f ?l ?b0] =>
      assert (routed (forEach f l b0)
              ∧ has_anchor (forEach f l b0) branchId (bx, by')
              ∧ has_anchor (forEach f l b0) centralId (Plugin.centerX, Plugin.centerY))
        as (H1 & _ & H2); [|by split]
  end.
  apply (forEach_invariant
           (λ b, routed b ∧ has_anchor b branchId (bx, by')
                 ∧ has_anchor b centralId (Plugin.centerX, Plugin.centerY)));
    [|exact H0].
  intros s subtopic j (Hs & Hbr & Hc).
  split; [by apply plugin_push_subtopic_routed|].
  split; by apply plugin_push_subtopic_anchor.
Qed.

Lemma plugin_mindmap_routed central branches :
  Forall (closest_side_routed
            (nodes (Plugin.createMindMapCanvas gen central branches)))
    (edges (Plugin.createMindMapCanvas gen central branches)).
Proof.
  unfold Plugin.createMindMapCanvas, fresh, empty_builder, push_node.
  cbn [drawn b_nodes b_edges].
  match goal with
  | |- context [forEach ?f ?l ?b0] =>
      assert (routed (forEach f l b0)
              ∧ has_anchor (forEach f l b0) (gen 0) (Plugin.centerX, Plugin.centerY))
        as [H _]; [|exact H]
  end.
  apply forEach_invariant.
  - intros s branch i Hs. by apply plugin_push_branch_routed.
  - split; [constructor|].
    apply (has_anchor_new (mkBuilder 0 [] [])); [done|].
    unfold anchor. cbn. unfold Plugin.centerX, Plugin.centerY. f_equal; lra.
Qed.

Lemma server_push_subtopic_routed branchId bx by' a0 da b subtopic j :
  routed b → has_anchor b branchId (bx, by') →
  routed (Server.push_subtopic gen branchId bx by' a0 da b subtopic j).
Proof.
  intros Hb Ha. unfold Server.push_subtopic, fresh, push_node, push_edge.
  cbn [drawn b_nodes b_edges].
  eapply routed_step;
    [exact Hb | exact Ha | reflexivity | reflexivity | reflexivity |].
  unfold anchor. cbn. f_equal; lra.
Qed.

Lemma server_push_subtopic_anchor branchId bx by' a0 da b subtopic j i p :
  has_anchor b i p →
  has_anchor (Server.push_subtopic gen branchId bx by' a0 da b subtopic j) i p.
Proof.
  unfold Server.push_subtopic, fresh, push_node, push_edge.
  cbn [drawn b_nodes b_edges]. apply has_anchor_push.
Qed.

Lemma server_push_branch_routed centralId angleStep b branch i :
  routed b ∧ has_anchor b centralId (Server.centerX, Server.centerY) →
  let b' := Server.push_branch gen centralId angleStep b branch i in
  routed b' ∧ has_anchor b' centralId (Server.centerX, Server.centerY).
Proof.
  intros [Hb Ha]. unfold Server.push_branch.
  unfold fresh, push_node, push_edge. cbn [drawn b_nodes b_edges].
  match goal with
  | |- context [forEach (Server.push_subtopic _ ?id ?x ?y _ _) _ ?b0] =>
      set (bx := x); set (by' := y); set (branchId := id);
      assert (routed b0 ∧ has_anchor b0 branchId (bx, by')
              ∧ has_anchor b0 centralId (Server.centerX, Server.centerY)) as H0
  end.
  { split; [|split].
    - eapply routed_step;
        [exact Hb | exact Ha | reflexivity | reflexivity | reflexivity |].
      unfold anchor. cbn. f_equal; lra.
    - apply has_anchor_new; [done|].
      unfold anchor. cbn. subst bx by'. f_equal; lra.
    - by apply has_anchor_push. }
  destruct (_ <? _)%nat; [|by destruct H0 as (? & _ & ?)].
  match goal with
  | |- context [forEach ?f ?l ?b0] =>
      assert (routed (forEach f l b0)
              ∧ has_anchor (forEach f l b0) branchId (bx, by')
              ∧ has_anchor (forEach f l b0) centralId (Server.centerX, Server.centerY))
        as (H1 & _ & H2); [|by split]
  end.
  apply (forEach_invariant
           (λ b, routed b ∧ has_anchor b branchId (bx, by')
                 ∧ has_anchor b centralId (Server.centerX, Server.centerY)));
    [|exact H0].
  intros s subtopic j (Hs & Hbr & Hc).
  split; [by apply server_push_subtopic_routed|].
  split; by apply server_push_subtopic_anchor.
Qed.

Lemma server_layout_mindmap_routed central branches :
  Forall (closest_side_routed (nodes (Server.layout_mindmap gen central branches)))
    (edges (Server.layout_mindmap gen central branches)).
Proof.
  unfold Server.layout_mindmap, fresh, empty_builder, push_node.
  cbn [drawn b_nodes b_edges].
  match goal with
  | |- context [forEach ?f ?l ?b0] =>
      assert (routed (forEach f l b0)
              ∧ has_anchor (forEach f l b0) (gen 0) (Server.centerX, Server.centerY))
        as [H _]; [|exact H]
  end.
  apply forEach_invariant.
  - intros s branch i Hs. by apply server_push_branch_routed.
  - split; [constructor|].
    apply (has_anchor_new (mkBuilder 0 [] [])); [done|].
    unfold anchor. cbn. unfold Server.centerX, Server.centerY. f_equal; lra.
Qed.

Lemma server_mindmap_routed description :
  Forall (closest_side_routed
            (nodes (Server.generateMindMapFromDescription gen description)))
    (edges (Server.generateMindMapFromDescription gen description)).
Proof.
  unfold Server.generateMindMapFromDescription.
  destruct (Server.parse_outline description) as [central branches].
  apply server_layout_mindmap_routed.
Qed.

End Routing.

(** C10. Seen from either of two distinct points, the other lies on
    opposite sides.  Every edge of a mind map of either file joins two nodes
    of the graph and carries the closest sides computed between the centres
    of their rectangles, so its two sides are opposite whenever the two
    centres differ. *)
Theorem closest_sides_are_opposite :
  (∀ ax ay bx by' : R,
     (ax, ay) ≠ (bx, by') →
     getClosestSide bx by' ax ay = opposite (getClosestSide ax ay bx by'))
  ∧ (∀ (I : Type) (gen : nat → I) central branches,
       let out := Plugin.createMindMapCanvas gen central branches in
       Forall (closest_side_routed (nodes out)) (edges out))
  ∧ (∀ (I : Type) (gen : nat → I) description,
       let out := Server.generateMindMapFromDescription gen description in
       Forall (closest_side_routed (nodes out)) (edges out)).
Proof.
  split; [exact getClosestSide_opposite|]. split.
  - intros I gen central branches. apply plugin_mindmap_routed.
  - intros I gen description. apply server_mindmap_routed.
Qed.

(** ** Subtopics of a mind map *)

Lemma forEach_from_count {A St : Type} (size : St → nat) (cost : A → nat)
    (f : St → A → nat → St) (l : list A) :
  (∀ s a i, size (f s a i) = size s + cost a) →
  ∀ i s, size (forEach_from i f l s) = size s + sum_list (map cost l).
Proof.
  intros Hf. induction l as [|a l IH]; intros i s; cbn; [lia|].
  rewrite IH, Hf. lia.
Qed.

Section SubtopicCounts.
Context {I : Type} (gen : nat → I).

Lemma server_push_branch_count centralId angleStep b branch i :
  length (b_nodes (Server.push_branch gen centralId angleStep b branch i))
  = length (b_nodes b) + (1 + 5 `min` length (subtopics branch)).
Proof.
  unfold Server.push_branch, fresh, push_node, push_edge.
  cbn [drawn b_nodes b_edges].
  destruct (subtopics branch) as [|s ss] eqn:Hs.
  - cbn [length Nat.ltb Nat.leb b_nodes]. rewrite length_app. cbn [length]. lia.
  - replace (0 <? length (s :: ss)) with true by done.
    unfold forEach.
    rewrite (forEach_from_count (λ b, length (b_nodes b)) (λ _, 1)).
    + cbn [b_nodes]. rewrite length_app, sum_list_fmap_const, length_take.
      cbn [length]. lia.
    + intros s0 a j. unfold Server.push_subtopic, fresh, push_node, push_edge.
      cbn [drawn b_nodes b_edges]. rewrite length_app. cbn. lia.
Qed.

Lemma server_mindmap_node_count central branches :
  length (nodes (Server.layout_mindmap gen central branches))
  = 1 + sum_list (map (λ branch, 1 + 5 `min` length (subtopics branch)) branches).
Proof.
  unfold Server.layout_mindmap, fresh, push_node, empty_builder, finish, forEach.
  cbn [drawn b_nodes b_edges nodes].
  rewrite (forEach_from_count (λ b, length (b_nodes b))
             (λ branch, 1 + 5 `min` length (subtopics branch))).
  - reflexivity.
  - intros. apply server_push_branch_count.
Qed.

Lemma plugin_mindmap_node_count central branches :
  length (nodes (Plugin.createMindMapCanvas gen central branches))
  = 1 + sum_list (map (λ branch, 1 + length (subtopics branch)) branches).
Proof.
  unfold Plugin.createMindMapCanvas, fresh, push_node, empty_builder, finish, forEach.
  cbn [drawn b_nodes b_edges nodes].
  rewrite (forEach_from_count (λ b, length (b_nodes b))
             (λ branch, 1 + length (subtopics branch))).
  - reflexivity.
  - intros s branch i. unfold Plugin.push_branch, fresh, push_node, push_edge, forEach.
    cbn [drawn b_nodes b_edges].
    rewrite (forEach_from_count (λ b, length (b_nodes b)) (λ _, 1)).
    + cbn [b_nodes]. rewrite length_app. cbn [length].
      rewrite sum_list_fmap_const. lia.
    + intros s0 a j. unfold Plugin.push_subtopic, fresh, push_node, push_edge.
      cbn [drawn b_nodes b_edges]. rewrite length_app. cbn. lia.
Qed.

End SubtopicCounts.

(** C5, on the plugin.  A branch with six subtopics: the plugin renders all
    six (a central node, the branch and six subtopic nodes, seven edges),
    where the server, on the same branch, renders five. *)
Theorem plugin_mindmap_renders_sixth_subtopic :
  length (subtopics six_subtopics) = 6
  ∧ length (nodes (Plugin.createMindMapCanvas (λ n : nat, n) (js "theme")
                     [six_subtopics])) = 8
  ∧ length (edges (Plugin.createMindMapCanvas (λ n : nat, n) (js "theme")
                     [six_subtopics])) = 7
  ∧ length (nodes (Server.layout_mindmap (λ n : nat, n) (js "theme")
                     [six_subtopics])) = 7.
Proof. repeat split; reflexivity. Qed.

(** ** Paths of the vault *)

(** What [resolvePath] checks of the path it returns. *)
Lemma resolvePath_prefix cwd vaultPath relativePath resolved :
  Vault.resolvePath cwd vaultPath relativePath = Vault.Path resolved →
  startsWith resolved vaultPath = true.
Proof.
  unfold Vault.resolvePath.
  destruct (startsWith _ vaultPath) eqn:E; cbn; [|done].
  by intros [= <-].
Qed.

(** When [resolvePath] raises, no operation reaches the file system. *)
Lemma rejected_path_no_access cwd vaultPath relativePath append :
  Vault.resolvePath cwd vaultPath relativePath = Vault.PathTraversalError →
  Vault.readNote cwd vaultPath relativePath = Vault.Rejects
  ∧ Vault.createNote cwd vaultPath relativePath = Vault.Rejects
  ∧ Vault.updateNote cwd vaultPath relativePath append = Vault.Rejects
  ∧ Vault.deleteNote cwd vaultPath relativePath = Vault.Rejects
  ∧ Vault.createFolder cwd vaultPath relativePath = Vault.Rejects
  ∧ Vault.readCanvas cwd vaultPath relativePath = Vault.Rejects
  ∧ Vault.writeCanvas cwd vaultPath relativePath = Vault.Rejects.
Proof.
  intros H.
  unfold Vault.readNote, Vault.createNote, Vault.updateNote, Vault.deleteNote,
    Vault.createFolder, Vault.readCanvas, Vault.writeCanvas, Vault.with_resolved.
  rewrite H. repeat split.
Qed.

(** C4, failing input.  With the vault at [/vault], the relative path
    [../vault-evil/x] resolves to [/vault-evil/x], which is outside the
    directory [/vault], and [resolvePath] returns it, because the text of
    the resolved path starts with the text of the vault path; the seven
    operations go on to the file system with it.  A path such as
    [../etc/passwd] is rejected. *)
Theorem resolvePath_accepts_sibling_of_vault :
  let cwd := js "/home/user" in
  let vault := js "/vault" in
  let evil := js "../vault-evil/x" in
  Vault.resolvePath cwd vault evil = Vault.Path (js "/vault-evil/x")
  ∧ Vault.inside_directory vault (js "/vault-evil/x") = false
  ∧ Vault.readNote cwd vault evil
    = Vault.Calls (Vault.fs_readFile (js "/vault-evil/x"))
  ∧ Vault.createNote cwd vault evil
    = Vault.Calls (Vault.fs_access (js "/vault-evil/x.md"))
  ∧ Vault.updateNote cwd vault evil false
    = Vault.Calls (Vault.fs_writeFile (js "/vault-evil/x"))
  ∧ Vault.deleteNote cwd vault evil
    = Vault.Calls (Vault.fs_unlink (js "/vault-evil/x"))
  ∧ Vault.createFolder cwd vault evil
    = Vault.Calls (Vault.fs_mkdir (js "/vault-evil/x"))
  ∧ Vault.readCanvas cwd vault evil
    = Vault.Calls (Vault.fs_readFile (js "/vault-evil/x"))
  ∧ Vault.writeCanvas cwd vault evil
    = Vault.Calls (Vault.fs_mkdir_dirname (js "/vault-evil/x.canvas"))
  ∧ Vault.resolvePath cwd vault (js "../etc/passwd") = Vault.PathTraversalError.
Proof. repeat split; vm_compute; reflexivity. Qed.

Local Open Scope Z_scope.

(** ** The taskboard of the server *)

(** A line without a column keyword leaves the cursor where it is. *)
Lemma cursor_is_sticky {I : Type} (gen : nat → I) lower st line i :
  Forall (λ keyword, includes (lower line) (js keyword) = false)
    ["todo"; "to do"; "pending"; "in progress"; "working"; "review"; "testing";
     "done"; "complete"]%string →
  Server.currentColumn (Server.task_line gen lower st line i)
  = Server.currentColumn st.
Proof.
  intros H. repeat (apply Forall_cons in H as [? H]).
  unfold Server.task_line.
  repeat match goal with E : includes _ _ = false |- _ => rewrite E; clear E end.
  cbn [orb].
  destruct (_ || _); [reflexivity|].
  match goal with
  | |- context [let '(_, _) := ?t in _] => destruct t as [priority color]
  end.
  reflexivity.
Qed.

(** C7. The three-line description yields the four column groups and three
    text nodes and no edge: the task of line 1 lies in column 0 (To Do) with
    color token 1, the task of line 2 lies in column 0 as well, below it,
    with priority medium and no color, and the task of line 3 lies in
    column 3 (Done), to which the word done moved the cursor. *)
Theorem taskboard_scenario {I : Type} (gen : nat → I) :
  let out := Server.generateTaskboardFromDescription gen ascii_toLowerCase
               taskboard_description in
  let fix_login :=
    mkNode (gen 4%nat) Text 20 60 210 80
      (Some (task_text "Fix login bug (high)" "high")) None (Some (js "1")) in
  let write_docs :=
    mkNode (gen 5%nat) Text 20 150 210 80
      (Some (task_text "Write docs" "medium")) None None in
  let deploy :=
    mkNode (gen 6%nat) Text 830 60 210 80
      (Some (task_text "done: deploy to prod" "medium")) None None in
  edges out = []
  ∧ nodes out = column_groups gen ++ [fix_login; write_docs; deploy]
  ∧ length (filter is_group (nodes out)) = 4%nat
  ∧ length (filter is_text (nodes out)) = 3%nat
  ∧ map (within fix_login) (column_groups gen) = [true; false; false; false]
  ∧ map (within write_docs) (column_groups gen) = [true; false; false; false]
  ∧ map (within deploy) (column_groups gen) = [false; false; false; true].
Proof. vm_compute. repeat split; reflexivity. Qed.

Lemma short_lines_push_nothing {I : Type} (gen : nat → I) lower lines :
  Forall (λ line, (length (trim (strip_bullet line)) < 3)%nat) lines →
  ∀ i st,
    Server.board (forEach_from i (Server.task_line gen lower) lines st)
    = Server.board st.
Proof.
  induction 1 as [|line lines Hshort _ IH]; intros i st; [done|].
  cbn [forEach_from]. rewrite IH. unfold Server.task_line.
  replace (length (trim (strip_bullet line)) <? 3)%nat with true
    by (symmetry; by apply Nat.ltb_lt).
  by rewrite orb_true_r.
Qed.

(** C8. When no line of the description survives as a task, the taskboard
    consists of the four column groups and one placeholder text node whose
    text quotes the first 100 code units of the description: five nodes. *)
Theorem taskboard_placeholder {I : Type} (gen : nat → I)
    (lower : jsstring → jsstring) (description : jsstring) :
  Forall (λ line, (length (trim (strip_bullet line)) < 3)%nat)
    (nonblank_lines description) →
  let out := Server.generateTaskboardFromDescription gen lower description in
  nodes out
  = column_groups gen
    ++ [mkNode (gen 4%nat) Text 20 60 210 80
          (Some (js "Add tasks from:" ++ [Char.lf; Char.lf]
                 ++ substring0 100 description ++ js "..."))
          None None]
  ∧ length (nodes out) = 5%nat
  ∧ length (filter is_group (nodes out)) = 4%nat
  ∧ length (filter is_text (nodes out)) = 1%nat.
Proof.
  intros Hshort out.
  assert (nodes out
          = column_groups gen
            ++ [mkNode (gen 4%nat) Text 20%Z 60%Z 210%Z 80%Z
                  (Some (js "Add tasks from:" ++ [Char.lf; Char.lf]
                         ++ substring0 100 description ++ js "..."))
                  None None]) as ->.
  { subst out. unfold Server.generateTaskboardFromDescription, forEach.
    rewrite (short_lines_push_nothing gen lower _ Hshort). reflexivity. }
  repeat split; reflexivity.
Qed.

(** A description made of a blank line and two bullets too short to be
    tasks. *)
Lemma taskboard_placeholder_witness :
  let description := js "  " ++ [Char.lf] ++ js "- a" ++ [Char.lf] ++ js "* ok" in
  Forall (λ line, (length (trim (strip_bullet line)) < 3)%nat)
    (nonblank_lines description)
  ∧ length (nodes (Server.generateTaskboardFromDescription (λ n, n)
                     ascii_toLowerCase description)) = 5%nat.
Proof.
  assert (Forall (λ line, (length (trim (strip_bullet line)) < 3)%nat)
            (nonblank_lines (js "  " ++ [Char.lf] ++ js "- a" ++ [Char.lf]
                             ++ js "* ok"))) as H.
  { vm_compute. repeat constructor. }
  split; [exact H|].
  exact (proj1 (proj2 (taskboard_placeholder (λ n, n) ascii_toLowerCase _ H))).
Defined.

(** ** The risk matrix of the server *)

(** With its two axis labels the graph of the two-line description has
    four text nodes, thirteen nodes in all: it does not consist of nine
    group cells and two text nodes. *)
Lemma risk_scenario_not_eleven_nodes :
  let out := Server.generateRiskMatrixFromDescription (λ n : nat, n)
               ascii_toLowerCase risk_description in
  ¬ (length (filter is_group (nodes out)) = 9%nat
     ∧ length (filter is_text (nodes out)) = 2%nat
     ∧ length (nodes out) = 11%nat).
Proof. vm_compute. intros (_ & H & _). discriminate H. Qed.

(** C6, amended.  The two-line description yields thirteen nodes and no
    edge: the two axis labels, the nine group cells, and one text node per
    line.  The node of line 1 lies in the cell of high impact and high
    likelihood and has color 1; the node of line 2 lies in the cell of low
    impact and medium likelihood and has color 4; the scores are 9 and 2. *)
Theorem risk_scenario {I : Type} (gen : nat → I) :
  let out := Server.generateRiskMatrixFromDescription gen ascii_toLowerCase
               risk_description in
  let outage :=
    mkNode (gen 11%nat) Text 560 20 100 40
      (Some (js "Server outage - high impact, likely")) None (Some (js "1")) in
  let glitch :=
    mkNode (gen 12%nat) Text 290 460 100 40
      (Some (js "Minor UI glitch - low impact")) None (Some (js "4")) in
  let high_high := risk_cell gen 10 540 0 "HI / HL" "1" in
  let low_medium := risk_cell gen 3 270 440 "LI / ML" "4" in
  edges out = []
  ∧ nodes out
    = [ mkNode (gen 0%nat) Text (-100) 220 80 40 (Some (js "**Impact**")) None None;
        mkNode (gen 1%nat) Text 270 680 100 40 (Some (js "**Likelihood**")) None None;
        risk_cell gen 2 0 440 "LI / LL" "4"; low_medium; risk_cell gen 4 540 440 "LI / HL" "2";
        risk_cell gen 5 0 220 "MI / LL" "4"; risk_cell gen 6 270 220 "MI / ML" "2";
        risk_cell gen 7 540 220 "MI / HL" "1";
        risk_cell gen 8 0 0 "HI / LL" "2"; risk_cell gen 9 270 0 "HI / ML" "1"; high_high;
        outage; glitch ]
  ∧ length (filter is_group (nodes out)) = 9%nat
  ∧ length (filter is_text (nodes out)) = 4%nat
  ∧ filter (within outage) (filter is_group (nodes out)) = [high_high]
  ∧ filter (within glitch) (filter is_group (nodes out)) = [low_medium]
  ∧ (level_index high + 1) * (level_index high + 1) = 9
  ∧ getRiskColor high high = js "1"
  ∧ (level_index low + 1) * (level_index medium + 1) = 2
  ∧ getRiskColor low medium = js "4".
Proof. vm_compute. repeat split; reflexivity. Qed.

Local Close Scope Z_scope.
(** ** The reply of the model *)

Lemma trimStart_blank_app ws s : blank ws → trimStart (ws ++ s) = trimStart s.
Proof. induction 1 as [|c ws Hc _ IH]; [done|]. cbn. by rewrite Hc. Qed.

Lemma trimStart_length s : length (trimStart s) ≤ length s.
Proof. induction s as [|c s IH]; cbn; [lia|]. destruct (is_space c); cbn; lia. Qed.

Lemma trimStart_fixed s : length (trimStart s) = length s → trimStart s = s.
Proof.
  destruct s as [|c s]; [done|]. cbn. destruct (is_space c); [|done].
  pose proof (trimStart_length s). lia.
Qed.

Lemma trimEnd_length s : length (trimEnd s) ≤ length s.
Proof.
  unfold trimEnd. rewrite length_reverse.
  etrans; [apply trimStart_length|]. by rewrite length_reverse.
Qed.

Lemma trimEnd_fixed s : length (trimEnd s) = length s → trimEnd s = s.
Proof.
  unfold trimEnd. rewrite length_reverse. intros H.
  rewrite trimStart_fixed; [apply reverse_involutive|]. by rewrite length_reverse.
Qed.

Lemma trim_fixed s : trim s = s → trimStart s = s ∧ trimEnd s = s.
Proof.
  unfold trim. intros H.
  assert (trimStart s = s) as Hs.
  { apply trimStart_fixed. pose proof (trimStart_length s).
    pose proof (trimEnd_length (trimStart s)). rewrite H in *. lia. }
  split; [done|]. by rewrite Hs in H.
Qed.

Lemma trimEnd_blank_app s ws : blank ws → trimEnd (s ++ ws) = trimEnd s.
Proof.
  intros H. unfold trimEnd. rewrite reverse_app, trimStart_blank_app; [done|].
  unfold blank. by apply Forall_reverse.
Qed.

Lemma trimStart_fixed_head c s : trimStart (c :: s) = c :: s → is_space c = false.
Proof.
  cbn. destruct (is_space c); [|done]. intros H.
  pose proof (trimStart_length s) as Hl. rewrite H in Hl. cbn in Hl. lia.
Qed.

Lemma trimStart_head s : trimStart s = s → ∀ t, s ≠ [] → trimStart (s ++ t) = s ++ t.
Proof.
  destruct s as [|c s]; [done|]. intros H%trimStart_fixed_head t _.
  cbn. by rewrite H.
Qed.

Lemma trimStart_blank ws : blank ws → trimStart ws = [].
Proof. induction 1 as [|c ws Hc _ IH]; [done|]. cbn. by rewrite Hc. Qed.

Lemma trim_padded ws1 body ws2 :
  blank ws1 → blank ws2 → trim body = body → trim (ws1 ++ body ++ ws2) = body.
Proof.
  intros H1 H2 [Hs He]%trim_fixed. unfold trim.
  rewrite trimStart_blank_app by done.
  destruct body as [|c body]; [cbn [app]; rewrite trimStart_blank by done; reflexivity|].
  rewrite trimStart_head by done. by rewrite trimEnd_blank_app.
Qed.

Lemma trimStart_idemp s : trimStart (trimStart s) = trimStart s.
Proof.
  induction s as [|c s IH]; [done|]. cbn. destruct (is_space c) eqn:E; [done|].
  cbn. by rewrite E.
Qed.

Lemma trimStart_suffix s : ∃ ws, blank ws ∧ s = ws ++ trimStart s.
Proof.
  induction s as [|c s (ws & Hws & IH)]; [exists []; by split; [constructor|]|].
  cbn [trimStart]. destruct (is_space c) eqn:E.
  - exists (c :: ws). split; [by constructor|]. cbn [app]. by rewrite <- IH.
  - exists []. by split; [constructor|].
Qed.

Lemma trimEnd_prefix s : ∃ ws, blank ws ∧ s = trimEnd s ++ ws.
Proof.
  destruct (trimStart_suffix (reverse s)) as (ws & Hws & H).
  exists (reverse ws). split; [by apply Forall_reverse|].
  unfold trimEnd. rewrite <- reverse_app, <- H. by rewrite reverse_involutive.
Qed.

Lemma trim_idemp s : trim (trim s) = trim s.
Proof.
  unfold trim.
  assert (trimStart (trimEnd (trimStart s)) = trimEnd (trimStart s)) as ->.
  { pose proof (trimStart_idemp s) as Hi.
    destruct (trimEnd_prefix (trimStart s)) as (ws & Hws & E).
    destruct (trimEnd (trimStart s)) as [|c core] eqn:Ec; [done|].
    rewrite E in Hi. cbn [app] in Hi. apply trimStart_fixed_head in Hi.
    cbn. by rewrite Hi. }
  unfold trimEnd. by rewrite reverse_involutive, trimStart_idemp.
Qed.

Lemma drop_startsWith p s : startsWith (p ++ s) p = true.
Proof. induction p as [|c p IH]; [by destruct s|]. cbn. by rewrite N.eqb_refl. Qed.

Lemma endsWith_app s p : Vault.endsWith (s ++ p) p = true.
Proof. unfold Vault.endsWith. rewrite reverse_app. apply drop_startsWith. Qed.

Lemma trimEnd_last s c : is_space c = false → trimEnd (s ++ [c]) = s ++ [c].
Proof.
  intros H. unfold trimEnd. rewrite reverse_app, reverse_singleton. cbn [app trimStart].
  rewrite H. by rewrite reverse_cons, reverse_involutive.
Qed.

(** X1. A reply that consists of a code block fenced with three backquotes
    and the word json, with white space around the fences and around the
    body, is cleaned to the body. *)
Theorem strip_code_fence_unwraps (lead gap1 body gap2 tail : jsstring) :
  blank lead → blank gap1 → blank gap2 → blank tail → trim body = body →
  strip_code_fence (lead ++ js "```json" ++ gap1 ++ body ++ gap2 ++ js "```" ++ tail)
  = body.
Proof.
  intros Hl H1 H2 Ht Hb. unfold strip_code_fence.
  assert (trim (lead ++ js "```json" ++ gap1 ++ body ++ gap2 ++ js "```" ++ tail)
          = js "```json" ++ gap1 ++ body ++ gap2 ++ js "```") as ->.
  { replace (lead ++ js "```json" ++ gap1 ++ body ++ gap2 ++ js "```" ++ tail)
      with (lead ++ (js "```json" ++ gap1 ++ body ++ gap2 ++ js "```") ++ tail)
      by by rewrite <- !app_assoc.
    apply trim_padded; [done..|].
    unfold trim. rewrite (trimStart_head (js "```json")) by done.
    replace (js "```") with (js "``" ++ [96%N]) by done.
    rewrite !app_assoc. by apply trimEnd_last. }
  rewrite drop_startsWith.
  replace (drop 7 (js "```json" ++ gap1 ++ body ++ gap2 ++ js "```"))
    with (gap1 ++ body ++ gap2 ++ js "```") by done.
  rewrite !app_assoc, endsWith_app, length_app.
  replace (length (js "```")) with 3 by done.
  rewrite Nat.add_sub, take_app_length, <- app_assoc.
  by apply trim_padded.
Qed.

Lemma strip_code_fence_unwraps_witness :
  strip_code_fence (js "```json" ++ [Char.lf] ++ js "{ }" ++ [Char.lf] ++ js "```"
                    ++ [Char.lf])
  = js "{ }".
Proof.
  apply (strip_code_fence_unwraps [] [Char.lf] (js "{ }") [Char.lf] [Char.lf]);
    try reflexivity; by repeat constructor.
Defined.

Lemma startsWith_app_l s p q : startsWith s (p ++ q) = true → startsWith s p = true.
Proof.
  revert s. induction p as [|c p IH]; intros s; [by destruct s|].
  destruct s as [|d s]; [done|]. cbn.
  intros [-> H]%andb_true_iff. by rewrite (IH _ H).
Qed.

(** X2. The cleaned text is trimmed, and a reply that neither starts nor
    ends with a fence after trimming is only trimmed. *)
Theorem strip_code_fence_trimmed (s : jsstring) :
  trim (strip_code_fence s) = strip_code_fence s
  ∧ (startsWith (trim s) (js "```") = false →
     Vault.endsWith (trim s) (js "```") = false →
     strip_code_fence s = trim s).
Proof.
  split; [unfold strip_code_fence; apply trim_idemp|].
  intros Hs He. unfold strip_code_fence.
  assert (startsWith (trim s) (js "```json") = false) as ->.
  { destruct (startsWith (trim s) (js "```json")) eqn:E; [|done].
    apply (startsWith_app_l _ (js "```") (js "json")) in E. congruence. }
  rewrite Hs, He. apply trim_idemp.
Qed.

(** ** The validator on its own result *)

Section Complete.
Context (gen : nat → jsstring) (Hgen : ∀ k, gen k ≠ []).

Lemma carry_present v : present_truthy (Plugin.carry v).
Proof. unfold Plugin.carry, present_truthy. destruct (truthy v) eqn:E; naive_solver. Qed.

Lemma id_or_fresh_truthy v k : truthy (Plugin.id_or_fresh gen v k).1 = true.
Proof using Hgen.
  unfold Plugin.id_or_fresh. destruct (truthy v) eqn:E; [done|]. cbn.
  rewrite bool_decide_eq_false_2; [done | apply Hgen].
Qed.

Lemma fix_node_complete node k : node_complete (Plugin.fix_node gen node k).1.
Proof using Hgen.
  unfold Plugin.fix_node. pose proof (id_or_fresh_truthy (raw_id node) k) as Hid.
  destruct (Plugin.id_or_fresh gen (raw_id node) k) as [id k']. cbn in *.
  repeat split; try apply carry_present; [done|].
  by destruct (truthy (raw_type node)) eqn:E.
Qed.

Lemma map_elements_image {A B : Type} (f : A → nat → B * nat) l :
  ∀ drawn bs drawn',
    Plugin.map_elements f l drawn = Returns (bs, drawn') →
    Forall2 (λ a b, ∃ k, b = (f a k).1) (entries l) bs.
Proof.
  induction l as [|[|a] l IH]; intros drawn bs drawn'; cbn [Plugin.map_elements].
  - intros [= <- <-]. constructor.
  - done.
  - destruct (f a drawn) as [b k] eqn:E.
    destruct (Plugin.map_elements f l k) as [[bs' k']|] eqn:Hl; [|done].
    intros [= <- <-]. rewrite entries_element. constructor; [|by eapply IH].
    exists drawn. by rewrite E.
Qed.

Lemma image_Forall {A B : Type} (f : A → nat → B * nat) (Q : A → Prop)
    (P : B → Prop) (l : list A) (bs : list B) :
  (∀ a k, Q a → P (f a k).1) → Forall Q l →
  Forall2 (λ a b, ∃ k, b = (f a k).1) l bs → Forall P bs.
Proof.
  intros Hf Hl H. induction H as [|a b l bs (k & ->) _ IH]; constructor.
  - apply Hf. by apply Forall_cons in Hl as [? _].
  - apply IH. by apply Forall_cons in Hl as [_ ?].
Qed.

Lemma validate_complete data out :
  Plugin.validateAndFixCanvasData gen data = Returns out → canvas_complete out.
Proof using Hgen.
  unfold Plugin.validateAndFixCanvasData.
  destruct (Plugin.or_empty (raw_nodes data)) as [rawNodes|]; [|done].
  destruct (Plugin.map_elements _ rawNodes 0) as [[nodes drawn]|] eqn:Hnodes; [|done].
  destruct (Plugin.or_empty (raw_edges data)) as [rawEdges|]; [|done].
  destruct (Plugin.filter_elements _ rawEdges) as [kept|] eqn:Hkept; [|done].
  destruct (Plugin.map_elements _ kept drawn) as [[edges drawn']|] eqn:Hedges; [|done].
  intros [= <-]. split; cbn [fixed_nodes fixed_edges].
  - apply map_elements_image in Hnodes.
    eapply (image_Forall _ (λ _, True)); [| |exact Hnodes].
    + intros a k _. apply fix_node_complete.
    + by apply Forall_true.
  - apply map_elements_image in Hedges.
    apply filter_elements_entries in Hkept. rewrite Hkept in Hedges.
    eapply (image_Forall _ (λ a, raw_fromNode a ∈ map fixed_id nodes
                                 ∧ raw_toNode a ∈ map fixed_id nodes));
      [| |exact Hedges].
    + intros a k [Hf Ht]. unfold Plugin.fix_edge.
      pose proof (id_or_fresh_truthy (raw_edge_id a) k) as Hid.
      destruct (Plugin.id_or_fresh gen (raw_edge_id a) k) as [id k']. cbn in *.
      repeat split; try apply carry_present; done.
    + apply Forall_forall. intros a [Ha _]%list_elem_of_filter.
      apply andb_true_iff in Ha as [H1 H2].
      apply bool_decide_eq_true in H1, H2.
      by rewrite !elem_of_list_to_set in H1, H2.
Qed.

End Complete.

Section Again.
Context (gen : nat → jsstring).

Lemma read_member_carry m : present_truthy m → Plugin.carry (read_member m) = m.
Proof.
  unfold present_truthy, Plugin.carry, read_member. destruct m as [v|]; cbn.
  - intros H. by rewrite (H v eq_refl).
  - done.
Qed.

Lemma fix_node_again n k :
  node_complete n → Plugin.fix_node gen (node_as_raw n) k = (n, k).
Proof.
  intros (Hid & Hty & Ht & Hf & Hl & Hc). unfold Plugin.fix_node, Plugin.id_or_fresh.
  cbn. rewrite Hid, Hty, !read_member_carry by done. by destruct n.
Qed.

Lemma fix_edge_again ids e k :
  edge_complete ids e → Plugin.fix_edge gen (edge_as_raw e) k = (e, k).
Proof.
  intros (Hid & _ & _ & Hf & Ht & Hl & Hc). unfold Plugin.fix_edge, Plugin.id_or_fresh.
  cbn. rewrite Hid, !read_member_carry by done. by destruct e.
Qed.

Lemma map_elements_again {A B : Type} (f : A → nat → B * nat) (g : B → A)
    (P : B → Prop) (bs : list B) k :
  (∀ b k, P b → f (g b) k = (b, k)) → Forall P bs →
  Plugin.map_elements f (map (λ b, element (g b)) bs) k = Returns (bs, k).
Proof.
  intros Hf. induction 1 as [|b bs Hb _ IH]; [done|].
  cbn. by rewrite Hf, IH.
Qed.

Lemma filter_elements_all {A : Type} (p : A → bool) (l : list A) :
  Forall (λ a, p a = true) l →
  Plugin.filter_elements p (map element l) = Returns (map element l).
Proof. induction 1 as [|a l Ha _ IH]; [done|]. cbn. by rewrite IH, Ha. Qed.

Lemma validate_again c :
  canvas_complete c →
  Plugin.validateAndFixCanvasData gen (canvas_as_raw c) = Returns c.
Proof.
  intros [Hn He]. unfold Plugin.validateAndFixCanvasData, canvas_as_raw.
  cbn [raw_nodes raw_edges Plugin.or_empty].
  rewrite (map_elements_again _ node_as_raw node_complete) by
    (done || intros; by apply fix_node_again).
  rewrite <- (map_map edge_as_raw element).
  rewrite filter_elements_all.
  - rewrite map_map.
    rewrite (map_elements_again _ edge_as_raw
               (edge_complete (map fixed_id (fixed_nodes c)))) by
      (done || intros; by eapply fix_edge_again).
    by destruct c.
  - apply Forall_fmap. eapply Forall_impl; [exact He|].
    intros e (_ & Hf & Ht & _). cbn.
    apply andb_true_iff. split; apply bool_decide_eq_true;
      by rewrite elem_of_list_to_set.
Qed.

End Again.

(** X3. When the generator never returns the empty string, the result of
    the validator is complete: every id and type is truthy, every optional
    member that is present is truthy, and both ends of every edge are ids of
    nodes.  Validating such a result again returns it unchanged and draws
    no identifier. *)
Theorem validator_is_idempotent (gen gen' : nat → jsstring) (data : RawCanvas)
    (out : FixedCanvas) :
  (∀ k, gen k ≠ []) →
  Plugin.validateAndFixCanvasData gen data = Returns out →
  canvas_complete out
  ∧ Plugin.validateAndFixCanvasData gen' (canvas_as_raw out) = Returns out.
Proof.
  intros Hgen Hout. pose proof (validate_complete gen Hgen data out Hout) as H.
  split; [exact H | by apply validate_again].
Qed.

Lemma validator_is_idempotent_witness :
  canvas_complete
    (mkFixedCanvas
       [mkFixedNode (VStr (js "a")) (VStr (js "text")) 0 0 200 100 None None None None;
        mkFixedNode (VStr (js "a")) (VStr (js "text")) 0 0 200 100 None None None None]
       [])
  ∧ Plugin.validateAndFixCanvasData (λ _, js "y")
      (canvas_as_raw
         (mkFixedCanvas
            [mkFixedNode (VStr (js "a")) (VStr (js "text")) 0 0 200 100
               None None None None;
             mkFixedNode (VStr (js "a")) (VStr (js "text")) 0 0 200 100
               None None None None]
            []))
    = Returns
        (mkFixedCanvas
           [mkFixedNode (VStr (js "a")) (VStr (js "text")) 0 0 200 100
              None None None None;
            mkFixedNode (VStr (js "a")) (VStr (js "text")) 0 0 200 100
              None None None None]
           []).
Proof.
  apply (validator_is_idempotent (λ _, js "x") (λ _, js "y") duplicate_id_document).
  - done.
  - reflexivity.
Defined.

(** ** The colours of the risk grid *)

(** X4. The colour of a cell does not depend on which of the two levels is
    the impact, and it never becomes less severe when a level is raised: above
    a red cell (token 1) all cells are red, below a green cell (token 4) all
    cells are green. *)
Theorem getRiskColor_monotone (i l i' l' : Level) :
  level_le i i' → level_le l l' →
  getRiskColor i l = getRiskColor l i
  ∧ (getRiskColor i l = js "1" → getRiskColor i' l' = js "1")
  ∧ (getRiskColor i' l' = js "4" → getRiskColor i l = js "4").
Proof.
  unfold level_le.
  destruct i, l, i', l'; cbn; intros Hi Hl; try lia; repeat split; done.
Qed.

Lemma getRiskColor_monotone_witness :
  getRiskColor medium high = getRiskColor high medium
  ∧ (getRiskColor medium high = js "1" → getRiskColor high high = js "1")
  ∧ (getRiskColor high high = js "4" → getRiskColor medium high = js "4").
Proof. apply getRiskColor_monotone; unfold level_le; cbn; lia. Defined.

(** ** File names *)

Lemma replace_reserved_fixed s :
  Forall clean_char s → replace_reserved s = s.
Proof.
  induction 1 as [|c s [Hr _] _ IH]; [done|].
  unfold replace_reserved in *. cbn. by rewrite Hr, IH.
Qed.

Lemma replace_space_runs_from_fixed b s :
  Forall clean_char s → replace_space_runs_from b s = s.
Proof.
  intros H. revert b. induction H as [|c s [_ Hs] _ IH]; intros b; [done|].
  cbn. by rewrite Hs, IH.
Qed.

Lemma replace_reserved_length s : length (replace_reserved s) = length s.
Proof. unfold replace_reserved. by rewrite length_map. Qed.

Lemma replace_space_runs_from_length b s :
  length (replace_space_runs_from b s) ≤ length s.
Proof.
  revert b. induction s as [|c s IH]; intros b; cbn; [lia|].
  destruct (is_space c); [destruct b|]; cbn;
    [pose proof (IH true) | pose proof (IH true) | pose proof (IH false)]; lia.
Qed.

(** X5. [sanitizeFilename] leaves a name unchanged exactly when the name
    has at most 100 code units, none of them reserved or white space; its
    result is never longer than the name or than 100 code units. *)
Theorem sanitizeFilename_fixed_points (s : jsstring) :
  (sanitizeFilename s = s ↔ Forall clean_char s ∧ length s ≤ 100)
  ∧ length (sanitizeFilename s) ≤ length s `min` 100.
Proof.
  split; [split|].
  - intros H. split.
    + rewrite <- H. apply sanitizeFilename_clean.
    + rewrite <- H. unfold sanitizeFilename, substring0. rewrite length_take. lia.
  - intros [Hc Hl]. unfold sanitizeFilename, substring0, replace_space_runs.
    rewrite replace_reserved_fixed, replace_space_runs_from_fixed by done.
    by apply take_ge.
  - unfold sanitizeFilename, substring0, replace_space_runs.
    rewrite length_take.
    pose proof (replace_space_runs_from_length false (replace_reserved s)).
    rewrite replace_reserved_length in *. lia.
Qed.

(** ** Paths of the vault and of the canvas files *)

(** ** Resolved paths *)

Lemma join_slash_head segs :
  segs ≠ [] → ∃ r, Vault.join_slash segs = Vault.slash :: r.
Proof. destruct segs as [|seg segs]; [done|]. intros _. by eexists. Qed.

Lemma resolve_absolute cwd paths : ∃ r, Vault.resolve cwd paths = Vault.slash :: r.
Proof.
  unfold Vault.resolve.
  destruct (reverse _) as [|seg segs] eqn:E; [by eexists|].
  by apply join_slash_head.
Qed.

(** X6. A vault path that is not empty and not absolute makes [resolvePath]
    reject every path: the resolved path is absolute, so its text never
    starts with the text of the vault path. *)
Theorem relative_vault_rejects_every_path (cwd vaultPath relativePath : jsstring) :
  vaultPath ≠ [] → startsWith vaultPath [Vault.slash] = false →
  Vault.resolvePath cwd vaultPath relativePath = Vault.PathTraversalError.
Proof.
  intros Hne Hrel. unfold Vault.resolvePath.
  destruct (resolve_absolute cwd [vaultPath; relativePath]) as [r ->].
  destruct vaultPath as [|c v]; [done|].
  cbn [startsWith] in Hrel |- *.
  replace (startsWith v []) with true in Hrel by (by destruct v).
  rewrite andb_true_r, N.eqb_sym in Hrel. by rewrite Hrel.
Qed.

Lemma relative_vault_rejects_every_path_witness :
  Vault.resolvePath (js "/home/user") (js "vault") (js "note.md")
  = Vault.PathTraversalError.
Proof. apply relative_vault_rejects_every_path; [done | reflexivity]. Defined.

(** ** Paths below the vault *)

Lemma split_slash_plain seg rest :
  Vault.slash ∉ seg →
  Vault.split_slash (seg ++ Vault.slash :: rest) = seg :: Vault.split_slash rest.
Proof.
  induction seg as [|c seg IH]; intros Hs.
  - cbn. done.
  - cbn [app Vault.split_slash].
    destruct (N.eqb_spec c Vault.slash) as [->|Hc].
    + exfalso. apply Hs. left.
    + rewrite IH by (intros ?; apply Hs; by right). done.
Qed.

Lemma join_slash_cons seg segs :
  Vault.join_slash (seg :: segs) = Vault.slash :: seg ++ Vault.join_slash segs.
Proof. done. Qed.

Lemma join_slash_app xs ys :
  Vault.join_slash (xs ++ ys) = Vault.join_slash xs ++ Vault.join_slash ys.
Proof. unfold Vault.join_slash. by rewrite map_app, concat_app. Qed.

Lemma split_slash_segments segs : ∀ seg rest,
  Vault.slash ∉ seg → Forall plain_segment segs →
  Vault.split_slash (seg ++ Vault.join_slash segs ++ Vault.slash :: rest)
  = seg :: segs ++ Vault.split_slash rest.
Proof.
  induction segs as [|s' segs IH]; intros seg rest Hseg Hsegs.
  - cbn [Vault.join_slash map concat app]. by apply split_slash_plain.
  - apply Forall_cons in Hsegs as [(_ & _ & _ & Hs') Hsegs].
    rewrite join_slash_cons. cbn [app]. rewrite split_slash_plain by done.
    rewrite <- app_assoc, IH by done. done.
Qed.

Lemma split_slash_join segs rest :
  Forall plain_segment segs →
  Vault.split_slash (Vault.join_slash segs ++ Vault.slash :: rest)
  = [] :: segs ++ Vault.split_slash rest.
Proof.
  intros H. apply (split_slash_segments segs [] rest); [|done].
  by intros ?%elem_of_nil.
Qed.

Lemma normalize_plain segs : ∀ stack,
  Forall plain_segment segs →
  fold_left Vault.normalize_step segs stack = reverse segs ++ stack.
Proof.
  induction segs as [|seg segs IH]; intros stack Hs; [done|].
  apply Forall_cons in Hs as [(H1 & H2 & H3 & _) Hs].
  cbn [fold_left]. rewrite IH by done. unfold Vault.normalize_step.
  rewrite !bool_decide_eq_false_2 by done. cbn [orb].
  by rewrite reverse_cons, <- app_assoc.
Qed.

Lemma resolve_descendant cwd vault rel :
  vault ≠ [] → Forall plain_segment vault → Forall plain_segment rel →
  Vault.resolve cwd [Vault.join_slash vault; join_segments rel]
  = Vault.join_slash (vault ++ rel).
Proof.
  intros Hv Pv Pr. unfold Vault.resolve.
  destruct (decide (rel = [])) as [->|Hr].
  { change (reverse [?a; ?b]) with [b; a]. cbn [Vault.resolve_prefix].
    change (join_segments []) with (@nil N).
    rewrite bool_decide_eq_true_2 by done.
    rewrite bool_decide_eq_false_2.
    2:{ destruct vault; [done|]. by rewrite join_slash_cons. }
    destruct (join_slash_head vault Hv) as [r Hj]. rewrite Hj. cbn [startsWith].
    change (N.eqb Vault.slash Vault.slash) with true. cbn [andb].
    replace (startsWith r []) with true by (by destruct r).
    rewrite <- Hj. rewrite split_slash_join by done.
    cbn [Vault.split_slash fold_left].
    change (Vault.normalize_step [] []) with (@nil jsstring).
    rewrite fold_left_app. cbn [fold_left].
    rewrite normalize_plain by done.
    change (Vault.normalize_step ?st []) with st.
    rewrite !app_nil_r, reverse_involutive.
    by destruct vault. }
  assert (join_segments rel ≠ []) as Hrel.
  { destruct rel as [|seg rel]; [done|]. apply Forall_cons in Pr as [(? & _) _].
    unfold join_segments. rewrite join_slash_cons. cbn. by destruct seg. }
  assert (startsWith (join_segments rel) [Vault.slash] = false) as Hrs.
  { destruct rel as [|seg rel]; [done|].
    apply Forall_cons in Pr as [(Hne & _ & _ & Hs) _].
    unfold join_segments. rewrite join_slash_cons.
    destruct seg as [|c seg]; [done|]. cbn [drop app startsWith].
    destruct (N.eqb_spec Vault.slash c) as [<-|]; [|done].
    exfalso. apply Hs. left. }
  assert (Vault.resolve_prefix cwd (reverse [Vault.join_slash vault; join_segments rel])
          = Vault.join_slash (vault ++ rel) ++ [Vault.slash]) as ->.
  { change (reverse [?a; ?b]) with [b; a].
    cbn [Vault.resolve_prefix]. rewrite bool_decide_eq_false_2 by done.
    rewrite Hrs. rewrite bool_decide_eq_false_2.
    2:{ destruct vault; [done|]. by rewrite join_slash_cons. }
    destruct (join_slash_head vault Hv) as [r Hj]. rewrite Hj. cbn [startsWith].
    change (N.eqb Vault.slash Vault.slash) with true. cbn [andb].
    replace (startsWith r []) with true by (by destruct r).
    rewrite <- Hj. rewrite join_slash_app. rewrite <- !app_assoc. f_equal.
    unfold join_segments. destruct rel as [|seg rel]; [done|].
    rewrite join_slash_cons. done. }
  rewrite split_slash_join by (by apply Forall_app).
  cbn [Vault.split_slash fold_left].
  change (Vault.normalize_step [] []) with (@nil jsstring).
  rewrite fold_left_app. cbn [fold_left].
  rewrite normalize_plain by (by apply Forall_app).
  change (Vault.normalize_step ?st []) with st.
  rewrite app_nil_r, reverse_involutive.
  destruct (vault ++ rel) eqn:E; [|done].
  by apply app_eq_nil in E as [-> _].
Qed.

Lemma resolvePath_descendant cwd vault rel :
  vault ≠ [] → Forall plain_segment vault → Forall plain_segment rel →
  Vault.resolvePath cwd (Vault.join_slash vault) (join_segments rel)
  = Vault.Path (Vault.join_slash (vault ++ rel)).
Proof.
  intros Hv Pv Pr. unfold Vault.resolvePath.
  rewrite resolve_descendant by done. by rewrite join_slash_app, drop_startsWith.
Qed.

(** ** Paths below the vault are accepted *)

(** X7. For a vault path in normal form (a slash before each of its
    segments, none of them empty, [.] or [..]), a relative path made of such
    segments is accepted: it resolves to the vault path followed by these
    segments, which lies inside the vault directory. *)
Theorem descendant_paths_are_accepted (cwd : jsstring) (vault rel : list jsstring) :
  vault ≠ [] → Forall plain_segment vault → Forall plain_segment rel →
  let vaultPath := Vault.join_slash vault in
  Vault.resolvePath cwd vaultPath (join_segments rel)
  = Vault.Path (Vault.join_slash (vault ++ rel))
  ∧ Vault.inside_directory vaultPath (Vault.join_slash (vault ++ rel)) = true.
Proof.
  intros Hv Pv Pr vaultPath. subst vaultPath.
  split; [by apply resolvePath_descendant|]. unfold Vault.inside_directory.
  rewrite join_slash_app. destruct rel as [|seg rel].
  - cbn [Vault.join_slash map concat]. rewrite app_nil_r.
    by rewrite bool_decide_eq_true_2.
  - rewrite join_slash_cons.
    replace (Vault.join_slash vault ++ Vault.slash :: seg ++ Vault.join_slash rel)
      with ((Vault.join_slash vault ++ [Vault.slash]) ++ seg ++ Vault.join_slash rel)
      by (by rewrite <- app_assoc).
    rewrite drop_startsWith. apply orb_true_r.
Qed.

Ltac plain_segments :=
  repeat first [apply Forall_nil_2 | apply Forall_cons_2];
  unfold plain_segment; repeat apply conj;
  let H := fresh in
  intros H; vm_compute in H;
  repeat (apply elem_of_cons in H as [H|H]; [discriminate H|]);
  first [discriminate H | by apply elem_of_nil in H].

Lemma descendant_paths_are_accepted_witness :
  Vault.resolvePath (js "/home/user") (js "/home/vault") (js "Notes/today.md")
  = Vault.Path (js "/home/vault/Notes/today.md")
  ∧ Vault.inside_directory (js "/home/vault") (js "/home/vault/Notes/today.md") = true.
Proof.
  apply (descendant_paths_are_accepted (js "/home/user") [js "home"; js "vault"]
           [js "Notes"; js "today.md"]); [done | |]; plain_segments.
Defined.

Lemma split_slash_one seg : Vault.slash ∉ seg → Vault.split_slash seg = [seg].
Proof.
  induction seg as [|c seg IH]; intros Hs; [done|].
  cbn [Vault.split_slash].
  destruct (N.eqb_spec c Vault.slash) as [->|Hc].
  - exfalso. apply Hs. left.
  - rewrite IH by (intros ?; apply Hs; by right). done.
Qed.

Lemma split_slash_joined segs : ∀ seg,
  Vault.slash ∉ seg → Forall plain_segment segs →
  Vault.split_slash (seg ++ Vault.join_slash segs) = seg :: segs.
Proof.
  induction segs as [|s' segs IH]; intros seg Hseg Hsegs.
  - cbn [Vault.join_slash map concat]. rewrite app_nil_r. by apply split_slash_one.
  - apply Forall_cons in Hsegs as [(_ & _ & _ & Hs') Hsegs].
    rewrite join_slash_cons, split_slash_plain by done.
    by rewrite IH.
Qed.

Lemma join_segments_cons seg segs :
  join_segments (seg :: segs) = seg ++ Vault.join_slash segs.
Proof. done. Qed.

Lemma normalize_relative_plain segs : ∀ stack,
  Forall plain_segment segs →
  fold_left normalize_relative_step segs stack = reverse segs ++ stack.
Proof.
  induction segs as [|seg segs IH]; intros stack Hs; [done|].
  apply Forall_cons in Hs as [(H1 & H2 & H3 & _) Hs].
  cbn [fold_left]. rewrite IH by done. unfold normalize_relative_step.
  rewrite !bool_decide_eq_false_2 by done. cbn [orb].
  by rewrite reverse_cons, <- app_assoc.
Qed.

Lemma join_segments_snoc segs seg :
  segs ≠ [] →
  join_segments (segs ++ [seg]) = join_segments segs ++ Vault.slash :: seg.
Proof.
  destruct segs as [|s0 segs]; [done|]. intros _.
  cbn [app]. rewrite !join_segments_cons, join_slash_app, <- app_assoc.
  f_equal. f_equal. rewrite join_slash_cons.
  cbn [Vault.join_slash map concat]. by rewrite app_nil_r.
Qed.

Lemma join_segments_last segs :
  segs ≠ [] → Forall plain_segment segs →
  join_segments segs ≠ [] ∧ last (join_segments segs) ≠ Some Vault.slash
  ∧ startsWith (join_segments segs) [Vault.slash] = false.
Proof.
  intros Hne Hs. split; [|split].
  - destruct segs as [|[|c s] segs]; [done| |done].
    by apply Forall_cons in Hs as [(? & _) _].
  - destruct (exists_last Hne) as (init & l & ->).
    apply Forall_app in Hs as [_ [(Hl & _ & _ & Hsl) _]%Forall_cons].
    assert (∃ Y, join_segments (init ++ [l]) = Y ++ l) as [Y ->].
    { destruct init as [|s0 init].
      - exists []. cbn [app]. rewrite join_segments_cons. cbn. by rewrite app_nil_r.
      - rewrite join_segments_snoc by done. eexists (_ ++ [_]).
        by rewrite <- app_assoc. }
    rewrite last_app. destruct (last l) as [c|] eqn:El.
    + intros [= ->]. apply Hsl. apply last_Some in El as [l' ->].
      apply elem_of_app. right. left.
    + by apply last_None in El.
  - destruct segs as [|[|c s] segs]; [done| |].
    + by apply Forall_cons in Hs as [(? & _) _].
    + apply Forall_cons in Hs as [(_ & _ & _ & Hsl) _].
      rewrite join_segments_cons. cbn [app startsWith].
      destruct (N.eqb_spec Vault.slash c) as [<-|]; [|done].
      exfalso. apply Hsl. left.
Qed.

Lemma posix_normalize_plain segs :
  segs ≠ [] → Forall plain_segment segs →
  posix_normalize (join_segments segs) = join_segments segs.
Proof.
  intros Hne Hs. destruct (join_segments_last segs Hne Hs) as (H1 & H2 & H3).
  unfold posix_normalize. rewrite H3.
  rewrite bool_decide_eq_false_2 by done.
  rewrite (bool_decide_eq_false_2 (last _ = _)) by done.
  destruct segs as [|seg segs]; [done|].
  pose proof Hs as [(_ & _ & _ & Hsl) Hs']%Forall_cons.
  change (Vault.split_slash (join_segments (seg :: segs)))
    with (Vault.split_slash (seg ++ Vault.join_slash segs)).
  rewrite split_slash_joined by done.
  rewrite normalize_relative_plain by done.
  rewrite app_nil_r, reverse_involutive.
  by rewrite bool_decide_eq_false_2.
Qed.

Lemma canvas_file_plain name :
  plain_segment (sanitizeFilename name ++ js ".canvas").
Proof.
  pose proof (sanitizeFilename_clean name) as Hc.
  assert (7 ≤ length (sanitizeFilename name ++ js ".canvas")) as Hlen.
  { rewrite length_app. cbn. lia. }
  repeat split.
  - intros E. rewrite E in Hlen. cbn in Hlen. lia.
  - intros E. rewrite E in Hlen. cbn in Hlen. lia.
  - intros E. rewrite E in Hlen. cbn in Hlen. lia.
  - intros [Hin|Hin]%elem_of_app.
    + rewrite Forall_forall in Hc. by destruct (Hc _ Hin) as [? _].
    + vm_compute in Hin.
      repeat (apply elem_of_cons in Hin as [Hin|Hin]; [discriminate Hin|]).
      by apply elem_of_nil in Hin.
Qed.

(** ** Where the server writes a canvas *)

(** X8. With a vault path and a folder in normal form, [createCanvas] of
    the server writes, for every name, the file named by the sanitized name
    and the extension [.canvas] in that folder of the vault: the path is
    accepted, the extension is not added twice, and the name adds no
    directory. *)
Theorem createCanvas_writes_below_folder (cwd name : jsstring)
    (vault folder : list jsstring) :
  vault ≠ [] → folder ≠ [] →
  Forall plain_segment vault → Forall plain_segment folder →
  let file := sanitizeFilename name ++ js ".canvas" in
  let target := Vault.join_slash (vault ++ folder ++ [file]) in
  createCanvas cwd (Vault.join_slash vault) name (join_segments folder)
  = Vault.Calls (Vault.fs_mkdir_dirname target)
  ∧ Vault.inside_directory (Vault.join_slash (vault ++ folder)) target = true.
Proof.
  intros Hv Hf Pv Pf file target.
  assert (plain_segment file) as Pfile by apply canvas_file_plain.
  destruct (join_segments_last folder Hf Pf) as (Hfne & _ & _).
  assert (Forall plain_segment (folder ++ [file])) as Pall.
  { apply Forall_app. split; [done|]. apply Forall_cons_2; [done | apply Forall_nil_2]. }
  split.
  - unfold createCanvas, posix_join. fold file.
    cbn [filter list_filter].
    rewrite !decide_True by (done || by destruct Pfile).
    change (join_segments [join_segments folder; file])
      with (join_segments folder ++ Vault.slash :: file ++ []).
    rewrite app_nil_r, <- join_segments_snoc by done.
    rewrite posix_normalize_plain by (done || by destruct folder).
    unfold Vault.writeCanvas, Vault.with_resolved.
    rewrite (resolvePath_descendant cwd vault (folder ++ [file]) Hv Pv Pall).
    subst target. f_equal. f_equal.
    replace (Vault.endsWith _ _) with true; [done|].
    replace (Vault.join_slash (vault ++ folder ++ [file]))
      with ((Vault.join_slash (vault ++ folder)
             ++ Vault.slash :: sanitizeFilename name) ++ js ".canvas").
    + by rewrite endsWith_app.
    + rewrite (app_assoc vault), (join_slash_app _ [file]). subst file.
      cbn [Vault.join_slash map concat]. by rewrite app_nil_r, <- app_assoc.
  - subst target. unfold Vault.inside_directory.
    rewrite (app_assoc vault), (join_slash_app _ [file]).
    replace (Vault.join_slash [file]) with ([Vault.slash] ++ file)
      by (cbn; by rewrite app_nil_r).
    rewrite (app_assoc _ [Vault.slash]), drop_startsWith. apply orb_true_r.
Qed.

Lemma createCanvas_writes_below_folder_witness :
  createCanvas (js "/srv") (js "/home/vault") (js "Q3: plan?") (js "Canvas")
  = Vault.Calls (Vault.fs_mkdir_dirname (js "/home/vault/Canvas/Q3--plan-.canvas"))
  ∧ Vault.inside_directory (js "/home/vault/Canvas")
      (js "/home/vault/Canvas/Q3--plan-.canvas") = true.
Proof.
  apply (createCanvas_writes_below_folder (js "/srv") (js "Q3: plan?")
           [js "home"; js "vault"] [js "Canvas"]); [done | done | |];

    plain_segments.
Defined.

(** ** The file of the plugin *)

Lemma split_slash_cons s : ∃ l ls, Vault.split_slash s = l :: ls.
Proof.
  induction s as [|c s (l & ls & IH)]; [by eexists _, _|].
  cbn [Vault.split_slash]. rewrite IH. destruct (c =? Vault.slash)%N; by eexists _, _.
Qed.

(** X9. The path that [saveCanvas] of the plugin builds has the segments of
    the output folder followed by exactly one more, the file name: a name
    never adds a directory, and the file name is never empty, [.] or [..]. *)
Theorem saveCanvas_path_adds_one_segment (folder name : jsstring) :
  ∃ file,
    Vault.split_slash (saveCanvas_path folder name)
    = Vault.split_slash folder ++ [file]
    ∧ file = sanitizeFilename name ++ js ".canvas"
    ∧ plain_segment file.
Proof.
  exists (sanitizeFilename name ++ js ".canvas"). split; [|split; [done|]].
  - unfold saveCanvas_path. change (js "/") with [Vault.slash].
    change ([Vault.slash] ++ ?x) with (Vault.slash :: x).
    pose proof (canvas_file_plain name) as (_ & _ & _ & Hs).
    induction folder as [|c folder IH].
    + cbn [app Vault.split_slash]. change (N.eqb Vault.slash Vault.slash) with true.
      cbn iota. by rewrite split_slash_one.
    + cbn [app Vault.split_slash]. rewrite IH.
      destruct (c =? Vault.slash)%N; [done|].
      pose proof (split_slash_cons folder) as (l & ls & ->). done.
  - apply canvas_file_plain.
Qed.

(** ** The shape of a mind map *)

(** A point at distance [r] from another, in direction [a]. *)
Lemma polar_point_differs (px py a r : R) :
  (r ≠ 0)%R → (px, py) ≠ ((px + cos a * r)%R, (py + sin a * r)%R).
Proof.
  intros Hr [= Hx Hy].
  assert (cos a * r = 0)%R as Hc by lra.
  assert (sin a * r = 0)%R as Hs by lra.
  apply Rmult_integral in Hc as [Hc|]; [|done].
  apply Rmult_integral in Hs as [Hs|]; [|done].
  pose proof (sin2_cos2 a) as H. unfold Rsqr in H. rewrite Hc, Hs in H. lra.
Qed.

Lemma polar_sides_opposite {I : Type} (i f t : I) (px py a r : R) :
  (r ≠ 0)%R →
  opposite_sides
    (mkEdge i f t
       (Some (getClosestSide px py (px + cos a * r) (py + sin a * r)))
       (Some (getClosestSide (px + cos a * r) (py + sin a * r) px py))).
Proof.
  intros Hr. eexists. split; [reflexivity|]. cbn. f_equal.
  apply getClosestSide_opposite. by apply polar_point_differs.
Qed.

Section Opposite.
Context {I : Type} (gen : nat → I).

Lemma plugin_push_subtopic_opposite branchId bx by' a0 da b subtopic j :
  all_opposite b →
  all_opposite (Plugin.push_subtopic gen branchId bx by' a0 da b subtopic j).
Proof.
  intros Hb. unfold Plugin.push_subtopic, fresh, push_node, push_edge, all_opposite.
  cbn [drawn b_nodes b_edges]. apply Forall_app. split; [exact Hb|].
  apply Forall_singleton, polar_sides_opposite.
  unfold Plugin.subBranchRadius. lra.
Qed.

Lemma plugin_push_branch_opposite centralId angleStep b branch i :
  all_opposite b →
  all_opposite (Plugin.push_branch gen centralId angleStep b branch i).
Proof.
  intros Hb. unfold Plugin.push_branch, fresh, push_node, push_edge.
  cbn [drawn b_nodes b_edges].
  apply forEach_invariant; [intros; by apply plugin_push_subtopic_opposite|].
  unfold all_opposite. cbn [b_edges]. apply Forall_app. split; [exact Hb|].
  apply Forall_singleton, polar_sides_opposite.
  unfold Plugin.branchRadius. lra.
Qed.

Lemma server_push_subtopic_opposite branchId bx by' a0 da b subtopic j :
  all_opposite b →
  all_opposite (Server.push_subtopic gen branchId bx by' a0 da b subtopic j).
Proof.
  intros Hb. unfold Server.push_subtopic, fresh, push_node, push_edge, all_opposite.
  cbn [drawn b_nodes b_edges]. apply Forall_app. split; [exact Hb|].
  apply Forall_singleton, polar_sides_opposite.
  unfold Server.subBranchRadius. lra.
Qed.

Lemma server_push_branch_opposite centralId angleStep b branch i :
  all_opposite b →
  all_opposite (Server.push_branch gen centralId angleStep b branch i).
Proof.
  intros Hb. unfold Server.push_branch, fresh, push_node, push_edge.
  cbn [drawn b_nodes b_edges].
  destruct (_ <? _)%nat;
    [apply forEach_invariant; [intros; by apply server_push_subtopic_opposite|]|];
    (unfold all_opposite; cbn [b_edges]; apply Forall_app; split; [exact Hb|];
     apply Forall_singleton, polar_sides_opposite; unfold Server.branchRadius; lra).
Qed.

End Opposite.

(** X10. In every mind map of the plugin and of the server, each edge has
    both sides set and the two sides are opposite: a branch or a subtopic
    never has the centre of its parent as its own centre. *)
Theorem mindmap_edges_have_opposite_sides :
  (∀ (I : Type) (gen : nat → I) central branches,
     Forall opposite_sides (edges (Plugin.createMindMapCanvas gen central branches)))
  ∧ (∀ (I : Type) (gen : nat → I) description,
       Forall opposite_sides
         (edges (Server.generateMindMapFromDescription gen description))).
Proof.
  split.
  - intros I gen central branches.
    unfold Plugin.createMindMapCanvas, fresh, push_node, empty_builder.
    cbn [drawn b_nodes b_edges].
    apply (forEach_invariant all_opposite);
      [intros; by apply plugin_push_branch_opposite | constructor].
  - intros I gen description. unfold Server.generateMindMapFromDescription.
    destruct (Server.parse_outline description) as [central branches].
    unfold Server.layout_mindmap, fresh, push_node, empty_builder.
    cbn [drawn b_nodes b_edges].
    apply (forEach_invariant all_opposite);
      [intros; by apply server_push_branch_opposite | constructor].
Qed.

Section Tree.
Context {I Num : Type}.
Implicit Types (ns : list (CanvasNode I Num)) (es : list (CanvasEdge I)).

Lemma listed_app ns n i : listed ns i → listed (ns ++ [n]) i.
Proof.
  intros (j & Hj & H). exists j. rewrite length_app. split; [lia|].
  by rewrite lookup_app_l.
Qed.

Lemma listed_new ns n : listed (ns ++ [n]) (node_id n).
Proof.
  exists (length ns). rewrite length_app. cbn. split; [lia|].
  by rewrite list_lookup_middle.
Qed.

Lemma rooted_tree_grow ns es n e :
  rooted_tree ns es → listed ns (edge_fromNode e) → edge_toNode e = node_id n →
  rooted_tree (ns ++ [n]) (es ++ [e]).
Proof.
  intros [Hlen H] (j0 & Hj0 & Hfrom) Hto. split.
  - rewrite !length_app. cbn. lia.
  - intros k e' Hk. destruct (decide (k < length es)) as [Hlt|Hge].
    + rewrite lookup_app_l in Hk by done.
      destruct (H k e' Hk) as [Ht (j & Hj & Hf)]. split.
      * rewrite lookup_app_l by lia. exact Ht.
      * exists j. split; [done|]. rewrite lookup_app_l by lia. exact Hf.
    + assert (k = length es) as ->.
      { apply lookup_lt_Some in Hk. rewrite length_app in Hk. cbn in Hk. lia. }
      rewrite list_lookup_middle in Hk by done. injection Hk as <-. split.
      * replace (S (length es)) with (length ns) by lia.
        rewrite list_lookup_middle by done. cbn. by rewrite Hto.
      * exists j0. split; [lia|]. rewrite lookup_app_l by lia. exact Hfrom.
Qed.

End Tree.

Section MindMapTree.
Context {I : Type} (gen : nat → I).

Lemma plugin_push_subtopic_tree branchId bx by' a0 da b subtopic j i :
  rooted_tree (b_nodes b) (b_edges b) → listed (b_nodes b) branchId →
  listed (b_nodes b) i →
  let b' := Plugin.push_subtopic gen branchId bx by' a0 da b subtopic j in
  rooted_tree (b_nodes b') (b_edges b') ∧ listed (b_nodes b') branchId
  ∧ listed (b_nodes b') i.
Proof.
  intros Hb Hbr Hi. unfold Plugin.push_subtopic, fresh, push_node, push_edge.
  cbn [drawn b_nodes b_edges]. split; [|split]; try by apply listed_app.
  by apply rooted_tree_grow.
Qed.

Lemma plugin_push_branch_tree centralId angleStep b branch i :
  tree_with b centralId →
  tree_with (Plugin.push_branch gen centralId angleStep b branch i) centralId.
Proof.
  intros [Hb Hc]. unfold Plugin.push_branch, fresh, push_node, push_edge.
  cbn [drawn b_nodes b_edges].
  match goal with
  | |- tree_with (forEach ?f ?l ?b0) _ =>
      cut (rooted_tree (b_nodes (forEach f l b0)) (b_edges (forEach f l b0))
           ∧ listed (b_nodes (forEach f l b0)) (gen (drawn b))
           ∧ listed (b_nodes (forEach f l b0)) centralId);
        [intros (? & _ & ?); by split|];
      apply (forEach_invariant
               (λ b', rooted_tree (b_nodes b') (b_edges b')
                      ∧ listed (b_nodes b') (gen (drawn b))
                      ∧ listed (b_nodes b') centralId))
  end.
  - intros s subtopic j (Hs & Hbr & Hc'). by apply plugin_push_subtopic_tree.
  - cbn [b_nodes b_edges]. split; [|split].
    + by apply rooted_tree_grow.
    + apply (listed_new _ (mkNode _ _ _ _ _ _ _ _ _)).
    + by apply listed_app.
Qed.

Lemma server_push_subtopic_tree branchId bx by' a0 da b subtopic j i :
  rooted_tree (b_nodes b) (b_edges b) → listed (b_nodes b) branchId →
  listed (b_nodes b) i →
  let b' := Server.push_subtopic gen branchId bx by' a0 da b subtopic j in
  rooted_tree (b_nodes b') (b_edges b') ∧ listed (b_nodes b') branchId
  ∧ listed (b_nodes b') i.
Proof.
  intros Hb Hbr Hi. unfold Server.push_subtopic, fresh, push_node, push_edge.
  cbn [drawn b_nodes b_edges]. split; [|split]; try by apply listed_app.
  by apply rooted_tree_grow.
Qed.

Lemma server_push_branch_tree centralId angleStep b branch i :
  tree_with b centralId →
  tree_with (Server.push_branch gen centralId angleStep b branch i) centralId.
Proof.
  intros [Hb Hc]. unfold Server.push_branch, fresh, push_node, push_edge.
  cbn [drawn b_nodes b_edges].
  match goal with
  | |- tree_with (if _ then forEach ?f ?l ?b0 else _) _ =>
      assert (rooted_tree (b_nodes b0) (b_edges b0)
              ∧ listed (b_nodes b0) (gen (drawn b))
              ∧ listed (b_nodes b0) centralId) as H0;
        [|destruct (_ <? _)%nat; [|destruct H0 as (? & _ & ?); by split];
          cut (rooted_tree (b_nodes (forEach f l b0)) (b_edges (forEach f l b0))
               ∧ listed (b_nodes (forEach f l b0)) (gen (drawn b))
               ∧ listed (b_nodes (forEach f l b0)) centralId);
          [intros (? & _ & ?); by split|];
          apply (forEach_invariant
                   (λ b', rooted_tree (b_nodes b') (b_edges b')
                          ∧ listed (b_nodes b') (gen (drawn b))
                          ∧ listed (b_nodes b') centralId)); [|exact H0]]
  end.
  - cbn [b_nodes b_edges]. split; [|split].
    + by apply rooted_tree_grow.
    + apply (listed_new _ (mkNode _ _ _ _ _ _ _ _ _)).
    + by apply listed_app.
  - intros s subtopic j (Hs & Hbr & Hc'). by apply server_push_subtopic_tree.
Qed.

Lemma single_node_tree (n : CanvasNode I R) :
  tree_with (mkBuilder 1 [n] []) (node_id n).
Proof.
  split; [split; [done | by intros k e Hk] |]. exists 0. split; [cbn; lia | done].
Qed.

End MindMapTree.

(** X11. Every mind map of the plugin and of the server is a tree rooted at
    the central node: there is one edge less than there are nodes, the edge
    of index [k] ends at the node of index [k + 1], and it starts at a node
    listed before that one. *)
Theorem mindmap_is_rooted_tree :
  (∀ (I : Type) (gen : nat → I) central branches,
     let out := Plugin.createMindMapCanvas gen central branches in
     rooted_tree (nodes out) (edges out))
  ∧ (∀ (I : Type) (gen : nat → I) description,
       let out := Server.generateMindMapFromDescription gen description in
       rooted_tree (nodes out) (edges out)).
Proof.
  split.
  - intros I gen central branches.
    unfold Plugin.createMindMapCanvas, fresh, push_node, empty_builder.
    cbn [drawn b_nodes b_edges app].
    match goal with
    | |- context [forEach ?f ?l ?b0] =>
        assert (tree_with (forEach f l b0) (gen 0)) as [H _]; [|exact H]
    end.
    apply forEach_invariant; [intros; by apply plugin_push_branch_tree|].
    apply (single_node_tree (mkNode _ _ _ _ _ _ _ _ _)).
  - intros I gen description. unfold Server.generateMindMapFromDescription.
    destruct (Server.parse_outline description) as [central branches].
    unfold Server.layout_mindmap, fresh, push_node, empty_builder.
    cbn [drawn b_nodes b_edges app].
    match goal with
    | |- context [forEach ?f ?l ?b0] =>
        assert (tree_with (forEach f l b0) (gen 0)) as [H _]; [|exact H]
    end.
    apply forEach_invariant; [intros; by apply server_push_branch_tree|].
    apply (single_node_tree (mkNode _ _ _ _ _ _ _ _ _)).
Qed.

Lemma forEach_from_prefix {A : Type} {I Num : Type} (f : Builder I Num → A → nat → Builder I Num)
    (l : list A) :
  (∀ b a i, ∃ ns es, b_nodes (f b a i) = b_nodes b ++ ns ∧ b_edges (f b a i) = b_edges b ++ es) →
  ∀ i b, ∃ ns es, b_nodes (forEach_from i f l b) = b_nodes b ++ ns
                  ∧ b_edges (forEach_from i f l b) = b_edges b ++ es.
Proof.
  intros Hf. induction l as [|a l IH]; intros i b; cbn.
  - exists [], []. by rewrite !app_nil_r.
  - destruct (IH (S i) (f b a i)) as (ns & es & -> & ->).
    destruct (Hf b a i) as (ns' & es' & -> & ->).
    exists (ns' ++ ns), (es' ++ es). by rewrite !app_assoc.
Qed.

Lemma top_of_centre (cx cy r : R) :
  (r > 0)%R →
  getClosestSide cx cy (cx + cos (- (PI / 2)) * r) (cy + sin (- (PI / 2)) * r) = Top
  ∧ getClosestSide (cx + cos (- (PI / 2)) * r) (cy + sin (- (PI / 2)) * r) cx cy = Bottom.
Proof.
  intros Hr. rewrite cos_neg, sin_neg, cos_PI2, sin_PI2.
  unfold getClosestSide, Rabs.
  split;
    repeat match goal with
           | |- context [Rgt_dec ?a ?b] => destruct (Rgt_dec a b)
           | |- context [Rcase_abs ?a] => destruct (Rcase_abs a)
           | H : context [Rcase_abs ?a] |- _ => destruct (Rcase_abs a)
           end; try reflexivity; lra.
Qed.

Section Up.
Context {I : Type} (gen : nat → I).

Lemma plugin_push_subtopic_prefix branchId bx by' a0 da b subtopic j :
  ∃ ns es,
    b_nodes (Plugin.push_subtopic gen branchId bx by' a0 da b subtopic j) = b_nodes b ++ ns
    ∧ b_edges (Plugin.push_subtopic gen branchId bx by' a0 da b subtopic j) = b_edges b ++ es.
Proof. unfold Plugin.push_subtopic, fresh, push_node, push_edge. cbn. eauto. Qed.

Lemma plugin_push_branch_prefix c a b branch i :
  ∃ ns es,
    b_nodes (Plugin.push_branch gen c a b branch i) = b_nodes b ++ ns
    ∧ b_edges (Plugin.push_branch gen c a b branch i) = b_edges b ++ es.
Proof.
  unfold Plugin.push_branch, fresh, push_node, push_edge, forEach.
  cbn [drawn b_nodes b_edges].
  match goal with
  | |- context [forEach_from 0 ?f ?l ?b0] =>
      destruct (forEach_from_prefix f l
                  (λ b a i, plugin_push_subtopic_prefix _ _ _ _ _ b a i) 0 b0)
        as (ns & es & -> & ->)
  end.
  cbn [b_nodes b_edges]. rewrite <- !app_assoc. eauto.
Qed.

Lemma server_push_subtopic_prefix branchId bx by' a0 da b subtopic j :
  ∃ ns es,
    b_nodes (Server.push_subtopic gen branchId bx by' a0 da b subtopic j) = b_nodes b ++ ns
    ∧ b_edges (Server.push_subtopic gen branchId bx by' a0 da b subtopic j) = b_edges b ++ es.
Proof. unfold Server.push_subtopic, fresh, push_node, push_edge. cbn. eauto. Qed.

Lemma server_push_branch_prefix c a b branch i :
  ∃ ns es,
    b_nodes (Server.push_branch gen c a b branch i) = b_nodes b ++ ns
    ∧ b_edges (Server.push_branch gen c a b branch i) = b_edges b ++ es.
Proof.
  unfold Server.push_branch, fresh, push_node, push_edge, forEach.
  cbn [drawn b_nodes b_edges].
  destruct (_ <? _)%nat; [|cbn; eauto].
  match goal with
  | |- context [forEach_from 0 ?f ?l ?b0] =>
      destruct (forEach_from_prefix f l
                  (λ b a i, server_push_subtopic_prefix _ _ _ _ _ b a i) 0 b0)
        as (ns & es & -> & ->)
  end.
  cbn [b_nodes b_edges]. rewrite <- !app_assoc. eauto.
Qed.

End Up.

(** X12. When there is at least one branch, the first branch of a mind map
    of the plugin and of the server lies straight above the central node,
    its centre at (500, 100), and its edge leaves the central node at the top
    and enters the branch at the bottom. *)
Theorem first_branch_points_up {I : Type} (gen : nat → I) (central : jsstring)
    (branch : Branch) (others : list Branch) :
  first_branch_up (Plugin.createMindMapCanvas gen central (branch :: others))
  ∧ first_branch_up (Server.layout_mindmap gen central (branch :: others)).
Proof.
  split.
  - unfold Plugin.createMindMapCanvas, fresh, push_node, empty_builder, forEach, finish.
    cbn [drawn b_nodes b_edges app forEach_from].
    match goal with
    | |- context [forEach_from 1 ?f ?l ?b0] =>
        destruct (forEach_from_prefix f l
                    (λ b a i, plugin_push_branch_prefix gen _ _ b a i) 1 b0)
          as (ns & es & -> & ->)
    end.
    unfold Plugin.push_branch, fresh, push_node, push_edge, forEach.
    cbn [drawn b_nodes b_edges app].
    match goal with
    | |- context [forEach_from 0 ?f ?l ?b0] =>
        destruct (forEach_from_prefix f l
                    (λ b a i, plugin_push_subtopic_prefix gen _ _ _ _ _ b a i) 0 b0)
          as (ns' & es' & -> & ->)
    end.
    cbn [b_nodes b_edges app nodes edges].
    replace (2 * PI / INR (length (branch :: others)) * INR 0 - PI / 2)%R
      with (- (PI / 2))%R by (cbn [INR]; lra).
    destruct (top_of_centre Plugin.centerX Plugin.centerY Plugin.branchRadius)
      as [Htop Hbottom]; [unfold Plugin.branchRadius; lra|].
    do 5 eexists. split; [reflexivity|]. split; [reflexivity|].
    cbn. rewrite Htop, Hbottom, cos_neg, sin_neg, cos_PI2, sin_PI2.
    unfold Plugin.centerX, Plugin.centerY, Plugin.branchRadius.
    repeat split; lra.
  - unfold Server.layout_mindmap, fresh, push_node, empty_builder, forEach, finish.
    cbn [drawn b_nodes b_edges app forEach_from length Nat.ltb Nat.leb].
    match goal with
    | |- context [forEach_from 1 ?f ?l ?b0] =>
        destruct (forEach_from_prefix f l
                    (λ b a i, server_push_branch_prefix gen _ _ b a i) 1 b0)
          as (ns & es & -> & ->)
    end.
    unfold Server.push_branch, fresh, push_node, push_edge, forEach.
    cbn [drawn b_nodes b_edges app].
    replace (2 * PI / INR (S (length others)) * INR 0 - PI / 2)%R
      with (- (PI / 2))%R by (cbn [INR]; lra).
    destruct (top_of_centre Server.centerX Server.centerY Server.branchRadius)
      as [Htop Hbottom]; [unfold Server.branchRadius; lra|].
    destruct (_ <? _)%nat.
    + match goal with
      | |- context [forEach_from 0 ?f ?l ?b0] =>
          destruct (forEach_from_prefix f l
                      (λ b a i, server_push_subtopic_prefix gen _ _ _ _ _ b a i) 0 b0)
            as (ns' & es' & -> & ->)
      end.
      cbn [b_nodes b_edges app nodes edges].
      do 5 eexists. split; [reflexivity|]. split; [reflexivity|].
      cbn. rewrite Htop, Hbottom, cos_neg, sin_neg, cos_PI2, sin_PI2.
      unfold Server.centerX, Server.centerY, Server.branchRadius.
      repeat split; lra.
    + cbn [b_nodes b_edges app nodes edges].
      do 5 eexists. split; [reflexivity|]. split; [reflexivity|].
      cbn. rewrite Htop, Hbottom, cos_neg, sin_neg, cos_PI2, sin_PI2.
      unfold Server.centerX, Server.centerY, Server.branchRadius.
      repeat split; lra.
Qed.


Lemma sum_list_succ {A : Type} (g : A → nat) (l : list A) :
  sum_list (map (λ a, 1 + g a) l) = length l + sum_list (map g l).
Proof.
  induction l as [|a l IH]; [done|].
  cbn [map sum_list_with length]. rewrite IH. unfold Datatypes.id. lia.
Qed.

(** X13. The mind map of the plugin has the central node, one node per
    branch and one node per subtopic; the mind map of the server has the
    central node, one node per branch and, for each branch, one node for
    each of its first five subtopics. *)
Theorem mindmap_node_counts {I : Type} (gen : nat → I) (central : jsstring)
    (branches : list Branch) :
  length (nodes (Plugin.createMindMapCanvas gen central branches))
  = 1 + length branches + sum_list (map (λ b, length (subtopics b)) branches)
  ∧ length (nodes (Server.layout_mindmap gen central branches))
    = 1 + length branches
      + sum_list (map (λ b, 5 `min` length (subtopics b)) branches).
Proof.
  rewrite plugin_mindmap_node_count, server_mindmap_node_count.
  rewrite !sum_list_succ. lia.
Qed.

(** ** Reading an outline *)

Lemma forEach_from_app {A St : Type} (f : St → A → nat → St) (l1 l2 : list A) :
  ∀ i s, forEach_from i f (l1 ++ l2) s
         = forEach_from (i + length l1) f l2 (forEach_from i f l1 s).
Proof.
  induction l1 as [|a l1 IH]; intros i s; cbn.
  - by rewrite Nat.add_0_r.
  - rewrite IH. f_equal. lia.
Qed.

Lemma split_lines_one l : Char.lf ∉ l → split_lines l = [l].
Proof.
  induction l as [|c l IH]; intros Hl; [done|].
  cbn [split_lines].
  destruct (N.eqb_spec c Char.lf) as [->|Hc].
  - exfalso. apply Hl. left.
  - rewrite IH by (intros ?; apply Hl; by right). done.
Qed.

Lemma split_lines_cons l rest :
  Char.lf ∉ l → split_lines (l ++ Char.lf :: rest) = l :: split_lines rest.
Proof.
  induction l as [|c l IH]; intros Hl.
  - cbn. done.
  - cbn [app split_lines].
    destruct (N.eqb_spec c Char.lf) as [->|Hc].
    + exfalso. apply Hl. left.
    + rewrite IH by (intros ?; apply Hl; by right). done.
Qed.

Lemma split_lines_joined ls : ∀ l,
  Forall (λ l, Char.lf ∉ l) (l :: ls) →
  split_lines (l ++ concat (map (λ l, Char.lf :: l) ls)) = l :: ls.
Proof.
  induction ls as [|l' ls IH]; intros l [Hl Hls]%Forall_cons.
  - cbn [map concat]. rewrite app_nil_r. by apply split_lines_one.
  - cbn [map concat]. change ((Char.lf :: l') ++ ?x) with (Char.lf :: l' ++ x).
    rewrite split_lines_cons by done. by rewrite IH.
Qed.

Lemma split_join_lines l ls :
  Forall (λ l, Char.lf ∉ l) (l :: ls) → split_lines (join_lines (l :: ls)) = l :: ls.
Proof. apply split_lines_joined. Qed.

Lemma heading_head t :
  heading t → ∃ c r, t = c :: r ∧ is_space c = false ∧ is_bullet c = false
                     ∧ c ≠ Char.hash.
Proof.
  intros (Ht & Hlen & _ & Hc). destruct t as [|c r]; [cbn in Hlen; lia|].
  exists c, r. destruct (Hc c r eq_refl) as [Hb Hh].
  repeat split; try done.
  apply trim_fixed in Ht as [Hs _]. by apply trimStart_fixed_head in Hs.
Qed.

Lemma trim_indented s : heading s → trim (js "  " ++ s) = s.
Proof.
  intros (Ht & _). rewrite <- (app_nil_r s) at 1.
  apply trim_padded; [|constructor|done].
  repeat constructor.
Qed.

Lemma subtopic_line th brs t acc s i :
  heading s →
  Server.outline_line (Server.mkOutline th brs (Some (mkBranch t acc)))
    (js "  " ++ s) (S i)
  = Server.mkOutline th brs (Some (mkBranch t (acc ++ [s]))).
Proof.
  intros Hs. unfold Server.outline_line. rewrite trim_indented by done.
  rewrite drop_startsWith. cbn [orb negb andb Nat.eqb].
  destruct (heading_head s Hs) as (c & r & -> & _ & Hb & _).
  destruct Hs as (_ & Hlen & _).
  apply Nat.ltb_lt in Hlen. rewrite Hlen.
  cbn [Server.currentBranch Server.centralTheme Server.branches topic subtopics
       strip_bullet].
  by rewrite Hb.
Qed.

Lemma subtopic_lines subs : ∀ th brs t acc i,
  Forall heading subs →
  forEach_from (S i) Server.outline_line (map (λ s, js "  " ++ s) subs)
    (Server.mkOutline th brs (Some (mkBranch t acc)))
  = Server.mkOutline th brs (Some (mkBranch t (acc ++ subs))).
Proof.
  induction subs as [|s subs IH]; intros th brs t acc i Hsubs.
  - cbn. by rewrite app_nil_r.
  - apply Forall_cons in Hsubs as [Hs Hsubs]. cbn [map forEach_from].
    rewrite subtopic_line, IH by done. by rewrite <- app_assoc.
Qed.

Lemma topic_line st t i :
  heading t →
  Server.outline_line st t (S i)
  = Server.mkOutline (Server.centralTheme st)
      (sealed (Server.branches st) (Server.currentBranch st))
      (Some (mkBranch t [])).
Proof.
  intros Ht. unfold Server.outline_line.
  destruct (heading_head t Ht) as (c & r & -> & Hsp & Hb & Hh).
  destruct Ht as (-> & Hlen & _).
  apply Nat.ltb_lt in Hlen. rewrite Hlen.
  assert (startsWith (c :: r) (js "  ") = false) as ->.
  { change (js "  ") with [32%N; 32%N]. cbn [startsWith].
    destruct (N.eqb_spec 32 c) as [<-|]; [by vm_compute in Hsp|done]. }
  assert (startsWith (c :: r) [Char.tab] = false) as ->.
  { cbn [startsWith].
    destruct (N.eqb_spec Char.tab c) as [<-|]; [by vm_compute in Hsp|done]. }
  assert (startsWith (c :: r) (js "-") = false) as ->.
  { change (js "-") with [45%N]. cbn [startsWith].
    destruct (N.eqb_spec 45 c) as [<-|]; [by vm_compute in Hb|done]. }
  cbn [orb negb andb Nat.eqb strip_bullet]. rewrite Hb. cbn [strip_hashes].
  apply N.eqb_neq in Hh. rewrite Hh. done.
Qed.

Lemma branch_block b st i :
  branch_headings b →
  forEach_from (S i) Server.outline_line (branch_lines b) st
  = Server.mkOutline (Server.centralTheme st)
      (sealed (Server.branches st) (Server.currentBranch st)) (Some b).
Proof.
  intros [Ht Hsubs]. unfold branch_lines. cbn [forEach_from].
  rewrite topic_line, subtopic_lines by done. by destruct b.
Qed.

Lemma branch_blocks bs : ∀ st i,
  Forall branch_headings bs →
  let st' := forEach_from (S i) Server.outline_line (concat (map branch_lines bs)) st in
  Server.centralTheme st' = Server.centralTheme st
  ∧ sealed (Server.branches st') (Server.currentBranch st')
    = sealed (Server.branches st) (Server.currentBranch st) ++ bs.
Proof.
  induction bs as [|b bs IH]; intros st i Hbs.
  - cbn. by rewrite app_nil_r.
  - apply Forall_cons in Hbs as [Hb Hbs]. cbn [map concat].
    rewrite forEach_from_app, branch_block by done.
    replace (S i + length (branch_lines b)) with (S (i + length (branch_lines b)))
      by lia.
    destruct (IH (Server.mkOutline (Server.centralTheme st)
                    (sealed (Server.branches st) (Server.currentBranch st)) (Some b))
                 (i + length (branch_lines b)) Hbs) as [H1 H2].
    cbn zeta. rewrite H1, H2. cbn. by rewrite <- app_assoc.
Qed.

Lemma filter_all {A : Type} (P : A → Prop) `{∀ x, Decision (P x)} (l : list A) :
  Forall P l → filter P l = l.
Proof.
  induction 1 as [|x l Hx _ IH]; [done|].
  rewrite filter_cons, decide_True by done. by rewrite IH.
Qed.

Lemma branch_lines_heading b :
  branch_headings b →
  Forall (λ l, (Char.lf ∉ l) ∧ trim l ≠ []) (branch_lines b).
Proof.
  assert (∀ t, heading t → (Char.lf ∉ t) ∧ trim t ≠ []) as Hh.
  { intros t (Ht & Hlen & Hlf & _). split; [done|]. rewrite Ht.
    intros ->. cbn in Hlen. lia. }
  intros [Ht Hsubs]. unfold branch_lines. apply Forall_cons. split; [by apply Hh|].
  apply Forall_fmap. eapply Forall_impl; [exact Hsubs|].
  intros s Hs. unfold compose. cbn beta. rewrite trim_indented by done.
  destruct (Hh s Hs) as [Hlf Hne]. destruct Hs as [Htrim _]. rewrite Htrim in Hne.
  split; [|done].
  change (js "  ") with [32%N; 32%N]. cbn [app].
  intros [?|[?|?]%elem_of_cons]%elem_of_cons; done.
Qed.

Lemma outline_lines_kept theme branches :
  heading theme → Forall branch_headings branches →
  nonblank_lines (join_lines (outline_lines theme branches))
  = outline_lines theme branches.
Proof.
  intros Hth Hbs.
  assert (Forall (λ l, (Char.lf ∉ l) ∧ trim l ≠ []) (outline_lines theme branches))
    as Hall.
  { unfold outline_lines. apply Forall_cons. split.
    - destruct Hth as (Ht & Hlen & Hlf & _). split; [done|]. rewrite Ht.
      intros ->. cbn in Hlen. lia.
    - apply Forall_concat, Forall_fmap. eapply Forall_impl; [exact Hbs|].
      intros b Hb. by apply branch_lines_heading. }
  unfold nonblank_lines. unfold outline_lines in *.
  rewrite split_join_lines.
  - apply filter_all. eapply Forall_impl; [exact Hall|]. by intros l [_ ?].
  - eapply Forall_impl; [exact Hall|]. by intros l [? _].
Qed.

Lemma parse_outline_outline (theme : jsstring) (branches : list Branch) :
  heading theme → Forall branch_headings branches →
  Server.parse_outline (join_lines (outline_lines theme branches))
  = (theme, branches).
Proof.
  intros Hth Hbs. unfold Server.parse_outline.
  rewrite outline_lines_kept by done.
  unfold outline_lines, forEach. cbn [forEach_from].
  match goal with
  | |- context [forEach_from 1 ?f ?l ?st] =>
      destruct (branch_blocks branches st 0 Hbs) as [H1 H2];
      change (Server.centralTheme (forEach_from 1 f l st), _)
        with (Server.centralTheme (forEach_from 1 f l st),
              sealed (Server.branches (forEach_from 1 f l st))
                (Server.currentBranch (forEach_from 1 f l st)))
  end.
  rewrite H1, H2. f_equal.
  unfold Server.outline_line. cbn [Nat.eqb Server.centralTheme].
  destruct (heading_head theme Hth) as (c & r & E & _ & Hb & Hh).
  destruct Hth as (-> & _). rewrite E. cbn [strip_hash].
  apply N.eqb_neq in Hh. rewrite Hh. cbn [strip_bullet]. by rewrite Hb.
Qed.

(** X14. The outline of a theme and its branches, written one heading per
    line with the subtopics indented by two spaces below their topic, is
    read back by the server as that theme and those branches, in order; the
    mind map of the outline is the layout of that theme and those
    branches. *)
Theorem parse_outline_reads_outline {I : Type} (gen : nat → I)
    (theme : jsstring) (branches : list Branch) :
  heading theme → Forall branch_headings branches →
  Server.parse_outline (join_lines (outline_lines theme branches))
  = (theme, branches)
  ∧ Server.generateMindMapFromDescription gen
      (join_lines (outline_lines theme branches))
    = Server.layout_mindmap gen theme branches.
Proof.
  intros Hth Hbs. pose proof (parse_outline_outline theme branches Hth Hbs) as H.
  split; [exact H|]. unfold Server.generateMindMapFromDescription. by rewrite H.
Qed.

Ltac heading_of_literal :=
  repeat apply conj;
  [ reflexivity
  | cbn; lia
  | let H := fresh in
    intros H; vm_compute in H;
    repeat (apply elem_of_cons in H as [H|H]; [discriminate H|]);
    by apply elem_of_nil in H
  | let E := fresh in
    intros ? ? E; vm_compute in E; injection E as <- <-; by split ].

Lemma parse_outline_reads_outline_witness :
  let description :=
    js "Project X" ++ [Char.lf] ++ js "Backend" ++ [Char.lf] ++ js "  Database"
    ++ [Char.lf] ++ js "  API" ++ [Char.lf] ++ js "Frontend" ++ [Char.lf]
    ++ js "  User interface" in
  let branches :=
    [mkBranch (js "Backend") [js "Database"; js "API"];
     mkBranch (js "Frontend") [js "User interface"]] in
  Server.parse_outline description = (js "Project X", branches)
  ∧ Server.generateMindMapFromDescription (λ n : nat, n) description
    = Server.layout_mindmap (λ n : nat, n) (js "Project X") branches.
Proof.
  intros description branches.
  apply (parse_outline_reads_outline (λ n : nat, n) (js "Project X") branches).
  - heading_of_literal.
  - repeat first [apply Forall_nil_2 | apply Forall_cons_2];
      (split; [heading_of_literal|]);
      repeat first [apply Forall_nil_2 | apply Forall_cons_2]; heading_of_literal.
Defined.

Local Open Scope Z_scope.

(** ** Cards of the plugin's risk matrix *)

Lemma forEach_from_history {A St : Type} (P : list A → St → Prop)
    (f : St → A → nat → St) (l : list A) :
  (∀ done a s i, P done s → P (done ++ [a]) (f s a i)) →
  ∀ done i s, P done s → P (done ++ l) (forEach_from i f l s).
Proof.
  intros Hf. induction l as [|a l IH]; intros done i s Hs; cbn.
  - by rewrite app_nil_r.
  - rewrite (cons_middle a), app_assoc. apply IH, Hf, Hs.
Qed.

Lemma risk_key_inj i l i' l' : risk_key i l = risk_key i' l' → i = i' ∧ l = l'.
Proof. destruct i, l, i', l'; intros H; try done; vm_compute in H; discriminate H. Qed.

Section PluginRisk.
Context {I : Type} (gen : nat → I).

Lemma grid_counts i l : Plugin.cellCounts (plugin_grid gen) !! risk_key i l = Some 0%nat.
Proof. destruct i, l; vm_compute; reflexivity. Qed.

Lemma grid_cells i l :
  ∃ cell, b_nodes (Plugin.matrix (plugin_grid gen)) !! cell_index i l = Some cell
    ∧ is_group cell = true
    ∧ node_x cell = level_index l * 270 ∧ node_y cell = (2 - level_index i) * 220
    ∧ node_width cell = 250 ∧ node_height cell = 200
    ∧ node_color cell = Some (getRiskColor i l).
Proof.
  destruct i, l; vm_compute; eexists; (split; [reflexivity|]); repeat split.
Qed.

Lemma grid_length : length (b_nodes (Plugin.matrix (plugin_grid gen))) = 9%nat.
Proof. reflexivity. Qed.

Lemma cell_rank_snoc done a k r :
  (k ≤ length done)%nat → cell_rank (done ++ [a]) k r = cell_rank done k r.
Proof. intros Hk. unfold cell_rank. by rewrite take_app_le. Qed.

Lemma push_risk_placed done a st i :
  risks_placed gen done st →
  risks_placed gen (done ++ [a]) (Plugin.push_risk gen st a i).
Proof.
  intros (Hc & Hlen & Hgrid & Hcards).
  unfold Plugin.push_risk, fresh, push_node.
  cbn [Plugin.cellCounts Plugin.matrix b_nodes drawn].
  fold (risk_key (impact a) (likelihood a)).
  rewrite (Hc (impact a) (likelihood a)).
  change (default ?d (Some ?x)) with x.
  repeat apply conj; cbn [Plugin.cellCounts Plugin.matrix b_nodes drawn].
  - intros i' l'. unfold cell_count in *. rewrite filter_app, length_app.
    destruct (decide (risk_key (impact a) (likelihood a) = risk_key i' l')) as [E|E].
    + rewrite E, lookup_insert_eq. apply risk_key_inj in E as [<- <-].
      cbn [filter list_filter]. rewrite decide_True by done.
      cbn [length]. f_equal. lia.
    + rewrite lookup_insert_ne by done. rewrite Hc.
      cbn [filter list_filter]. rewrite decide_False.
      * cbn [length]. f_equal. lia.
      * intros [H1 H2]. apply E. by rewrite H1, H2.
  - rewrite !length_app, Hlen. cbn [length]. lia.
  - intros c Hc9. rewrite lookup_app_l by lia. by apply Hgrid.
  - intros k r Hk. destruct (decide (k < length done)%nat) as [Hlt|Hge].
    + rewrite lookup_app_l in Hk by done.
      destruct (Hcards k r Hk) as (card & Hcard & Hrest).
      exists card. rewrite lookup_app_l by lia.
      rewrite cell_rank_snoc by lia. done.
    + assert (k = length done) as -> by
        (apply lookup_lt_Some in Hk; rewrite length_app in Hk; cbn in Hk; lia).
      rewrite list_lookup_middle in Hk by done. injection Hk as <-.
      eexists. rewrite <- Hlen, list_lookup_middle by done.
      split; [reflexivity|]. cbn [node_x node_y node_width node_height node_color is_text node_type].
      unfold cell_rank. rewrite take_app_length.
      unfold Plugin.cellWidth, Plugin.cellHeight, Plugin.padding.
      repeat split; lia.
Qed.

Lemma createRiskMatrixCanvas_placed risks :
  risks_placed gen risks (forEach (Plugin.push_risk gen) risks (plugin_grid gen)).
Proof.
  unfold forEach.
  apply (forEach_from_history (risks_placed gen) _ risks
           (λ done a s i, push_risk_placed done a s i) [] 0%nat (plugin_grid gen)).
  repeat apply conj.
  - intros i l. apply grid_counts.
  - reflexivity.
  - done.
  - intros k r Hk. done.
Qed.

End PluginRisk.

(** X15. In the risk matrix of the plugin the card of every risk has the
    colour of the cell of its impact and likelihood, and it lies inside that
    cell exactly when fewer than six earlier risks fall in the same cell. *)
Theorem plugin_risks_fill_their_cell {I : Type} (gen : nat → I)
    (risks : list Risk) (k : nat) (risk : Risk) :
  risks !! k = Some risk →
  let out := Plugin.createRiskMatrixCanvas gen risks in
  ∃ card cell,
    nodes out !! (9 + k)%nat = Some card
    ∧ nodes out !! cell_index (impact risk) (likelihood risk) = Some cell
    ∧ is_group cell = true ∧ is_text card = true
    ∧ node_color card = node_color cell
    ∧ (within card cell = true ↔ (cell_rank risks k risk < 6)%nat).
Proof.
  intros Hk out.
  destruct (createRiskMatrixCanvas_placed gen risks) as (_ & _ & Hgrid & Hcards).
  destruct (Hcards k risk Hk) as (card & Hcard & Hx & Hy & Hw & Hh & Htext & Hcol).
  destruct (grid_cells gen (impact risk) (likelihood risk))
    as (cell & Hcell & Hg & Cx & Cy & Cw & Ch & Ccol).
  exists card, cell. subst out.
  unfold Plugin.createRiskMatrixCanvas, finish. cbn [nodes]. fold (plugin_grid gen).
  repeat apply conj; try done.
  - rewrite Hgrid; [done|]. unfold cell_index.
    destruct (impact risk), (likelihood risk); cbn; lia.
  - by rewrite Hcol, Ccol.
  - unfold within. rewrite Hx, Hy, Hw, Hh, Cx, Cy, Cw, Ch.
    rewrite !andb_true_iff, !Z.leb_le.
    intros (_ & Hb). apply Nat2Z.inj_lt. Z.div_mod_to_equations. lia.
  - unfold within. rewrite Hx, Hy, Hw, Hh, Cx, Cy, Cw, Ch.
    rewrite !andb_true_iff, !Z.leb_le.
    intros Hr%Nat2Z.inj_lt. Z.div_mod_to_equations. lia.
Qed.

Lemma plugin_risks_fill_their_cell_witness :
  let risks := [mkRisk (js "outage") high high; mkRisk (js "typo") low low] in
  let out := Plugin.createRiskMatrixCanvas (λ n : nat, n) risks in
  ∃ card cell,
    nodes out !! 10%nat = Some card
    ∧ nodes out !! cell_index low low = Some cell
    ∧ is_group cell = true ∧ is_text card = true
    ∧ node_color card = node_color cell
    ∧ (within card cell = true ↔ (cell_rank risks 1 (mkRisk (js "typo") low low) < 6)%nat).
Proof.
  intros risks out.
  apply (plugin_risks_fill_their_cell (λ n : nat, n) risks 1
           (mkRisk (js "typo") low low)).
  reflexivity.
Defined.


(** ** Cards of the plugin's board *)

Lemma columns_index col :
  col ∈ columns →
  ∃ c : nat, (c < 4)%nat ∧ columns !! c = Some col ∧ indexOf columns col = Z.of_nat c.
Proof.
  unfold columns. rewrite !elem_of_cons, elem_of_nil.
  intros [->|[->|[->|[->|[]]]]];
    [exists 0%nat | exists 1%nat | exists 2%nat | exists 3%nat];
    (split; [lia | split; vm_compute; reflexivity]).
Qed.

(** A status that reads a string reads the name of a column. *)
Lemma mapStatusToColumn_column lower status col :
  Plugin.mapStatusToColumn lower status = Str col → col ∈ columns.
Proof.
  unfold Plugin.mapStatusToColumn, member_or.
  set (statusMap := list_to_map _).
  assert (∀ key v, statusMap !! key = Some v → v ≠ [] ∧ v ∈ columns) as Hown.
  { intros key v Hv. apply elem_of_list_to_map_2 in Hv.
    repeat (apply elem_of_cons in Hv as [Hv|Hv];
            [injection Hv as _ ->;
             split; [by intros ?%(f_equal length)
                    | apply (bool_decide_unpack _); vm_compute; exact I]|]).
    by apply elem_of_nil in Hv. }
  destruct (statusMap !! lower status) as [v|] eqn:E.
  - destruct (Hown _ _ E) as [Hne Hv]. rewrite bool_decide_eq_false_2 by done.
    by intros [= <-].
  - destruct (bool_decide _); [done|]. intros [= <-].
    apply (bool_decide_unpack _). vm_compute. exact I.
Qed.

Section PluginTasks.
Context {I : Type} (gen : nat → I) (lower : jsstring → jsstring).

Lemma zero_counts_lookup col : col ∈ columns → zero_counts !! col = Some 0%nat.
Proof.
  unfold columns. rewrite !elem_of_cons, elem_of_nil.
  intros [->|[->|[->|[->|[]]]]]; by vm_compute.
Qed.

Lemma headers_groups tasks c col :
  columns !! c = Some col →
  ∃ group, b_nodes (plugin_headers gen lower tasks) !! c = Some group
    ∧ node_label group = Some col
    ∧ node_x group = Finite (Z.of_nat c * 270) ∧ node_y group = Finite 0
    ∧ node_width group = Finite 250
    ∧ node_height group
      = Finite (50 + (Z.of_nat (column_count lower col tasks) + 1) * 100).
Proof.
  destruct c as [|[|[|[|c]]]]; intros [= <-]; eexists; (split; [reflexivity|]);
    repeat split.
Qed.

Lemma card_placed_snoc done a k t (card : CanvasNodeOf I jsnumber Member) :
  (k ≤ length done)%nat →
  card_placed lower done k t card → card_placed lower (done ++ [a]) k t card.
Proof.
  intros Hk. unfold card_placed, column_rank. by rewrite take_app_le.
Qed.

Lemma post_increment_column counts col n :
  counts !! col = Some n →
  Plugin.post_increment counts (Str col) = (Finite (Z.of_nat n), <[col := S n]> counts).
Proof. intros H. unfold Plugin.post_increment. by rewrite H. Qed.

Lemma push_task_placed tasks done a st i :
  tasks_placed gen lower tasks done st →
  tasks_placed gen lower tasks (done ++ [a]) (Plugin.push_task gen lower st a i).
Proof.
  intros (Hc & Hlen & Hgrid & Hcards).
  assert (∀ k t, (done ++ [a]) !! k = Some t → (length done ≤ k)%nat →
                 k = length done ∧ t = a) as Hlast.
  { intros k t Hk Hge.
    assert (k = length done) as ->
      by (apply lookup_lt_Some in Hk; rewrite length_app in Hk; cbn in Hk; lia).
    rewrite list_lookup_middle in Hk by done. by injection Hk as <-. }
  unfold Plugin.push_task. fold (task_column lower a).
  destruct (task_column lower a) as [col|key] eqn:Ecol.
  - pose proof (mapStatusToColumn_column _ _ _ Ecol) as Hcol.
    rewrite (post_increment_column _ _ _ (Hc _ Hcol)).
    unfold fresh, push_node. cbn [Plugin.columnCounts Plugin.board b_nodes drawn].
    repeat apply conj; cbn [Plugin.columnCounts Plugin.board b_nodes drawn].
    + intros col' Hcol'. unfold column_count in *. rewrite filter_app, length_app.
      cbn [filter list_filter]. rewrite Ecol.
      destruct (decide (col = col')) as [<-|E].
      * rewrite lookup_insert_eq, decide_True by done. cbn [length]. f_equal. lia.
      * rewrite lookup_insert_ne by done. rewrite Hc by done.
        rewrite decide_False by congruence. cbn [length]. f_equal. lia.
    + rewrite !length_app, Hlen. cbn [length]. lia.
    + intros c Hc4. rewrite lookup_app_l by lia. by apply Hgrid.
    + intros k t Hk. destruct (decide (k < length done)%nat) as [Hlt|Hge].
      * rewrite lookup_app_l in Hk by done.
        destruct (Hcards k t Hk) as (card & Hcard & Hrest).
        exists card. rewrite lookup_app_l by lia.
        split; [done|]. apply card_placed_snoc; [lia|done].
      * destruct (Hlast k t Hk) as [-> ->]; [lia|].
        eexists. rewrite <- Hlen, list_lookup_middle by done.
        split; [reflexivity|]. unfold card_placed. rewrite Ecol.
        cbn [node_x node_y node_width node_height is_text node_type node_color
             Plugin.column_indexOf number_add number_mul].
        unfold column_rank. rewrite take_app_length.
        unfold Plugin.columnWidth, Plugin.headerHeight, Plugin.padding,
          Plugin.nodeHeight.
        repeat split; f_equal; lia.
  - unfold Plugin.post_increment, fresh, push_node.
    cbn [Plugin.columnCounts Plugin.board b_nodes drawn].
    repeat apply conj; cbn [Plugin.columnCounts Plugin.board b_nodes drawn].
    + intros col' Hcol'. unfold column_count in *. rewrite filter_app, length_app.
      cbn [filter list_filter]. rewrite Ecol, decide_False by done.
      rewrite Hc by done. cbn [length]. f_equal. lia.
    + rewrite !length_app, Hlen. cbn [length]. lia.
    + intros c Hc4. rewrite lookup_app_l by lia. by apply Hgrid.
    + intros k t Hk. destruct (decide (k < length done)%nat) as [Hlt|Hge].
      * rewrite lookup_app_l in Hk by done.
        destruct (Hcards k t Hk) as (card & Hcard & Hrest).
        exists card. rewrite lookup_app_l by lia.
        split; [done|]. apply card_placed_snoc; [lia|done].
      * destruct (Hlast k t Hk) as [-> ->]; [lia|].
        eexists. rewrite <- Hlen, list_lookup_middle by done.
        split; [reflexivity|]. unfold card_placed. rewrite Ecol.
        cbn [node_x node_y node_width node_height is_text node_type node_color
             Plugin.column_indexOf number_add number_mul].
        unfold Plugin.columnWidth, Plugin.headerHeight, Plugin.padding,
          Plugin.nodeHeight.
        repeat split; f_equal; lia.
Qed.

Lemma createTaskboardCanvas_placed tasks :
  tasks_placed gen lower tasks tasks
    (forEach (Plugin.push_task gen lower) tasks
       (Plugin.mkTaskLoop zero_counts (plugin_headers gen lower tasks))).
Proof.
  unfold forEach.
  apply (forEach_from_history (tasks_placed gen lower tasks) _ tasks
           (λ done a s i, push_task_placed tasks done a s i) [] 0%nat).
  repeat apply conj.
  - intros col Hcol. by apply zero_counts_lookup.
  - reflexivity.
  - done.
  - intros k r Hk. done.
Qed.

End PluginTasks.

Lemma column_rank_below lower (tasks : list Task) k t col :
  tasks !! k = Some t → task_column lower t = Str col →
  (column_rank lower tasks k col < column_count lower col tasks)%nat.
Proof.
  intros Hk Ht. unfold column_rank, column_count.
  rewrite <- (take_drop k tasks) at 2. rewrite filter_app, length_app.
  rewrite (drop_S _ _ _ Hk). cbn [filter list_filter].
  rewrite decide_True by done. cbn [length]. lia.
Qed.

Lemma column_rank_increases lower (tasks : list Task) k1 k2 t1 col :
  (k1 < k2)%nat → tasks !! k1 = Some t1 → task_column lower t1 = Str col →
  (column_rank lower tasks k1 col < column_rank lower tasks k2 col)%nat.
Proof.
  intros Hlt H1 E. unfold column_rank, column_count.
  rewrite <- (take_drop k1 (take k2 tasks)).
  rewrite take_take, Nat.min_l by lia.
  rewrite filter_app, length_app.
  assert (drop k1 (take k2 tasks) !! 0%nat = Some t1) as Hd.
  { rewrite lookup_drop, Nat.add_0_r, lookup_take_lt by lia. done. }
  destruct (drop k1 (take k2 tasks)) as [|x rest]; [done|].
  injection Hd as ->. cbn [filter list_filter].
  rewrite decide_True by done. cbn [length]. lia.
Qed.

(** The nodes of the board: the four groups, then one card per task. *)
Lemma plugin_board_cards {I : Type} (gen : nat → I) lower tasks :
  let out := Plugin.createTaskboardCanvas gen lower tasks in
  length (nodes out) = (4 + length tasks)%nat
  ∧ (∀ c, (c < 4)%nat →
       nodes out !! c = b_nodes (plugin_headers gen lower tasks) !! c)
  ∧ ∀ k t, tasks !! k = Some t →
      ∃ card, nodes out !! (4 + k)%nat = Some card
        ∧ card_placed lower tasks k t card.
Proof.
  destruct (createTaskboardCanvas_placed gen lower tasks) as (_ & Hlen & Hgrid & Hcards).
  done.
Qed.

(** X16. The card of a task whose status reads the name of a column lies
    inside the group of that column, at the row given by the number of
    earlier tasks of the column, whatever the other tasks are. *)
Theorem plugin_task_cards_lie_in_their_column {I : Type} (gen : nat → I)
    (lower : jsstring → jsstring) (tasks : list Task) (k : nat) (task : Task)
    (col : jsstring) :
  tasks !! k = Some task →
  task_column lower task = Str col →
  let out := Plugin.createTaskboardCanvas gen lower tasks in
  ∃ (c : nat) card group card' group',
    columns !! c = Some col
    ∧ nodes out !! c = Some group
    ∧ node_label group = Some col
    ∧ nodes out !! (4 + k)%nat = Some card
    ∧ is_text card = true
    ∧ node_y card = Finite (70 + Z.of_nat (column_rank lower tasks k col) * 100)
    ∧ finite_node card = Some card'
    ∧ finite_node group = Some group'
    ∧ within card' group' = true.
Proof.
  intros Hk Hcol out.
  destruct (plugin_board_cards gen lower tasks) as (_ & Hgrid & Hcards).
  destruct (Hcards k task Hk) as (card & Hcard & Htext & Hw & Hh & _ & Hplace).
  rewrite Hcol in Hplace. destruct Hplace as [Hx Hy].
  destruct (columns_index _ (mapStatusToColumn_column _ _ _ Hcol))
    as (c & Hc4 & Hc & Hidx).
  destruct (headers_groups gen lower tasks c _ Hc)
    as (group & Hgroup & Hlabel & Gx & Gy & Gw & Gh).
  pose proof (column_rank_below lower tasks k task col Hk Hcol) as Hrank.
  exists c, card, group. unfold finite_node.
  rewrite Hx, Hy, Hw, Hh, Gx, Gy, Gw, Gh. do 2 eexists.
  repeat apply conj; try done; try reflexivity.
  - subst out. by rewrite Hgrid.
  - unfold within. cbn [node_x node_y node_width node_height].
    rewrite Hidx, !andb_true_iff, !Z.leb_le. lia.
Qed.

Lemma plugin_task_cards_lie_in_their_column_witness :
  let tasks := [mkTask (js "Fix login") (js "constructor") None;
                mkTask (js "Ship") (js "done") None;
                mkTask (js "Write docs") (js "Done") (Some (js "high"))] in
  let out := Plugin.createTaskboardCanvas (λ n : nat, n) ascii_toLowerCase tasks in
  ∃ (c : nat) card group card' group',
    columns !! c = Some (js "Done")
    ∧ nodes out !! c = Some group
    ∧ node_label group = Some (js "Done")
    ∧ nodes out !! 6%nat = Some card
    ∧ is_text card = true
    ∧ node_y card = Finite 170
    ∧ finite_node card = Some card'
    ∧ finite_node group = Some group'
    ∧ within card' group' = true.
Proof.
  intros tasks out.
  apply (plugin_task_cards_lie_in_their_column (λ n : nat, n) ascii_toLowerCase
           tasks 2 (mkTask (js "Write docs") (js "Done") (Some (js "high")))
           (js "Done")); reflexivity.
Defined.

(** X17. No two task cards of the plugin's board whose numbers are all
    integers overlap. *)
Theorem plugin_task_cards_do_not_overlap {I : Type} (gen : nat → I)
    (lower : jsstring → jsstring) (tasks : list Task) (k1 k2 : nat)
    (card1 card2 : CanvasNodeOf I jsnumber Member)
    (card1' card2' : CanvasNodeOf I Z Member) :
  k1 ≠ k2 →
  let out := Plugin.createTaskboardCanvas gen lower tasks in
  nodes out !! (4 + k1)%nat = Some card1 →
  nodes out !! (4 + k2)%nat = Some card2 →
  finite_node card1 = Some card1' →
  finite_node card2 = Some card2' →
  apart card1' card2'.
Proof.
  intros Hne out H1 H2 F1 F2. subst out.
  pose proof (plugin_board_cards gen lower tasks) as Hboard. cbv zeta in Hboard.
  destruct Hboard as (Hlen & _ & Hcards).
  assert (∀ k card card',
            nodes (Plugin.createTaskboardCanvas gen lower tasks) !! (4 + k)%nat
            = Some card →
            finite_node card = Some card' →
            ∃ t col, tasks !! k = Some t ∧ task_column lower t = Str col
              ∧ node_x card' = indexOf columns col * 270 + 20
              ∧ node_y card' = 70 + Z.of_nat (column_rank lower tasks k col) * 100
              ∧ node_width card' = 210 ∧ node_height card' = 80) as Hcard.
  { intros k card card' Hk Hf.
    assert (is_Some (tasks !! k)) as [t Ht].
    { apply lookup_lt_is_Some. apply lookup_lt_Some in Hk.
      rewrite Hlen in Hk. lia. }
    destruct (Hcards k t Ht) as (c & Hc & _ & Hw & Hh & _ & Hplace).
    assert (c = card) as -> by congruence.
    unfold finite_node in Hf.
    destruct (task_column lower t) as [col|key] eqn:Ecol.
    - destruct Hplace as [Hx Hy]. rewrite Hx, Hy, Hw, Hh in Hf.
      injection Hf as <-. by exists t, col.
    - destruct Hplace as [Hx Hy]. by rewrite Hx, Hy in Hf. }
  destruct (Hcard k1 card1 card1' H1 F1)
    as (t1 & c1 & Ht1 & E1 & X1 & Y1 & W1 & He1).
  destruct (Hcard k2 card2 card2' H2 F2)
    as (t2 & c2 & Ht2 & E2 & X2 & Y2 & W2 & He2).
  destruct (columns_index _ (mapStatusToColumn_column _ _ _ E1)) as (i1 & _ & Hi1 & I1).
  destruct (columns_index _ (mapStatusToColumn_column _ _ _ E2)) as (i2 & _ & Hi2 & I2).
  unfold apart. rewrite X1, X2, Y1, Y2, W1, W2, He1, He2, I1, I2.
  destruct (decide (c1 = c2)) as [<-|E].
  - destruct (decide (k1 < k2)%nat).
    + pose proof (column_rank_increases lower tasks k1 k2 t1 c1 ltac:(lia) Ht1 E1). lia.
    + pose proof (column_rank_increases lower tasks k2 k1 t2 c1 ltac:(lia) Ht2 E2). lia.
  - assert (i1 ≠ i2) by (intros ->; congruence). lia.
Qed.

Lemma plugin_task_cards_do_not_overlap_witness :
  let tasks := [mkTask (js "Fix login") (js "done") None;
                mkTask (js "Write docs") (js "Done") (Some (js "high"))] in
  apart (mkNode 4%nat Text 830 70 210 80
           (Some (js "**Fix login**" ++ [Char.lf; Char.lf] ++ js "Priority: Medium"))
           None (Some (Str (js "3"))))
        (mkNode 5%nat Text 830 170 210 80
           (Some (js "**Write docs**" ++ [Char.lf; Char.lf] ++ js "Priority: high"))
           None (Some (Str (js "1")))).
Proof.
  intros tasks.
  eapply (plugin_task_cards_do_not_overlap (λ n : nat, n) ascii_toLowerCase tasks 0 1);
    [done | reflexivity..].
Defined.




(** ** Cards of the server's board *)

Section ServerTasks.
Context {I : Type} (gen : nat → I) (lower : jsstring → jsstring).

Lemma task_line_stacked st line i :
  board_stacked gen st → board_stacked gen (Server.task_line gen lower st line i).
Proof.
  intros (Hcur & Hlen & Hgroups & Hcounts & places & Hcards & Hnodup & Hbelow).
  unfold Server.task_line.
  set (cc := if _ || _ || _ then 0%nat else _).
  assert (cc < 4)%nat as Hcc.
  { subst cc. repeat (destruct (_ || _); [lia|]). done. }
  clearbody cc.
  destruct (bool_decide _ || _).
  { repeat split; cbn [Server.currentColumn Server.taskCounts Server.board]; try done.
    by exists places. }
  match goal with
  | |- context [let '(_, _) := ?t in _] => destruct t as [priority color]
  end.
  unfold fresh, push_node. cbn [drawn b_nodes].
  assert (4 ≤ length (b_nodes (Server.board st)))%nat as Hfour.
  { rewrite <- (take_drop 4 (b_nodes (Server.board st))), Hgroups, length_app.
    cbn. lia. }
  repeat split; cbn [Server.currentColumn Server.taskCounts Server.board b_nodes];
    try done.
  - by rewrite length_insert.
  - by rewrite take_app_le by lia.
  - rewrite drop_app_le, length_app by lia. cbn [length].
    apply Forall_insert.
    + eapply Forall_impl; [exact Hcounts|]. cbn. lia.
    + destruct (Server.taskCounts st !! cc) as [n|] eqn:En; cbn; [|lia].
      rewrite Forall_forall in Hcounts.
      pose proof (Hcounts n (list_elem_of_lookup_2 _ _ _ En)). lia.
  - rewrite drop_app_le by lia.
    set (count := default 0%nat (Server.taskCounts st !! cc)).
    exists (places ++ [(cc, count)]). repeat split.
    + apply Forall2_app; [done|]. constructor; [|constructor].
      unfold card_at, Server.columnWidth, Server.padding. cbn. repeat split; lia.
    + apply NoDup_app. repeat split; [done| |apply NoDup_singleton].
      intros p Hp ->%list_elem_of_singleton.
      rewrite Forall_forall in Hbelow. destruct (Hbelow _ Hp) as [_ Hlt].
      cbn in Hlt. fold count in Hlt. lia.
    + apply Forall_app. split.
      * eapply Forall_impl; [exact Hbelow|]. intros [c r] [Hc Hr]. cbn in *.
        split; [done|]. destruct (decide (c = cc)) as [->|Hne].
        -- rewrite list_lookup_insert_eq by lia. cbn. fold count in Hr. lia.
        -- by rewrite list_lookup_insert_ne.
      * constructor; [|constructor]. cbn. split; [done|].
        rewrite list_lookup_insert_eq by lia. cbn. lia.
Qed.

Lemma server_board_stacked description :
  board_stacked gen
    (forEach (Server.task_line gen lower) (nonblank_lines description)
       (Server.mkTaskLoop 0 [0; 0; 0; 0]%nat
          (forEach (Server.push_column gen) columns empty_builder))).
Proof.
  apply forEach_invariant; [apply task_line_stacked|].
  repeat split; cbn; try lia.
  - repeat constructor.
  - exists []. repeat split; constructor.
Qed.

End ServerTasks.

Lemma stacked_cards_apart {I : Type} counts (cards : list (CanvasNode I Z))
    k1 k2 card1 card2 :
  cards_stacked counts cards → k1 ≠ k2 →
  cards !! k1 = Some card1 → cards !! k2 = Some card2 → apart card1 card2.
Proof.
  intros (places & Hcards & Hnodup & _) Hne H1 H2.
  destruct (Forall2_lookup_l _ _ _ _ _ Hcards H1) as ([c1 r1] & Hp1 & A1).
  destruct (Forall2_lookup_l _ _ _ _ _ Hcards H2) as ([c2 r2] & Hp2 & A2).
  assert ((c1, r1) ≠ (c2, r2)) as Hdiff.
  { intros E. rewrite E in Hp1. by apply Hne, (NoDup_lookup _ _ _ _ Hnodup Hp1 Hp2). }
  destruct A1 as (X1 & Y1 & W1 & H1'), A2 as (X2 & Y2 & W2 & H2'). cbn in *.
  unfold apart. rewrite X1, X2, Y1, Y2, W1, W2, H1', H2'.
  destruct (decide (c1 = c2)) as [->|Hc]; [|lia].
  assert (r1 ≠ r2) by congruence. lia.
Qed.

(** X18. For every description, the first four nodes of the server's board
    are the column groups, and no two of the nodes that follow them
    overlap. *)
Theorem server_task_cards_do_not_overlap {I : Type} (gen : nat → I)
    (lower : jsstring → jsstring) (description : jsstring) :
  let out := Server.generateTaskboardFromDescription gen lower description in
  take 4 (nodes out) = column_groups gen
  ∧ ∀ (k1 k2 : nat) (card1 card2 : CanvasNode I Z),
      k1 ≠ k2 →
      nodes out !! (4 + k1)%nat = Some card1 →
      nodes out !! (4 + k2)%nat = Some card2 →
      apart card1 card2.
Proof.
  intros out. subst out. unfold Server.generateTaskboardFromDescription.
  destruct (server_board_stacked gen lower description)
    as (_ & _ & Hgroups & _ & Hcards).
  set (b := Server.board _) in *.
  destruct (length (b_nodes b) =? 4)%nat eqn:Hlen.
  - apply Nat.eqb_eq in Hlen. unfold fresh, push_node, finish. cbn [nodes b_nodes].
    split.
    + rewrite take_app_le by lia. done.
    + intros k1 k2 card1 card2 Hne H1%lookup_lt_Some H2%lookup_lt_Some.
      rewrite length_app in H1, H2. cbn in H1, H2. lia.
  - unfold finish. cbn [nodes]. split; [done|].
    intros k1 k2 card1 card2 Hne H1 H2.
    rewrite <- lookup_drop in H1, H2.
    by eapply stacked_cards_apart.
Qed.

Lemma server_task_cards_do_not_overlap_witness :
  let out := Server.generateTaskboardFromDescription (λ n : nat, n)
               ascii_toLowerCase taskboard_description in
  take 4 (nodes out) = column_groups (λ n : nat, n)
  ∧ apart (mkNode 4%nat Text 20 60 210 80
             (Some (task_text "Fix login bug (high)" "high")) None (Some (js "1")))
          (mkNode 5%nat Text 20 150 210 80
             (Some (task_text "Write docs" "medium")) None None).
Proof.
  intros out.
  destruct (server_task_cards_do_not_overlap (λ n : nat, n) ascii_toLowerCase
              taskboard_description) as [Hgroups Hapart].
  split; [exact Hgroups|].
  apply (Hapart 0%nat 1%nat); [done | reflexivity | reflexivity].
Defined.

(** The same on the board of an empty description, whose only node after
    the groups is the placeholder card. *)
Lemma server_placeholder_board_groups :
  let out := Server.generateTaskboardFromDescription (λ n : nat, n)
               ascii_toLowerCase [] in
  length (nodes out) = 5%nat ∧ take 4 (nodes out) = column_groups (λ n : nat, n).
Proof. vm_compute. done. Qed.


Lemma column_groups_lookup {I : Type} (gen : nat → I) (c : nat) :
  (c < 4)%nat →
  ∃ group, column_groups gen !! c = Some group
    ∧ is_group group = true
    ∧ node_x group = Z.of_nat c * 270 ∧ node_y group = 0
    ∧ node_width group = 250 ∧ node_height group = 600.
Proof.
  intros Hc. destruct c as [|[|[|[|c]]]]; [..|lia];
    eexists; (split; [reflexivity|]); repeat split.
Qed.

(** X20. While the board of the server holds at most six nodes after the
    four column groups, each of these nodes lies inside a column group. *)
Theorem server_task_cards_lie_in_columns {I : Type} (gen : nat → I)
    (lower : jsstring → jsstring) (description : jsstring) (k : nat)
    (card : CanvasNode I Z) :
  let out := Server.generateTaskboardFromDescription gen lower description in
  (length (nodes out) ≤ 10)%nat →
  nodes out !! (4 + k)%nat = Some card →
  ∃ (c : nat) group,
    (c < 4)%nat ∧ nodes out !! c = Some group
    ∧ is_group group = true ∧ within card group = true.
Proof.
  intros out. subst out. unfold Server.generateTaskboardFromDescription.
  destruct (server_board_stacked gen lower description)
    as (_ & Hfour & Hgroups & Hcounts & places & Hcards & _ & Hbelow).
  set (b := Server.board _) in *.
  assert (∀ c group, (c < 4)%nat → column_groups gen !! c = Some group →
                     b_nodes b !! c = Some group) as Hgroup.
  { intros c group Hc Hg. rewrite <- Hgroups in Hg.
    by rewrite lookup_take_lt in Hg. }
  destruct (length (b_nodes b) =? 4)%nat eqn:Hlen.
  - apply Nat.eqb_eq in Hlen. unfold fresh, push_node, finish. cbn [nodes b_nodes].
    intros _ Hk. assert (k = 0%nat) as ->.
    { apply lookup_lt_Some in Hk. rewrite length_app in Hk. cbn in Hk. lia. }
    replace (4 + 0)%nat with (length (b_nodes b)) in Hk by lia.
    rewrite list_lookup_middle in Hk by done. injection Hk as <-.
    destruct (column_groups_lookup gen 0) as (group & Hg & Hisg & Gx & Gy & Gw & Gh);
      [lia|].
    exists 0%nat, group. repeat split; [lia| |done|].
    + rewrite lookup_app_l by lia. apply Hgroup; [lia|done].
    + unfold within. rewrite Gx, Gy, Gw, Gh. reflexivity.
  - unfold finish. cbn [nodes]. intros Hten Hk. rewrite <- lookup_drop in Hk.
    destruct (Forall2_lookup_l _ _ _ _ _ Hcards Hk) as ([c r] & Hp & Hx & Hy & Hw & Hh).
    rewrite Forall_forall in Hbelow.
    destruct (Hbelow _ (list_elem_of_lookup_2 _ _ _ Hp)) as [Hc Hr]. cbn in *.
    assert (r < 6)%nat as Hr6.
    { destruct (Server.taskCounts _ !! c) as [n|] eqn:En; cbn in Hr; [|lia].
      rewrite Forall_forall in Hcounts.
      pose proof (Hcounts n (list_elem_of_lookup_2 _ _ _ En)) as Hn.
      rewrite length_drop in Hn. lia. }
    destruct (column_groups_lookup gen c Hc) as (group & Hg & Hisg & Gx & Gy & Gw & Gh).
    exists c, group. repeat split; [done| |done|].
    + by apply Hgroup.
    + unfold within. rewrite Hx, Hy, Hw, Hh, Gx, Gy, Gw, Gh.
      rewrite !andb_true_iff, !Z.leb_le. lia.
Qed.

Lemma server_task_cards_lie_in_columns_witness :
  let out := Server.generateTaskboardFromDescription (λ n : nat, n)
               ascii_toLowerCase taskboard_description in
  ∃ (c : nat) group,
    (c < 4)%nat ∧ nodes out !! c = Some group
    ∧ is_group group = true
    ∧ within (mkNode 6%nat Text 830 60 210 80
                (Some (task_text "done: deploy to prod" "medium")) None None)
        group = true.
Proof.
  intros out.
  apply (server_task_cards_lie_in_columns (λ n : nat, n) ascii_toLowerCase
           taskboard_description 2); [vm_compute; lia | reflexivity].
Defined.
(** ** Cards of the server's risk matrix *)

Section ServerRisks.
Context {I : Type} (gen : nat → I) (lower : jsstring → jsstring).

Lemma server_grid_nodes :
  b_nodes (server_grid gen)
  = [ mkNode (gen 0%nat) Text (-100) 220 80 40 (Some (js "**Impact**")) None None;
      mkNode (gen 1%nat) Text 270 680 100 40 (Some (js "**Likelihood**")) None None;
      risk_cell gen 2 0 440 "LI / LL" "4"; risk_cell gen 3 270 440 "LI / ML" "4";
      risk_cell gen 4 540 440 "LI / HL" "2";
      risk_cell gen 5 0 220 "MI / LL" "4"; risk_cell gen 6 270 220 "MI / ML" "2";
      risk_cell gen 7 540 220 "MI / HL" "1";
      risk_cell gen 8 0 0 "HI / LL" "2"; risk_cell gen 9 270 0 "HI / ML" "1";
      risk_cell gen 10 540 0 "HI / HL" "1" ].
Proof. vm_compute. reflexivity. Qed.

Lemma server_grid_cells i l :
  ∃ cell, b_nodes (server_grid gen) !! (2 + cell_index i l)%nat = Some cell
    ∧ is_group cell = true
    ∧ node_x cell = level_index l * 270 ∧ node_y cell = (2 - level_index i) * 220
    ∧ node_width cell = 250 ∧ node_height cell = 200
    ∧ node_color cell = Some (getRiskColor i l).
Proof.
  rewrite server_grid_nodes.
  destruct i, l; eexists; (split; [reflexivity|]); repeat split.
Qed.

Lemma risk_line_stacked st line i :
  risks_stacked gen st → risks_stacked gen (Server.risk_line gen lower st line i).
Proof.
  intros (Hgrid & Hcounts & places & Hcards & Hranks).
  unfold Server.risk_line.
  destruct (bool_decide _ || _).
  { split; [done|]. split; [done|]. by exists places. }
  match goal with
  | |- context [level_name ?i ++ js "-" ++ level_name ?l] =>
      generalize i, l; intros impact likelihood
  end.
  unfold fresh, push_node. cbn [drawn b_nodes Server.matrix Server.riskCounts].
  set (key := level_name impact ++ js "-" ++ level_name likelihood).
  set (count := default 0%nat (Server.riskCounts st !! key)).
  assert (11 ≤ length (b_nodes (Server.matrix st)))%nat as Hlen.
  { rewrite <- (take_drop 11 (b_nodes (Server.matrix st))), Hgrid, length_app.
    cbn. lia. }
  pose proof (Hcounts key) as Hcount. fold count in Hcount.
  split; [|split]; cbn [Server.matrix Server.riskCounts b_nodes].
  - by rewrite take_app_le by lia.
  - intros key'. rewrite drop_app_le, length_app by lia. cbn [length].
    destruct (decide (key = key')) as [<-|Hne].
    + rewrite lookup_insert_eq. cbn. lia.
    + rewrite lookup_insert_ne by done. specialize (Hcounts key'). lia.
  - exists (places ++ [(impact, likelihood, count)]).
    rewrite drop_app_le, length_app by lia. cbn [length]. split.
    + apply Forall2_app; [done|]. constructor; [|constructor].
      unfold risk_card_at, Server.cellWidth, Server.cellHeight, Server.padding.
      cbn. repeat split; lia.
    + apply Forall_app. split.
      * eapply Forall_impl; [exact Hranks|]. intros p Hp. cbn in *. lia.
      * constructor; [|constructor]. cbn. lia.
Qed.

Lemma server_risks_stacked description :
  risks_stacked gen
    (forEach (Server.risk_line gen lower) (nonblank_lines description)
       (Server.mkRiskLoop ∅ (server_grid gen))).
Proof.
  apply forEach_invariant; [apply risk_line_stacked|].
  split; [|split]; cbn [Server.matrix Server.riskCounts].
  - by rewrite server_grid_nodes.
  - intros key. rewrite lookup_empty. cbn. lia.
  - exists []. split; constructor.
Qed.

Lemma server_riskmatrix_unfold description :
  Server.generateRiskMatrixFromDescription gen lower description
  = finish (Server.matrix
              (forEach (Server.risk_line gen lower) (nonblank_lines description)
                 (Server.mkRiskLoop ∅ (server_grid gen)))).
Proof. reflexivity. Qed.

End ServerRisks.

(** X19. While the risk matrix of the server holds at most six risk cards
    (seventeen nodes with the labels and the grid), every card lies inside a
    cell of the grid and carries the colour of that cell. *)
Theorem server_risk_cards_lie_in_cells {I : Type} (gen : nat → I)
    (lower : jsstring → jsstring) (description : jsstring) (k : nat)
    (card : CanvasNode I Z) :
  let out := Server.generateRiskMatrixFromDescription gen lower description in
  (length (nodes out) ≤ 17)%nat →
  nodes out !! (11 + k)%nat = Some card →
  ∃ i l cell,
    nodes out !! (2 + cell_index i l)%nat = Some cell
    ∧ is_group cell = true
    ∧ node_color card = node_color cell
    ∧ within card cell = true.
Proof.
  intros out. subst out. rewrite server_riskmatrix_unfold.
  unfold finish. cbn [nodes].
  pose proof (server_risks_stacked gen lower description)
    as (Hgrid & _ & places & Hcards & Hranks).
  set (b := b_nodes (Server.matrix _)) in *.
  intros Hlen Hk. rewrite <- lookup_drop in Hk.
  destruct (Forall2_lookup_l _ _ _ _ _ Hcards Hk) as ([[i l] rank] & Hp & Hat).
  rewrite Forall_forall in Hranks.
  pose proof (Hranks _ (list_elem_of_lookup_2 _ _ _ Hp)) as Hrank. cbn in Hrank.
  rewrite length_drop in Hrank.
  destruct (server_grid_cells gen i l) as (cell & Hcell & Hg & Cx & Cy & Cw & Ch & Ccol).
  exists i, l, cell.
  destruct Hat as (Hx & Hy & Hw & Hh & Hcol).
  repeat split; try done.
  - rewrite <- Hgrid in Hcell.
    rewrite lookup_take_lt in Hcell; [done|].
    unfold cell_index. destruct i, l; cbn; lia.
  - by rewrite Hcol, Ccol.
  - unfold within. rewrite Hx, Hy, Hw, Hh, Cx, Cy, Cw, Ch.
    rewrite !andb_true_iff, !Z.leb_le.
    assert (Z.of_nat rank < 6) by lia.
    Z.div_mod_to_equations. lia.
Qed.

Lemma server_risk_cards_lie_in_cells_witness :
  let out := Server.generateRiskMatrixFromDescription (λ n : nat, n)
               ascii_toLowerCase risk_description in
  ∃ i l cell,
    nodes out !! (2 + cell_index i l)%nat = Some cell
    ∧ is_group cell = true
    ∧ node_color (mkNode 12%nat Text 290 460 100 40
                    (Some (js "Minor UI glitch - low impact")) None (Some (js "4")))
      = node_color cell
    ∧ within (mkNode 12%nat Text 290 460 100 40
                (Some (js "Minor UI glitch - low impact")) None (Some (js "4")))
        cell = true.
Proof.
  intros out.
  apply (server_risk_cards_lie_in_cells (λ n : nat, n) ascii_toLowerCase
           risk_description 1).
  - vm_compute. lia.
  - reflexivity.
Defined.

Local Close Scope Z_scope.
